(** * Edumatee: the conversational interaction core

    A shallow embedding of the parts of the Edumatee study assistant that
    carry its chat, structured-output and speech behaviour:

    - [services/geminiService] (the model gateway): credential check,
      prompt assembly, request issue, [JSON.parse] of structured replies;
    - [hooks/useSpeech]: the speech-recognition and speech-synthesis hook;
    - [components/InterviewTrainer], [components/Explainer] (with its
      [ChatInput]) and [components/CodeGenerator]: the panels that stream
      model output into their state;
    - [components/Summarizer] and the idea dialog of
      [components/ProjectPlanner]: the panels that make one call and show
      its outcome; the taking of a quiz in [components/QuizGenerator];
    - [components/Reminders], [components/AttendanceTracker],
      [components/ProjectPlanner] and the reminders of
      [components/SkillTracker]: the lists kept in local storage.

    Conventions.  A JavaScript string is a sequence of UTF-16 code units.
    Where the program only stores, compares or concatenates text it is a
    Rocq [string]; where the program looks inside it ([trim], [JSON.parse])
    it is the list of its code units ([list N]).  React state is explicit
    state passing; an [async] function is cut at its [await]s into the
    pieces that run between them, and the events of the environment (a
    fragment of the stream arrives, the engine fires an event, React
    renders) are the letters of a trace. *)

From Stdlib Require Import ZArith NArith Ascii String List DecimalString Lia.
From Stdlib Require DecimalN DecimalPos.
From stdpp Require Import base list gmap strings.

Set Warnings "-register-all".

Open Scope string_scope.
Open Scope list_scope.

(* ================================================================== *)
(** * Part I: definitions                                              *)
(* ================================================================== *)

(** ** JavaScript built-ins used by the program *)

Module Js.

#[local] Open Scope N_scope.

(** The line feed of a template literal's [\n]. *)
Definition nl : string := String "010"%char EmptyString.

Definition code_units (s : string) : list N :=
  map N_of_ascii (list_ascii_of_string s).

(** [WhiteSpace] and [LineTerminator] of ECMAScript, what
    [String.prototype.trim] strips. *)
Definition is_whitespace (c : N) : bool :=
  (c =? 9) || (c =? 10) || (c =? 11) || (c =? 12) || (c =? 13) || (c =? 32)
  || (c =? 160) || (c =? 5760) || ((8192 <=? c) && (c <=? 8202))
  || (c =? 8232) || (c =? 8233) || (c =? 8239) || (c =? 8287)
  || (c =? 12288) || (c =? 65279).

Fixpoint trimStart (s : list N) : list N :=
  match s with
  | c :: s' => if is_whitespace c then trimStart s' else s
  | [] => []
  end.

Definition trimEnd (s : list N) : list N := rev (trimStart (rev s)).

(** [s.trim()] *)
Definition trim (s : list N) : list N := trimEnd (trimStart s).

(** [!s.trim()]: a string is falsy exactly when it is empty. *)
Definition blank (s : string) : bool :=
  match trim (code_units s) with [] => true | _ => false end.

(** [!s] for a string. *)
Definition falsy (s : string) : bool :=
  match s with EmptyString => true | _ => false end.

(** [`${n}`] for a non-negative integer, as [Date.now()] returns. *)
Definition number_to_string (n : N) : string :=
  NilZero.string_of_uint (N.to_uint n).

(** [xs.join(sep)] *)
Definition join (sep : string) (xs : list string) : string :=
  String.concat sep xs.

(** What a [throw] can carry: an [Error] object, or any other value. *)
Inductive Thrown :=
| Error (message : string)
| NotAnError.

End Js.

(** ** [JSON.parse] *)

Module Json.

#[local] Open Scope N_scope.

Inductive json :=
| JNull
| JBool (b : bool)
| JNumber (lexeme : list N)
| JString (s : list N)
| JArray (items : list json)
| JObject (fields : list (list N * json)).

Inductive Token :=
| TLBrace | TRBrace | TLBracket | TRBracket | TColon | TComma
| TString (s : list N)
| TNumber (lexeme : list N)
| TTrue | TFalse | TNull.

(** Where the scanner is inside a number: an optional minus sign, an
    integer part (a lone zero, or digits not starting with zero), an
    optional fraction (a dot and digits) and an optional exponent (e or E,
    an optional sign, digits). *)
Inductive NumPhase :=
| NMinus | NZero | NInt | NDot | NFrac | NExp | NExpSign | NExpDigits.

Inductive LexState :=
| LStart
| LString (acc : list N)
| LEscape (acc : list N)
| LUnicode (acc : list N) (seen : nat) (value : N)
| LNumber (ph : NumPhase) (acc : list N)
| LWord (expected : list N) (t : Token).

(** JSON's own white space is narrower than [trim]'s. *)
Definition is_ws (c : N) : bool :=
  (c =? 32) || (c =? 9) || (c =? 10) || (c =? 13).

Definition is_digit (c : N) : bool := (48 <=? c) && (c <=? 57).

Definition hex_value (c : N) : option N :=
  if is_digit c then Some (c - 48)
  else if (97 <=? c) && (c <=? 102) then Some (c - 87)
  else if (65 <=? c) && (c <=? 70) then Some (c - 55)
  else None.

(** A character met between tokens. *)
Definition lex_start (c : N) : option (LexState * list Token) :=
  if is_ws c then Some (LStart, [])
  else if c =? 123 then Some (LStart, [TLBrace])
  else if c =? 125 then Some (LStart, [TRBrace])
  else if c =? 91 then Some (LStart, [TLBracket])
  else if c =? 93 then Some (LStart, [TRBracket])
  else if c =? 58 then Some (LStart, [TColon])
  else if c =? 44 then Some (LStart, [TComma])
  else if c =? 34 then Some (LString [], [])
  else if c =? 45 then Some (LNumber NMinus [c], [])
  else if c =? 48 then Some (LNumber NZero [c], [])
  else if is_digit c then Some (LNumber NInt [c], [])
  else if c =? 116 then Some (LWord (Js.code_units "rue") TTrue, [])
  else if c =? 102 then Some (LWord (Js.code_units "alse") TFalse, [])
  else if c =? 110 then Some (LWord (Js.code_units "ull") TNull, [])
  else None.

Definition is_exp (c : N) : bool := (c =? 101) || (c =? 69).

(** The number is over at [c]: emit it and scan [c] afresh. *)
Definition lex_number_end (acc : list N) (c : N) : option (LexState * list Token) :=
  match lex_start c with
  | Some (st, ts) => Some (st, TNumber (rev acc) :: ts)
  | None => None
  end.

Definition lex_number (ph : NumPhase) (acc : list N) (c : N)
  : option (LexState * list Token) :=
  match ph with
  | NMinus =>
      if c =? 48 then Some (LNumber NZero (c :: acc), [])
      else if is_digit c then Some (LNumber NInt (c :: acc), [])
      else None
  | NZero =>
      if c =? 46 then Some (LNumber NDot (c :: acc), [])
      else if is_exp c then Some (LNumber NExp (c :: acc), [])
      else lex_number_end acc c
  | NInt =>
      if is_digit c then Some (LNumber NInt (c :: acc), [])
      else if c =? 46 then Some (LNumber NDot (c :: acc), [])
      else if is_exp c then Some (LNumber NExp (c :: acc), [])
      else lex_number_end acc c
  | NDot =>
      if is_digit c then Some (LNumber NFrac (c :: acc), []) else None
  | NFrac =>
      if is_digit c then Some (LNumber NFrac (c :: acc), [])
      else if is_exp c then Some (LNumber NExp (c :: acc), [])
      else lex_number_end acc c
  | NExp =>
      if (c =? 43) || (c =? 45) then Some (LNumber NExpSign (c :: acc), [])
      else if is_digit c then Some (LNumber NExpDigits (c :: acc), [])
      else None
  | NExpSign =>
      if is_digit c then Some (LNumber NExpDigits (c :: acc), []) else None
  | NExpDigits =>
      if is_digit c then Some (LNumber NExpDigits (c :: acc), [])
      else lex_number_end acc c
  end.

Definition lex_escape (acc : list N) (c : N) : option (LexState * list Token) :=
  if c =? 34 then Some (LString (34 :: acc), [])
  else if c =? 92 then Some (LString (92 :: acc), [])
  else if c =? 47 then Some (LString (47 :: acc), [])
  else if c =? 98 then Some (LString (8 :: acc), [])
  else if c =? 102 then Some (LString (12 :: acc), [])
  else if c =? 110 then Some (LString (10 :: acc), [])
  else if c =? 114 then Some (LString (13 :: acc), [])
  else if c =? 116 then Some (LString (9 :: acc), [])
  else if c =? 117 then Some (LUnicode acc 0 0, [])
  else None.

Definition lex_step (st : LexState) (c : N) : option (LexState * list Token) :=
  match st with
  | LStart => lex_start c
  | LString acc =>
      if c =? 34 then Some (LStart, [TString (rev acc)])
      else if c =? 92 then Some (LEscape acc, [])
      else if c <? 32 then None
      else Some (LString (c :: acc), [])
  | LEscape acc => lex_escape acc c
  | LUnicode acc seen value =>
      match hex_value c with
      | Some h =>
          let value' := value * 16 + h in
          match seen with
          | 3%nat => Some (LString (value' :: acc), [])
          | _ => Some (LUnicode acc (S seen) value', [])
          end
      | None => None
      end
  | LNumber ph acc => lex_number ph acc c
  | LWord expected t =>
      match expected with
      | e :: rest =>
          if c =? e
          then match rest with
               | [] => Some (LStart, [t])
               | _ => Some (LWord rest t, [])
               end
          else None
      | [] => None
      end
  end.

(** End of input: only a complete token may be pending. *)
Definition lex_finish (st : LexState) : option (list Token) :=
  match st with
  | LStart => Some []
  | LNumber NZero acc | LNumber NInt acc
  | LNumber NFrac acc | LNumber NExpDigits acc => Some [TNumber (rev acc)]
  | _ => None
  end.

Fixpoint lex (st : LexState) (input : list N) : option (list Token) :=
  match input with
  | [] => lex_finish st
  | c :: rest =>
      match lex_step st c with
      | Some (st', out) =>
          match lex st' rest with
          | Some ts => Some (out ++ ts)
          | None => None
          end
      | None => None
      end
  end.

(** [obj[k] = v] while the object is built: a repeated key keeps its
    first position and takes the later value.  (The order in which
    JavaScript enumerates integer-like keys is not modelled; no property
    below depends on enumeration order.) *)
Fixpoint obj_put (k : list N) (v : json) (fields : list (list N * json))
  : list (list N * json) :=
  match fields with
  | [] => [(k, v)]
  | (k', v') :: rest =>
      if bool_decide (k' = k) then (k', v) :: rest
      else (k', v') :: obj_put k v rest
  end.

Definition make_object (fields : list (list N * json)) : json :=
  JObject (fold_left (fun acc kv => obj_put (fst kv) (snd kv) acc) fields []).

(** An enclosing container that waits for the value being read. *)
Inductive Frame :=
| FArray (items : list json)
| FObject (fields : list (list N * json)) (key : list N).

Inductive PState :=
| PValue (stack : list Frame)
| PArrayFirst (stack : list Frame)
| PArrayNext (items : list json) (stack : list Frame)
| PObjectFirst (stack : list Frame)
| PObjectKey (fields : list (list N * json)) (stack : list Frame)
| PObjectColon (fields : list (list N * json)) (key : list N) (stack : list Frame)
| PObjectNext (fields : list (list N * json)) (stack : list Frame)
| PDone (v : json).

(** A value is complete: hand it to the container that waits for it. *)
Definition reduce (stack : list Frame) (v : json) : PState :=
  match stack with
  | [] => PDone v
  | FArray items :: stack' => PArrayNext (v :: items) stack'
  | FObject fields key :: stack' => PObjectNext ((key, v) :: fields) stack'
  end.

Definition parse_value (stack : list Frame) (t : Token) : option PState :=
  match t with
  | TString s => Some (reduce stack (JString s))
  | TNumber n => Some (reduce stack (JNumber n))
  | TTrue => Some (reduce stack (JBool true))
  | TFalse => Some (reduce stack (JBool false))
  | TNull => Some (reduce stack JNull)
  | TLBracket => Some (PArrayFirst stack)
  | TLBrace => Some (PObjectFirst stack)
  | _ => None
  end.

Definition parse_step (st : PState) (t : Token) : option PState :=
  match st, t with
  | PValue stack, _ => parse_value stack t
  | PArrayFirst stack, TRBracket => Some (reduce stack (JArray []))
  | PArrayFirst stack, _ => parse_value (FArray [] :: stack) t
  | PArrayNext items stack, TComma => Some (PValue (FArray items :: stack))
  | PArrayNext items stack, TRBracket => Some (reduce stack (JArray (rev items)))
  | PObjectFirst stack, TRBrace => Some (reduce stack (JObject []))
  | PObjectFirst stack, TString k => Some (PObjectColon [] k stack)
  | PObjectKey fields stack, TString k => Some (PObjectColon fields k stack)
  | PObjectColon fields k stack, TColon => Some (PValue (FObject fields k :: stack))
  | PObjectNext fields stack, TComma => Some (PObjectKey fields stack)
  | PObjectNext fields stack, TRBrace =>
      Some (reduce stack (make_object (rev fields)))
  | _, _ => None
  end.

Fixpoint parse_tokens (st : PState) (ts : list Token) : option json :=
  match ts with
  | [] => match st with PDone v => Some v | _ => None end
  | t :: rest =>
      match parse_step st t with
      | Some st' => parse_tokens st' rest
      | None => None
      end
  end.

(** [JSON.parse(text)]: [None] stands for the [SyntaxError] it throws. *)
Definition parse (text : list N) : option json :=
  match lex LStart text with
  | Some ts => parse_tokens (PValue []) ts
  | None => None
  end.

(** Property lookup [obj[k]]. *)
Fixpoint get (k : list N) (fields : list (list N * json)) : option json :=
  match fields with
  | [] => None
  | (k', v) :: rest => if bool_decide (k' = k) then Some v else get k rest
  end.

End Json.

(** ** What React does with a value of a reply *)

Module React.

(** Whether React takes a value of a reply as a child: a string or a
    number is text, a boolean or [null] shows nothing, an array shows
    its members, a plain object is refused with an error. *)
Fixpoint renderable (v : Json.json) : bool :=
  match v with
  | Json.JObject _ => false
  | Json.JArray xs => forallb renderable xs
  | _ => true
  end.

(** [{x.name}] for a property that may be missing: [undefined] shows
    nothing. *)
Definition child (v : option Json.json) : bool :=
  match v with
  | Some x => renderable x
  | None => true
  end.

End React.

(** ** [types.ts] *)

Inductive Role := user | model.

Module FileInfo.
Record t := mk { name : string; type : string }.
End FileInfo.

Module Message.
Record t := mk {
  id : string;
  role : Role;
  content : string;
  fileInfo : option FileInfo.t
}.

(** [{ ...m, content: c }] *)
Definition with_content (m : t) (c : string) : t :=
  mk (id m) (role m) c (fileInfo m).
End Message.

Module Note.
Record t := mk {
  id : string;
  title : string;
  subject : string;
  content : string;
  lastModified : string
}.
End Note.

Module SkillGoal.
Inductive Status := InProgress | Completed.
Record t := mk {
  id : string;
  title : string;
  description : string;
  targetDate : string;
  status : Status
}.
End SkillGoal.

(** ** [services/geminiService]: the model gateway *)

Module Gateway.

Import Js.

(** The double quote, which a Rocq string literal cannot hold bare. *)
Definition dq : string := String "034"%char EmptyString.

(** *** The remote interface ([@google/genai]) *)

(** [Type.STRING], [Type.ARRAY], [Type.OBJECT] schemas, with the fields
    the service's declarations use. *)
Inductive Schema :=
| STRING (description : string)
| ARRAY (items : Schema) (description : string)
| OBJECT (properties : list (string * Schema)) (required : list string).

Inductive Part :=
| text_part (text : string)
| inlineData (data mimeType : string).

Record Content := { content_role : Role; parts : list Part }.

(** What [ai.chats.create] returns: a local object, no request yet. *)
Record Chat := {
  chat_model : string;
  systemInstruction : string;
  history : list Content
}.

(** [response.text] is the text of the reply, or [undefined] ([None])
    when the reply carries none. *)
Record GenerateContentResponse := { text : option string }.

(** An async generator of responses, as the consumer will see it: the
    texts of the chunks it yields, then completion or a throw. *)
Record ResponseStream := {
  chunks : list string;
  failure : option Thrown
}.

Record GeneratedImage := { imageBytes : string }.
Record GenerateImagesResponse := { generatedImages : list GeneratedImage }.

Inductive AspectRatio := r1_1 | r16_9 | r9_16 | r4_3 | r3_4.

(** The calls that reach the network, indexed by what they resolve to. *)
Inductive Request : Type -> Type :=
| models_generateContent
    (model : string) (contents : list Part)
    (responseMimeType : option string) (responseSchema : option Schema)
  : Request GenerateContentResponse
| models_generateContentStream (model : string) (contents : string)
  : Request ResponseStream
| chat_sendMessageStream (chat : Chat) (message : list Part)
  : Request ResponseStream
| models_generateImages
    (model : string) (prompt : string) (numberOfImages : Z)
    (outputMimeType : string) (aspectRatio : AspectRatio)
  : Request GenerateImagesResponse.

(** An [async] service function: it returns, throws, or awaits a request
    and goes on with what the request resolved to.  Every [await] of the
    service stands outside any [try], so a rejected request rejects the
    function ([run] below). *)
Inductive Gateway (A : Type) : Type :=
| Return (a : A)
| Throw (e : Thrown)
| Await {R : Type} (r : Request R) (k : R -> Gateway A).
Arguments Return {A} a.
Arguments Throw {A} e.
Arguments Await {A R} r k.

(** The transport: each request resolves or rejects. *)
Definition Remote := forall R, Request R -> Thrown + R.

Fixpoint run {A} (remote : Remote) (g : Gateway A) : Thrown + A :=
  match g with
  | Return a => inr a
  | Throw e => inl e
  | Await r k =>
      match remote _ r with
      | inl e => inl e
      | inr x => run remote (k x)
      end
  end.

(** The requests a call issues, in order. *)
Inductive AnyRequest := issued (R : Type) (r : Request R).
Arguments issued {R} r.

Fixpoint requests {A} (remote : Remote) (g : Gateway A) : list AnyRequest :=
  match g with
  | Return _ | Throw _ => []
  | Await r k =>
      issued r :: match remote _ r with
               | inl _ => []
               | inr x => requests remote (k x)
               end
  end.

(** *** The service *)

Section Service.

(** [process.env.API_KEY] *)
Variable apiKey : option string.

(** [!apiKey] *)
Definition no_apiKey : bool :=
  match apiKey with
  | None => true
  | Some k => falsy k
  end.

(** [new GoogleGenAI({ apiKey: apiKey || "" })] builds the client at
    load time with this key; it sends nothing. *)
Definition ai_apiKey : string :=
  match apiKey with
  | Some k => if falsy k then EmptyString else k
  | None => EmptyString
  end.

Definition buildHistory (messages : list Message.t) : list Content :=
  map (fun msg =>
         {| content_role := Message.role msg;
            parts := [text_part (Message.content msg)] |})
      messages.

Definition explainerSystemInstruction : string :=
  "You are a friendly and brilliant AI academic assistant called EduLearn. Your role is to explain any academic or technical concept the user asks about. Use simple terms, examples, and analogies. Be encouraging and helpful. Where appropriate, provide visual diagrams using ASCII or Mermaid syntax, real-world examples to make the concept tangible, and ready-to-use code snippets in a suitable programming language. Format your responses using Markdown for readability.".

Definition missing_key : Thrown := Error "API key is missing.".

Definition flash : string := "gemini-2.5-flash".

(** The text of one note inside the notes context. *)
Definition note_text (n : Note.t) : string :=
  "Subject: " +:+ Note.subject n +:+ nl +:+
  "Title: " +:+ Note.title n +:+ nl +:+
  "Content:" +:+ nl +:+ Note.content n.

Definition notesContext (notes : list Note.t) : string :=
  join (nl +:+ nl +:+ "---" +:+ nl +:+ nl) (map note_text notes).

Definition notes_instruction : string :=
  "Based on the following notes, please answer my question. If the answer is not in the notes, you can use your general knowledge but please mention that the information wasn't in the provided material.".

Definition finalMessage (newMessage : string) (notes : option (list Note.t)) : string :=
  match notes with
  | Some ns =>
      if (0 <? length ns)%nat
      then notes_instruction +:+ nl +:+ nl +:+
           "[My Notes]" +:+ nl +:+ notesContext ns +:+ nl +:+ nl +:+
           "[My Question]" +:+ nl +:+ newMessage
      else newMessage
  | None => newMessage
  end.

Definition file_parts (file : option (string * string)) : list Part :=
  match file with
  | Some (data, mimeType) => [inlineData data mimeType]
  | None => []
  end.

Definition generateExplanationStream
    (history : list Message.t) (newMessage : string)
    (file : option (string * string)) (notes : option (list Note.t))
  : Gateway ResponseStream :=
  if no_apiKey then Throw missing_key else
  let chat := {| chat_model := flash;
                 systemInstruction := explainerSystemInstruction;
                 history := buildHistory history |} in
  let parts := text_part (finalMessage newMessage notes) :: file_parts file in
  Await (chat_sendMessageStream chat parts) Return.

(** [return response.text]: the text, or [undefined], as it is. *)
Definition summarizeText (textToSummarize : string) (file : option (string * string))
  : Gateway (option string) :=
  if no_apiKey then Throw missing_key else
  let prompt := "Please provide a concise summary of the following text/document. Focus on the key points and main ideas." in
  let parts := [text_part prompt; text_part textToSummarize] ++ file_parts file in
  Await (models_generateContent flash parts None None)
        (fun response => Return (text response)).

(** The [try { JSON.parse(response.text.trim()) } catch { throw ... }]
    that ends every structured call; the [as T] that follows the parse
    is a compile-time annotation and does nothing when the code runs.
    On a reply without text [response.text.trim()] throws a [TypeError],
    inside the [try] as well.  (The [console.error] lines of the handler
    only log.) *)
Definition parse_reply (invalid : string) (response : GenerateContentResponse)
  : Gateway Json.json :=
  match text response with
  | Some raw =>
      let jsonText := trim (code_units raw) in
      match Json.parse jsonText with
      | Some data => Return data
      | None => Throw (Error invalid)
      end
  | None => Throw (Error invalid)
  end.

Definition json_mime : option string := Some "application/json".

Definition quizSchema : Schema :=
  ARRAY
    (OBJECT
       [("question", STRING "The question text.");
        ("options", ARRAY (STRING EmptyString) "An array of 4 possible answers.");
        ("correctAnswer", STRING "The correct answer from the options array.")]
       ["question"; "options"; "correctAnswer"])
    EmptyString.

Definition quiz_invalid : string :=
  "The AI returned an invalid quiz format. Please try again.".

Definition generateQuiz (topic : string) : Gateway Json.json :=
  if no_apiKey then Throw missing_key else
  let prompt :=
    "Generate a 5-question multiple-choice quiz on the topic: " +:+ dq +:+ topic +:+ dq
    +:+ ". Each question should have 4 options." in
  Await (models_generateContent flash [text_part prompt] json_mime (Some quizSchema))
        (parse_reply quiz_invalid).

Definition generateImages (prompt : string) (numberOfImages : Z) (aspectRatio : AspectRatio)
  : Gateway (list string) :=
  if no_apiKey then Throw missing_key else
  Await (models_generateImages "imagen-4.0-generate-001" prompt numberOfImages
                               "image/png" aspectRatio)
        (fun response => Return (map imageBytes (generatedImages response))).

Definition skillFeedbackSchema : Schema :=
  OBJECT
    [("badgeName", STRING "A creative and cool-sounding badge name for accomplishing the skill goal.");
     ("feedback", STRING "Encouraging and constructive feedback about achieving this skill. Acknowledge their effort.");
     ("nextSteps", ARRAY (STRING EmptyString) "A list of 3 concrete, actionable next steps to build upon this skill.")]
    ["badgeName"; "feedback"; "nextSteps"].

Definition feedback_invalid : string :=
  "The AI returned an invalid feedback format. Please try again.".

Definition getSkillFeedback (goal : SkillGoal.t) : Gateway Json.json :=
  if no_apiKey then Throw missing_key else
  let prompt :=
    "Act as a helpful and motivating student advisor. A student has set a skill goal for themselves." +:+ nl +:+
    "    Goal Title: " +:+ dq +:+ SkillGoal.title goal +:+ dq +:+ nl +:+
    "    Goal Description: " +:+ dq +:+ SkillGoal.description goal +:+ dq +:+ nl +:+
    "    " +:+ nl +:+
    "    Please provide a response in JSON format that includes a creative badge name for this achievement, some positive feedback, and three tangible next steps to continue their learning journey." in
  Await (models_generateContent flash [text_part prompt] json_mime (Some skillFeedbackSchema))
        (parse_reply feedback_invalid).

Definition projectIdeaSchema : Schema :=
  ARRAY
    (OBJECT
       [("title", STRING "A catchy and descriptive project title.");
        ("description", STRING "A brief, one-paragraph description of the project.");
        ("keyFeatures", ARRAY (STRING EmptyString) "A list of 3-5 key features for the project.");
        ("techStack", ARRAY (STRING EmptyString) "A list of recommended technologies (e.g., 'React', 'Python', 'Firebase').");
        ("datasetSource", STRING "A suggested source for a dataset, like a specific Kaggle dataset or a public API.");
        ("architecture", STRING "A brief overview of the proposed system architecture or ML model to use.");
        ("deploymentTips", STRING "A tip or suggestion on how the project could be deployed or showcased.")]
       ["title"; "description"; "keyFeatures"; "techStack"; "datasetSource";
        "architecture"; "deploymentTips"])
    EmptyString.

Definition idea_invalid : string :=
  "The AI returned an invalid project idea format. Please try again.".

Definition getProjectIdeas (interests : string) : Gateway Json.json :=
  if no_apiKey then Throw missing_key else
  let prompt :=
    "I am a student looking for project ideas. My interests are: " +:+ dq +:+ interests +:+ dq +:+ ". " +:+ nl +:+
    "    Please generate 3 creative and achievable project ideas for a mini or major project. " +:+ nl +:+
    "    For each idea, provide a title, a short description, 3-5 key features, a recommended tech stack, a suggested data source, a proposed architecture, and a deployment tip." in
  Await (models_generateContent flash [text_part prompt] json_mime (Some projectIdeaSchema))
        (parse_reply idea_invalid).

Definition codeDebugSchema : Schema :=
  OBJECT
    [("language", STRING "The programming language detected in the code snippet.");
     ("errorAnalysis", STRING "A detailed but easy-to-understand explanation of the error(s) in the code.");
     ("suggestedFix", STRING "Specific advice on how to fix the code, explaining the logic behind the changes.");
     ("optimizedCode", STRING "The complete, corrected, and potentially optimized version of the code snippet.")]
    ["language"; "errorAnalysis"; "suggestedFix"; "optimizedCode"].

Definition debug_invalid : string :=
  "The AI returned an invalid format. Please try again.".

Definition debugCode (code : string) : Gateway Json.json :=
  if no_apiKey then Throw missing_key else
  let prompt :=
    "Act as an expert code debugger. Analyze the following code snippet, identify any errors or potential issues, and provide a detailed analysis and a corrected version." +:+ nl +:+
    "    " +:+ nl +:+
    "    Code to debug:" +:+ nl +:+
    "    ```" +:+ nl +:+
    "    " +:+ code +:+ nl +:+
    "    ```" +:+ nl +:+
    "    " in
  Await (models_generateContent flash [text_part prompt] json_mime (Some codeDebugSchema))
        (parse_reply debug_invalid).

Definition interviewSystemInstruction : string :=
  "You are " +:+ dq +:+ "EduLearn," +:+ dq +:+ " a friendly but professional AI Interview Coach for students in AI and Machine Learning. Your goal is to help users prepare for technical interviews. You can operate in a few modes:" +:+ nl +:+
  "1.  **Mock Interview (Theory)**: Ask the user common ML/AI theory questions (e.g., " +:+ dq +:+ "What is overfitting?" +:+ dq +:+ ", " +:+ dq +:+ "Explain the difference between classification and regression." +:+ dq +:+ "). Wait for their answer, then provide constructive feedback and the ideal answer." +:+ nl +:+
  "2.  **Resume Review**: Ask the user to paste their resume text. Provide actionable feedback on its content, structure, and how well it showcases their skills for an AI/ML role." +:+ nl +:+
  "3.  **Behavioral Questions**: Ask common behavioral questions relevant to tech roles." +:+ nl +:+
  nl +:+
  "Start by greeting the user and asking them what they'd like to focus on today (e.g., theory, resume review, etc.). Conduct the conversation in a turn-by-turn manner.".

Definition startInterviewChat (history : list Message.t) (newMessage : string)
  : Gateway ResponseStream :=
  if no_apiKey then Throw missing_key else
  let chat := {| chat_model := flash;
                 systemInstruction := interviewSystemInstruction;
                 history := buildHistory history |} in
  Await (chat_sendMessageStream chat [text_part newMessage]) Return.

Definition generateCodeSnippetStream (prompt language : string) : Gateway ResponseStream :=
  if no_apiKey then Throw missing_key else
  let fullPrompt :=
    "You are an expert code generator. Generate a code snippet in " +:+ language
    +:+ " for the following task: " +:+ dq +:+ prompt +:+ dq
    +:+ ". Provide a brief explanation of how the code works. Format your response in Markdown, with the code inside a correctly labeled code block." in
  Await (models_generateContentStream flash fullPrompt) Return.

Definition websiteCodeSchema : Schema :=
  OBJECT
    [("html", STRING "The full HTML code for the website, including doctype, head, and body tags.");
     ("css", STRING "The complete, self-contained CSS code for styling the website.");
     ("js", STRING "The JavaScript code for any interactivity. Can be empty if not needed.")]
    ["html"; "css"; "js"].

Definition code_invalid : string :=
  "The AI returned an invalid code format. Please try again.".

Definition generateWebsiteCode (prompt : string) : Gateway Json.json :=
  if no_apiKey then Throw missing_key else
  let fullPrompt :=
    "Generate the complete HTML, CSS, and JavaScript code for a single-page website based on this description: " +:+ dq +:+ prompt +:+ dq
    +:+ ". Provide the code in a single JSON object. The HTML should be a complete document, and the CSS should be self-contained. The JS should be placed in the body. Make the design modern and responsive." in
  Await (models_generateContent flash [text_part fullPrompt] json_mime (Some websiteCodeSchema))
        (parse_reply code_invalid).

End Service.

End Gateway.

(** ** [hooks/useSpeech] *)

Module Speech.

(** *** Speech synthesis

    [window.speechSynthesis] is one queue for the whole page; every
    instance of the hook talks to it and keeps an [isSpeaking] state of
    its own.  The engine follows the Web Speech API: [speak] appends to
    the queue, the head of the queue is the utterance being spoken (once
    its [start] event has fired), [cancel] empties the queue and fires
    the [error] (or [end]) event of every utterance it removes. *)

(** [new SpeechSynthesisUtterance(text)], made by [speak] of the hook
    instance [owner]: its three handlers set that instance's
    [isSpeaking].  [token] is the object's identity. *)
Record Utterance := {
  token : nat;
  utterance_text : string;
  owner : nat
}.

Record Engine := {
  queue : list Utterance;
  playing : bool
}.

Record Synth := {
  (** [window.speechSynthesis], [None] where the browser has none *)
  speechSynthesis : option Engine;
  (** the hook instances whose [isSpeaking] state is [true] *)
  speaking : gset nat;
  (** how many utterance objects were created so far *)
  created : nat
}.

Definition isSpeaking (h : nat) (s : Synth) : bool :=
  bool_decide (h ∈ speaking s).

Definition setIsSpeaking (h : nat) (b : bool) (s : Synth) : Synth :=
  {| speechSynthesis := speechSynthesis s;
     speaking := if b then {[h]} ∪ speaking s else speaking s ∖ {[h]};
     created := created s |}.

Definition set_engine (e : Engine) (s : Synth) : Synth :=
  {| speechSynthesis := Some e; speaking := speaking s; created := created s |}.

(** [utterance.onstart], [utterance.onend], [utterance.onerror] *)
Definition onstart (u : Utterance) : Synth -> Synth := setIsSpeaking (owner u) true.
Definition onend (u : Utterance) : Synth -> Synth := setIsSpeaking (owner u) false.
Definition onerror (u : Utterance) : Synth -> Synth := setIsSpeaking (owner u) false.

(** [window.speechSynthesis.cancel()], on an engine that exists. *)
Definition synth_cancel (e : Engine) (s : Synth) : Synth :=
  fold_left (fun acc u => onerror u acc) (queue e)
            (set_engine {| queue := []; playing := false |} s).

(** [window.speechSynthesis.speak(utterance)] *)
Definition synth_speak (u : Utterance) (s : Synth) : Synth :=
  match speechSynthesis s with
  | Some e => set_engine {| queue := queue e ++ [u]; playing := playing e |} s
  | None => s
  end.

Definition new_utterance (h : nat) (text : string) (s : Synth) : Utterance * Synth :=
  ({| token := created s; utterance_text := text; owner := h |},
   {| speechSynthesis := speechSynthesis s;
      speaking := speaking s;
      created := S (created s) |}).

(** [speak] of the hook instance [h] *)
Definition speak (h : nat) (text : string) (s : Synth) : Synth :=
  match speechSynthesis s with
  | None => s
  | Some _ =>
      if Js.falsy text then s
      else
        let (utterance, s1) := new_utterance h text s in
        let s2 := match speechSynthesis s1 with
                  | Some e => synth_cancel e s1
                  | None => s1
                  end in
        synth_speak utterance s2
  end.

(** [cancelSpeech] of the hook instance [h] *)
Definition cancelSpeech (h : nat) (s : Synth) : Synth :=
  match speechSynthesis s with
  | Some e => setIsSpeaking h false (synth_cancel e s)
  | None => s
  end.

(** The cleanup that [useEffect] returns; React runs it when the
    dependencies of the effect change and when the component unmounts. *)
Definition effect_cleanup (s : Synth) : Synth :=
  match speechSynthesis s with
  | Some e => synth_cancel e s
  | None => s
  end.

(** What the engine does by itself. *)
Definition engine_start (s : Synth) : Synth :=
  match speechSynthesis s with
  | Some {| queue := u :: rest; playing := false |} =>
      onstart u (set_engine {| queue := u :: rest; playing := true |} s)
  | _ => s
  end.

Definition engine_end (s : Synth) : Synth :=
  match speechSynthesis s with
  | Some {| queue := u :: rest; playing := true |} =>
      onend u (set_engine {| queue := rest; playing := false |} s)
  | _ => s
  end.

Definition engine_error (s : Synth) : Synth :=
  match speechSynthesis s with
  | Some {| queue := u :: rest; playing := _ |} =>
      onerror u (set_engine {| queue := rest; playing := false |} s)
  | _ => s
  end.

Inductive SynthEvent :=
| Speak (h : nat) (text : string)
| CancelSpeech (h : nat)
| Cleanup
| EngineStart
| EngineEnd
| EngineError.

Definition synth_step (s : Synth) (e : SynthEvent) : Synth :=
  match e with
  | Speak h text => speak h text s
  | CancelSpeech h => cancelSpeech h s
  | Cleanup => effect_cleanup s
  | EngineStart => engine_start s
  | EngineEnd => engine_end s
  | EngineError => engine_error s
  end.

Definition synth_run (s : Synth) (trace : list SynthEvent) : Synth :=
  fold_left synth_step trace s.

(** The page before any hook has spoken. *)
Definition synth_init (available : bool) : Synth :=
  {| speechSynthesis :=
       if available then Some {| queue := []; playing := false |} else None;
     speaking := ∅;
     created := 0 |}.

(** The utterances in the engine's queue: the one being spoken and the
    ones waiting. *)
Definition active (s : Synth) : list Utterance :=
  match speechSynthesis s with
  | Some e => queue e
  | None => []
  end.

(** *** Speech recognition *)

Record Alternative := { transcript : string }.

(** A [SpeechRecognitionResult]: at least one alternative. *)
Record SpeechRecognitionResult := {
  isFinal : bool;
  best : Alternative;
  others : list Alternative
}.

Inductive Capture := idle | capturing | stopping.

(** A [SpeechRecognition] object as the effect sets it up.  Its [onend]
    handler is a closure over the [isListening] of the render that ran
    the effect. *)
Record Recognition := {
  continuous : bool;
  interimResults : bool;
  onend_isListening : bool;
  capture : Capture
}.

Definition set_capture (c : Capture) (r : Recognition) : Recognition :=
  {| continuous := continuous r;
     interimResults := interimResults r;
     onend_isListening := onend_isListening r;
     capture := c |}.

(** [recognition.start()]: [None] is the [InvalidStateError] thrown when
    the object has already been started. *)
Definition start (r : nat) (objects : list Recognition) : option (list Recognition) :=
  match objects !! r with
  | Some o =>
      match capture o with
      | idle => Some (<[r := set_capture capturing o]> objects)
      | _ => None
      end
  | None => None
  end.

(** [recognition.stop()]: ignored unless the object is capturing; the
    engine may still return a result for the audio it has, then it fires
    [end]. *)
Definition stop (r : nat) (objects : list Recognition) : list Recognition :=
  match objects !! r with
  | Some o =>
      match capture o with
      | capturing => <[r := set_capture stopping o]> objects
      | _ => objects
      end
  | None => objects
  end.

Section Recognition.

(** The state of the component that calls the hook, and the callback
    it passes.  The callers write the callback as an inline arrow
    function: a new function object at every render, the same
    behaviour every time. *)
Context {App : Type}.
Variable onTranscript : string -> App -> App.

(** Whether the browser has [SpeechRecognition]. *)
Variable SpeechRecognition : bool.

Record Hook := {
  app : App;
  isListening : bool;
  (** [recognitionRef.current]: an index into [objects] *)
  recognitionRef : option nat;
  (** every recognition object the hook has created *)
  objects : list Recognition
}.

Definition initial (a : App) : Hook :=
  {| app := a; isListening := false; recognitionRef := None; objects := [] |}.

(** The body of the effect.  Its dependencies are [isListening] and
    [onTranscript]; as the callback is a new object at every render of
    the caller, React runs the effect after every render. *)
Definition useEffect (s : Hook) : Hook :=
  if SpeechRecognition then
    {| app := app s;
       isListening := isListening s;
       recognitionRef := Some (length (objects s));
       objects := objects s ++ [{| continuous := true;
                                   interimResults := true;
                                   onend_isListening := isListening s;
                                   capture := idle |}] |}
  else s.

Definition startListening (s : Hook) : Hook :=
  match recognitionRef s with
  | Some r =>
      if negb (isListening s) then
        match start r (objects s) with
        | Some objects' =>
            {| app := app s; isListening := true;
               recognitionRef := recognitionRef s; objects := objects' |}
        | None => s
        end
      else s
  | None => s
  end.

Definition stopListening (s : Hook) : Hook :=
  match recognitionRef s with
  | Some r =>
      if isListening s then
        {| app := app s; isListening := false;
           recognitionRef := recognitionRef s;
           objects := stop r (objects s) |}
      else s
  | None => s
  end.

(** [Array.from(event.results).map(r => r[0]).map(r => r.transcript).join('')] *)
Definition event_transcript (results : list SpeechRecognitionResult) : string :=
  Js.join EmptyString (map (fun result => transcript (best result)) results).

(** The engine fires [result] on the object [r] (which it does only
    while [r] has not ended): [recognition.onresult]. *)
Definition engine_result (r : nat) (results : list SpeechRecognitionResult)
           (s : Hook) : Hook :=
  match objects s !! r with
  | Some o =>
      match capture o with
      | idle => s
      | _ => {| app := onTranscript (event_transcript results) (app s);
                isListening := isListening s;
                recognitionRef := recognitionRef s;
                objects := objects s |}
      end
  | None => s
  end.

(** The engine ends the capture of [r], by itself or after [stop], and
    fires [end]: [recognition.onend]. *)
Definition engine_stop (r : nat) (s : Hook) : Hook :=
  match objects s !! r with
  | Some o =>
      match capture o with
      | idle => s
      | _ =>
          let ended := <[r := set_capture idle o]> (objects s) in
          let objects' :=
            if onend_isListening o
            then match start r ended with
                 | Some restarted => restarted
                 | None => ended
                 end
            else ended in
          {| app := app s; isListening := isListening s;
             recognitionRef := recognitionRef s; objects := objects' |}
      end
  | None => s
  end.

Inductive Event :=
| Render
| StartListening
| StopListening
| EngineResult (r : nat) (results : list SpeechRecognitionResult)
| EngineStop (r : nat).

Definition step (s : Hook) (e : Event) : Hook :=
  match e with
  | Render => useEffect s
  | StartListening => startListening s
  | StopListening => stopListening s
  | EngineResult r results => engine_result r results s
  | EngineStop r => engine_stop r s
  end.

Definition run (s : Hook) (trace : list Event) : Hook := fold_left step trace s.

(** Whether some recognition object is taking audio. *)
Definition capture_running (s : Hook) : bool :=
  existsb (fun o => match capture o with capturing => true | _ => false end)
          (objects s).

End Recognition.

End Speech.

(** ** What the chat panels share *)

Module Chat.

Import Js.

(** [prev.map(m => m.id === id ? { ...m, content } : m)] *)
Definition set_content (id content : string) (prev : list Message.t) : list Message.t :=
  map (fun m => if String.eqb (Message.id m) id
                then Message.with_content m content
                else m)
      prev.

(** [err instanceof Error ? err.message : fallback] *)
Definition error_text (fallback : string) (err : Thrown) : string :=
  match err with
  | Error message => message
  | NotAnError => fallback
  end.

(** What an [await]ed service call still has to deliver to the panel
    that called it: a rejection, or the chunks not yet yielded and the
    way the generator will end. *)
Inductive Pending :=
| rejected (e : Thrown)
| yielding (rest : list string) (failure : option Thrown).

Definition pending_of (r : Thrown + Gateway.ResponseStream) : Pending :=
  match r with
  | inl e => rejected e
  | inr s => yielding (Gateway.chunks s) (Gateway.failure s)
  end.

(** The locals of a suspended [handleSendMessage] once its placeholder
    turn is open. *)
Record Turn := {
  modelMessage_id : string;
  fullResponse : string;
  pending : Pending
}.

(** The typing indicator next to a message:
    [isLoading && msg.role === 'model' && messages[messages.length - 1].id === msg.id] *)
Definition typing_indicator (isLoading : bool) (messages : list Message.t)
           (msg : Message.t) : bool :=
  isLoading
  && match Message.role msg with model => true | user => false end
  && match last messages with
     | Some l => String.eqb (Message.id l) (Message.id msg)
     | None => false
     end.

End Chat.

(** ** [components/InterviewTrainer] *)

Module InterviewTrainer.

Import Js Chat.

Section Panel.

Variable apiKey : option string.
Variable remote : Gateway.Remote.
Variable SpeechRecognition : bool.
(** which instance of the hook this panel holds *)
Variable me : nat.

Record Fields := {
  messages : list Message.t;
  input : string;
  isLoading : bool;
  speakingMessageId : option string
}.

Definition setMessages (f : list Message.t -> list Message.t) (s : Fields) : Fields :=
  {| messages := f (messages s); input := input s;
     isLoading := isLoading s; speakingMessageId := speakingMessageId s |}.

Definition setInput (v : string) (s : Fields) : Fields :=
  {| messages := messages s; input := v;
     isLoading := isLoading s; speakingMessageId := speakingMessageId s |}.

Definition setIsLoading (b : bool) (s : Fields) : Fields :=
  {| messages := messages s; input := input s;
     isLoading := b; speakingMessageId := speakingMessageId s |}.

(** [useSpeech((transcript) => setInput(transcript))] *)
Definition onTranscript (transcript : string) : Fields -> Fields := setInput transcript.

Record State := {
  hook : Speech.Hook (App := Fields);
  synth : Speech.Synth;
  (** the calls of [handleSendMessage] that are suspended at an [await] *)
  running : list Turn
}.

Definition fields (st : State) : Fields := Speech.app (hook st).

Definition update (f : Fields -> Fields) (st : State) : State :=
  {| hook := {| Speech.app := f (fields st);
                Speech.isListening := Speech.isListening (hook st);
                Speech.recognitionRef := Speech.recognitionRef (hook st);
                Speech.objects := Speech.objects (hook st) |};
     synth := synth st;
     running := running st |}.

Definition set_running (r : list Turn) (st : State) : State :=
  {| hook := hook st; synth := synth st; running := r |}.

Definition greeting : string :=
  "Hello! I'm EduLearn, your AI Interview Coach. I can help you with theory questions, resume reviews, or behavioral questions. What would you like to focus on today?".

(** The first render and its effects, at clock reading [now]. *)
Definition mount (now : N) (page : Speech.Synth) : State :=
  {| hook :=
       Speech.useEffect SpeechRecognition
         (Speech.initial
            {| messages :=
                 [Message.mk ("msg-init-" +:+ number_to_string now) model greeting None];
               input := EmptyString;
               isLoading := false;
               speakingMessageId := None |});
     synth := page;
     running := [] |}.

(** [handleSendMessage], up to its first [await].  [now1] and [now2]
    are the two readings of [Date.now()]. *)
Definition handleSendMessage (now1 now2 : N) (st : State) : State :=
  if blank (input (fields st)) || isLoading (fields st) then st else
  let hook1 :=
    if Speech.isListening (hook st) then Speech.stopListening (hook st) else hook st in
  let synth1 := Speech.cancelSpeech me (synth st) in
  let userMessage :=
    Message.mk ("msg-" +:+ number_to_string now1) user (input (fields st)) None in
  let modelMessage :=
    Message.mk ("msg-" +:+ number_to_string now2 +:+ "-model") model EmptyString None in
  let call :=
    Gateway.startInterviewChat apiKey (messages (fields st)) (input (fields st)) in
  update
    (fun s => setIsLoading true
                (setInput EmptyString
                   (setMessages (fun prev => prev ++ [userMessage; modelMessage]) s)))
    {| hook := hook1;
       synth := synth1;
       running := running st ++
                  [{| modelMessage_id := Message.id modelMessage;
                      fullResponse := EmptyString;
                      pending := pending_of (Gateway.run remote call) |}] |}.

(** The [catch] block, then [finally]. *)
Definition on_error (k : nat) (t : Turn) (err : Thrown) (st : State) : State :=
  let errorContent := error_text "Sorry, an unknown error occurred." err in
  set_running (delete k (running st))
    (update (fun s =>
               setIsLoading false
                 (setMessages
                    (set_content (modelMessage_id t) ("**Error:** " +:+ errorContent)) s))
            st).

(** The suspended call number [k] is resumed by what it awaits. *)
Definition resume (k : nat) (st : State) : State :=
  match running st !! k with
  | None => st
  | Some t =>
      match pending t with
      | rejected err => on_error k t err st
      | yielding (chunk :: rest) failure =>
          let fullResponse' := fullResponse t +:+ chunk in
          set_running
            (<[k := {| modelMessage_id := modelMessage_id t;
                       fullResponse := fullResponse';
                       pending := yielding rest failure |}]> (running st))
            (update (setMessages (set_content (modelMessage_id t) fullResponse')) st)
      | yielding [] (Some err) => on_error k t err st
      | yielding [] None =>
          set_running (delete k (running st)) (update (setIsLoading false) st)
      end
  end.

(** [disabled] of the send button, and of the text area. *)
Definition send_disabled (st : State) : bool :=
  isLoading (fields st) || blank (input (fields st)).
Definition textarea_disabled (st : State) : bool := isLoading (fields st).

(** What can happen to the panel: the user clicks send, presses Enter or
    edits the text; something happens to the panel's instance of the hook
    (a render, the microphone button, an event of the recognition engine);
    something happens to the page's synthesis queue (this or another
    component speaks or cancels, the engine fires an event); a suspended
    call is resumed. *)
Inductive Event :=
| ClickSend (now1 now2 : N)
| PressEnter (now1 now2 : N)
| Change (value : string)
| Hook (e : Speech.Event)
| Page (e : Speech.SynthEvent)
| Resume (k : nat).

(** The browser delivers no click to a disabled button and no key to a
    disabled text area. *)
Definition step (st : State) (e : Event) : State :=
  match e with
  | ClickSend now1 now2 =>
      if send_disabled st then st else handleSendMessage now1 now2 st
  | PressEnter now1 now2 =>
      if textarea_disabled st then st else handleSendMessage now1 now2 st
  | Change value =>
      if textarea_disabled st then st else update (setInput value) st
  | Hook e =>
      {| hook := Speech.step onTranscript SpeechRecognition (hook st) e;
         synth := synth st;
         running := running st |}
  | Page e =>
      {| hook := hook st;
         synth := Speech.synth_step (synth st) e;
         running := running st |}
  | Resume k => resume k st
  end.

Definition run (st : State) (trace : list Event) : State := fold_left step trace st.

End Panel.

End InterviewTrainer.

(** ** [components/Explainer] and its [ChatInput] *)

Module File.
(** A browser [File]; its bytes are reached through [readFileAsBase64]. *)
Record t := mk { name : string; type : string; blob : nat }.
End File.

Module ChatInput.

Record Fields := {
  text : string;
  selectedFile : option File.t;
  searchInNotes : bool
}.

Definition setText (v : string) (s : Fields) : Fields :=
  {| text := v; selectedFile := selectedFile s; searchInNotes := searchInNotes s |}.

Definition setSelectedFile (f : option File.t) (s : Fields) : Fields :=
  {| text := text s; selectedFile := f; searchInNotes := searchInNotes s |}.

Definition setSearchInNotes (b : bool) (s : Fields) : Fields :=
  {| text := text s; selectedFile := selectedFile s; searchInNotes := b |}.

(** [useSpeech((transcript) => { setText(transcript); })] *)
Definition onTranscript (transcript : string) : Fields -> Fields := setText transcript.

(** The component: its fields and its instance of the hook. *)
Definition State := Speech.Hook (App := Fields).

Definition update (f : Fields -> Fields) (c : State) : State :=
  {| Speech.app := f (Speech.app c);
     Speech.isListening := Speech.isListening c;
     Speech.recognitionRef := Speech.recognitionRef c;
     Speech.objects := Speech.objects c |}.

(** What [handleSend] does to the component itself once the guard has
    passed and [onSendMessage] was called. *)
Definition after_send (c : State) : State :=
  let c1 := update (fun s => setSelectedFile None (setText EmptyString s)) c in
  if Speech.isListening c1 then Speech.stopListening c1 else c1.

(** The guard of [handleSend]: [(text.trim() || selectedFile) && !isLoading] *)
Definition may_send (isLoading : bool) (c : State) : bool :=
  (negb (Js.blank (text (Speech.app c)))
   || match selectedFile (Speech.app c) with Some _ => true | None => false end)
  && negb isLoading.

(** [disabled] of the send button: [isLoading || (!text.trim() && !selectedFile)] *)
Definition send_disabled (isLoading : bool) (c : State) : bool :=
  isLoading
  || (Js.blank (text (Speech.app c))
      && match selectedFile (Speech.app c) with Some _ => false | None => true end).

End ChatInput.

Module Explainer.

Import Js Chat.

Section Panel.

Variable apiKey : option string.
Variable remote : Gateway.Remote.
Variable SpeechRecognition : bool.
Variable me : nat.

(** [utils/fileUtils] is not among the sources: the read of a file
    resolves to its base64 text or rejects. *)
Variable readFileAsBase64 : File.t -> Thrown + string.

(** A suspended call of [handleSendMessage]: waiting for the file, with
    what its closure holds, or waiting for the stream. *)
Inductive Call :=
| reading (text : string) (file : File.t) (searchNotes : bool)
          (messages : list Message.t) (notes : list Note.t) (now1 now2 : N)
| streaming (t : Turn).

Record State := {
  messages : list Message.t;
  isLoading : bool;
  (** [useLocalStorage('class-notes', [])] *)
  notes : list Note.t;
  speakingMessageId : option string;
  synth : Speech.Synth;
  chatInput : ChatInput.State;
  running : list Call
}.

Definition setMessages (f : list Message.t -> list Message.t) (st : State) : State :=
  {| messages := f (messages st); isLoading := isLoading st; notes := notes st;
     speakingMessageId := speakingMessageId st; synth := synth st;
     chatInput := chatInput st; running := running st |}.

Definition setIsLoading (b : bool) (st : State) : State :=
  {| messages := messages st; isLoading := b; notes := notes st;
     speakingMessageId := speakingMessageId st; synth := synth st;
     chatInput := chatInput st; running := running st |}.

Definition set_synth (y : Speech.Synth) (st : State) : State :=
  {| messages := messages st; isLoading := isLoading st; notes := notes st;
     speakingMessageId := speakingMessageId st; synth := y;
     chatInput := chatInput st; running := running st |}.

Definition set_chatInput (c : ChatInput.State) (st : State) : State :=
  {| messages := messages st; isLoading := isLoading st; notes := notes st;
     speakingMessageId := speakingMessageId st; synth := synth st;
     chatInput := c; running := running st |}.

Definition set_running (r : list Call) (st : State) : State :=
  {| messages := messages st; isLoading := isLoading st; notes := notes st;
     speakingMessageId := speakingMessageId st; synth := synth st;
     chatInput := chatInput st; running := r |}.

Definition mount (stored : list Note.t) (page : Speech.Synth) : State :=
  {| messages := []; isLoading := false; notes := stored;
     speakingMessageId := None; synth := page;
     chatInput :=
       Speech.useEffect SpeechRecognition
         (Speech.initial {| ChatInput.text := EmptyString;
                            ChatInput.selectedFile := None;
                            ChatInput.searchInNotes := false |});
     running := [] |}.

(** [handleSendMessage] from the creation of the two messages to the
    [await] of the service call: the state with the turns appended, and
    the locals of the call.  [history] and [stored] are the [messages]
    and [notes] its closure holds. *)
Definition open_turn (text : string) (file : option File.t)
           (fileData : option (string * string)) (searchNotes : bool)
           (history : list Message.t) (stored : list Note.t) (now1 now2 : N)
           (st : State) : State * Turn :=
  let userMessage :=
    Message.mk ("msg-" +:+ number_to_string now1) user text
               (match file with
                | Some f => Some (FileInfo.mk (File.name f) (File.type f))
                | None => None
                end) in
  let modelMessage :=
    Message.mk ("msg-" +:+ number_to_string now2 +:+ "-model") model EmptyString None in
  let notesToSearch := if searchNotes then Some stored else None in
  let call := Gateway.generateExplanationStream apiKey history text fileData notesToSearch in
  (setMessages (fun prev => prev ++ [userMessage; modelMessage]) st,
   {| modelMessage_id := Message.id modelMessage;
      fullResponse := EmptyString;
      pending := pending_of (Gateway.run remote call) |}).

(** [handleSendMessage], up to its first [await]. *)
Definition handleSendMessage (text : string) (file : option File.t) (searchNotes : bool)
           (now1 now2 : N) (st : State) : State :=
  let st1 := set_synth (Speech.cancelSpeech me (synth st)) (setIsLoading true st) in
  match file with
  | Some f =>
      set_running
        (running st1 ++ [reading text f searchNotes (messages st) (notes st) now1 now2])
        st1
  | None =>
      let (st2, t) :=
        open_turn text None None searchNotes (messages st) (notes st) now1 now2 st1 in
      set_running (running st2 ++ [streaming t]) st2
  end.

Definition on_error (k : nat) (t : Turn) (err : Thrown) (st : State) : State :=
  let errorContent := error_text "Sorry, an unknown error occurred." err in
  set_running (delete k (running st))
    (setIsLoading false
       (setMessages
          (set_content (modelMessage_id t) ("**Error:** " +:+ errorContent)) st)).

Definition resume (k : nat) (st : State) : State :=
  match running st !! k with
  | None => st
  | Some (reading text f searchNotes history stored now1 now2) =>
      match readFileAsBase64 f with
      | inl _ =>
          (* the read is awaited outside the [try]: the call ends here *)
          set_running (delete k (running st)) st
      | inr base64Data =>
          let (st1, t) :=
            open_turn text (Some f) (Some (base64Data, File.type f)) searchNotes
                      history stored now1 now2 st in
          set_running (<[k := streaming t]> (running st1)) st1
      end
  | Some (streaming t) =>
      match pending t with
      | rejected err => on_error k t err st
      | yielding (chunk :: rest) failure =>
          let fullResponse' := fullResponse t +:+ chunk in
          set_running
            (<[k := streaming {| modelMessage_id := modelMessage_id t;
                                  fullResponse := fullResponse';
                                  pending := yielding rest failure |}]> (running st))
            (setMessages (set_content (modelMessage_id t) fullResponse') st)
      | yielding [] (Some err) => on_error k t err st
      | yielding [] None =>
          set_running (delete k (running st)) (setIsLoading false st)
      end
  end.

(** [ChatInput.handleSend], with [onSendMessage] bound to the panel's
    [handleSendMessage] and [isLoading] to the panel's state. *)
Definition handleSend (now1 now2 : N) (st : State) : State :=
  let c := chatInput st in
  if ChatInput.may_send (isLoading st) c then
    let st1 :=
      handleSendMessage (ChatInput.text (Speech.app c))
                        (ChatInput.selectedFile (Speech.app c))
                        (ChatInput.searchInNotes (Speech.app c))
                        now1 now2 st in
    set_chatInput (ChatInput.after_send c) st1
  else st.

Inductive Event :=
| ClickSend (now1 now2 : N)
| PressEnter (now1 now2 : N)
| Change (value : string)
| SelectFile (f : File.t)
| ToggleNotes
| Input (e : Speech.Event)
| Page (e : Speech.SynthEvent)
| Resume (k : nat).

Definition step (st : State) (e : Event) : State :=
  match e with
  | ClickSend now1 now2 =>
      if ChatInput.send_disabled (isLoading st) (chatInput st) then st
      else handleSend now1 now2 st
  | PressEnter now1 now2 =>
      if isLoading st then st else handleSend now1 now2 st
  | Change value =>
      if isLoading st then st
      else set_chatInput (ChatInput.update (ChatInput.setText value) (chatInput st)) st
  | SelectFile f =>
      set_chatInput (ChatInput.update (ChatInput.setSelectedFile (Some f)) (chatInput st)) st
  | ToggleNotes =>
      set_chatInput
        (ChatInput.update
           (fun s => ChatInput.setSearchInNotes (negb (ChatInput.searchInNotes s)) s)
           (chatInput st))
        st
  | Input e =>
      set_chatInput
        (Speech.step ChatInput.onTranscript SpeechRecognition (chatInput st) e) st
  | Page e => set_synth (Speech.synth_step (synth st) e) st
  | Resume k => resume k st
  end.

Definition run (st : State) (trace : list Event) : State := fold_left step trace st.

(** The turns that a suspended call is still filling. *)
Definition open_turns (st : State) : list Turn :=
  omap (fun c => match c with streaming t => Some t | reading _ _ _ _ _ _ _ => None end)
       (running st).

End Panel.

End Explainer.

(** ** [components/CodeGenerator] *)

Module CodeGenerator.

Import Js Chat.

Section Panel.

Variable apiKey : option string.
Variable remote : Gateway.Remote.
Variable me : nat.

(** The locals of a suspended [handleGenerate]. *)
Record Generation := {
  fullResponse : string;
  pending : Pending
}.

Record State := {
  prompt : string;
  language : string;
  generatedCode : string;
  isLoading : bool;
  error : string;
  synth : Speech.Synth;
  running : list Generation
}.

Definition setGeneratedCode (v : string) (st : State) : State :=
  {| prompt := prompt st; language := language st; generatedCode := v;
     isLoading := isLoading st; error := error st; synth := synth st;
     running := running st |}.

Definition setIsLoading (b : bool) (st : State) : State :=
  {| prompt := prompt st; language := language st; generatedCode := generatedCode st;
     isLoading := b; error := error st; synth := synth st;
     running := running st |}.

Definition setError (v : string) (st : State) : State :=
  {| prompt := prompt st; language := language st; generatedCode := generatedCode st;
     isLoading := isLoading st; error := v; synth := synth st;
     running := running st |}.

Definition set_synth (y : Speech.Synth) (st : State) : State :=
  {| prompt := prompt st; language := language st; generatedCode := generatedCode st;
     isLoading := isLoading st; error := error st; synth := y;
     running := running st |}.

Definition set_running (r : list Generation) (st : State) : State :=
  {| prompt := prompt st; language := language st; generatedCode := generatedCode st;
     isLoading := isLoading st; error := error st; synth := synth st;
     running := r |}.

Definition mount (page : Speech.Synth) : State :=
  {| prompt := EmptyString; language := "python"; generatedCode := EmptyString;
     isLoading := false; error := EmptyString; synth := page; running := [] |}.

(** [handleGenerate], up to its first [await]. *)
Definition handleGenerate (st : State) : State :=
  if blank (prompt st)
  then setError "Please enter a description of the code you want." st
  else
    let st1 :=
      set_synth (Speech.cancelSpeech me (synth st))
        (setGeneratedCode EmptyString (setError EmptyString (setIsLoading true st))) in
    let call := Gateway.generateCodeSnippetStream apiKey (prompt st) (language st) in
    set_running
      (running st1 ++ [{| fullResponse := EmptyString;
                          pending := pending_of (Gateway.run remote call) |}])
      st1.

Definition on_error (k : nat) (err : Thrown) (st : State) : State :=
  let errorMessage := error_text "An unknown error occurred." err in
  set_running (delete k (running st))
    (setIsLoading false (setError ("Failed to generate code: " +:+ errorMessage) st)).

Definition resume (k : nat) (st : State) : State :=
  match running st !! k with
  | None => st
  | Some g =>
      match pending g with
      | rejected err => on_error k err st
      | yielding (chunk :: rest) failure =>
          let fullResponse' := fullResponse g +:+ chunk in
          set_running
            (<[k := {| fullResponse := fullResponse';
                       pending := yielding rest failure |}]> (running st))
            (setGeneratedCode fullResponse' st)
      | yielding [] (Some err) => on_error k err st
      | yielding [] None =>
          set_running (delete k (running st)) (setIsLoading false st)
      end
  end.

Definition setPrompt (v : string) (st : State) : State :=
  {| prompt := v; language := language st; generatedCode := generatedCode st;
     isLoading := isLoading st; error := error st; synth := synth st;
     running := running st |}.

Definition setLanguage (v : string) (st : State) : State :=
  {| prompt := prompt st; language := v; generatedCode := generatedCode st;
     isLoading := isLoading st; error := error st; synth := synth st;
     running := running st |}.

Inductive Event :=
| ClickGenerate
| ChangePrompt (value : string)
| ChangeLanguage (value : string)
| Resume (k : nat).

(** The button and the prompt are [disabled={isLoading}]. *)
Definition step (st : State) (e : Event) : State :=
  match e with
  | ClickGenerate => if isLoading st then st else handleGenerate st
  | ChangePrompt value => if isLoading st then st else setPrompt value st
  | ChangeLanguage value => setLanguage value st
  | Resume k => resume k st
  end.

Definition run (st : State) (trace : list Event) : State := fold_left step trace st.

End Panel.

End CodeGenerator.

(** ** The vocabulary of the properties *)

Module GatewayProps.

Import Js Gateway.

(** A parsed value has the declared shape: a string where the schema says
    [STRING], an array of conforming items where it says [ARRAY], an
    object that has every required property, each declared property it
    has being of its declared shape, where it says [OBJECT]. *)
Fixpoint conforms (s : Schema) (v : Json.json) : bool :=
  match s, v with
  | STRING _, Json.JString _ => true
  | ARRAY items _, Json.JArray xs => forallb (conforms items) xs
  | OBJECT properties required, Json.JObject fields =>
      forallb (fun k => match Json.get (Js.code_units k) fields with
                        | Some _ => true
                        | None => false
                        end)
              required
      && forallb (fun p => match Json.get (Js.code_units (fst p)) fields with
                           | Some x => conforms (snd p) x
                           | None => true
                           end)
                 properties
  | _, _ => false
  end.

(** The structured operations of the service. *)
Inductive Structured :=
| quiz (topic : string)
| skill_feedback (goal : SkillGoal.t)
| project_ideas (interests : string)
| debug (code : string)
| website (prompt : string).

Definition call (apiKey : option string) (op : Structured) : Gateway Json.json :=
  match op with
  | quiz topic => generateQuiz apiKey topic
  | skill_feedback goal => getSkillFeedback apiKey goal
  | project_ideas interests => getProjectIdeas apiKey interests
  | debug code => debugCode apiKey code
  | website prompt => generateWebsiteCode apiKey prompt
  end.

Definition schema_of (op : Structured) : Schema :=
  match op with
  | quiz _ => quizSchema
  | skill_feedback _ => skillFeedbackSchema
  | project_ideas _ => projectIdeaSchema
  | debug _ => codeDebugSchema
  | website _ => websiteCodeSchema
  end.

Definition invalid_of (op : Structured) : string :=
  match op with
  | quiz _ => quiz_invalid
  | skill_feedback _ => feedback_invalid
  | project_ideas _ => idea_invalid
  | debug _ => debug_invalid
  | website _ => code_invalid
  end.

(** A reply is malformed for a schema: it is not JSON, or it is JSON of
    another shape. *)
Definition malformed (s : Schema) (raw : string) : Prop :=
  match Json.parse (Js.trim (Js.code_units raw)) with
  | None => True
  | Some v => conforms s v = false
  end.

(** JSON source text written with ['] for the double quote. *)
Definition source (s : string) : string :=
  string_of_list_ascii
    (map (fun c => if Ascii.eqb c "039"%char then "034"%char else c)
         (list_ascii_of_string s)).

(** Every operation of the service, with its arguments. *)
Inductive Operation : Type -> Type :=
| op_generateExplanationStream
    (history : list Message.t) (newMessage : string)
    (file : option (string * string)) (notes : option (list Note.t))
  : Operation ResponseStream
| op_summarizeText (textToSummarize : string) (file : option (string * string))
  : Operation (option string)
| op_generateQuiz (topic : string) : Operation Json.json
| op_generateImages (prompt : string) (numberOfImages : Z) (aspectRatio : AspectRatio)
  : Operation (list string)
| op_getSkillFeedback (goal : SkillGoal.t) : Operation Json.json
| op_getProjectIdeas (interests : string) : Operation Json.json
| op_debugCode (code : string) : Operation Json.json
| op_startInterviewChat (history : list Message.t) (newMessage : string)
  : Operation ResponseStream
| op_generateCodeSnippetStream (prompt language : string) : Operation ResponseStream
| op_generateWebsiteCode (prompt : string) : Operation Json.json.

Definition invoke (apiKey : option string) {A} (op : Operation A) : Gateway A :=
  match op with
  | op_generateExplanationStream history newMessage file notes =>
      generateExplanationStream apiKey history newMessage file notes
  | op_summarizeText textToSummarize file => summarizeText apiKey textToSummarize file
  | op_generateQuiz topic => generateQuiz apiKey topic
  | op_generateImages prompt numberOfImages aspectRatio =>
      generateImages apiKey prompt numberOfImages aspectRatio
  | op_getSkillFeedback goal => getSkillFeedback apiKey goal
  | op_getProjectIdeas interests => getProjectIdeas apiKey interests
  | op_debugCode code => debugCode apiKey code
  | op_startInterviewChat history newMessage => startInterviewChat apiKey history newMessage
  | op_generateCodeSnippetStream prompt language =>
      generateCodeSnippetStream apiKey prompt language
  | op_generateWebsiteCode prompt => generateWebsiteCode apiKey prompt
  end.

(** A transport that answers every [generateContent] with the text
    [raw], and rejects the other requests. *)
Definition replying (raw : string) : Remote :=
  fun R r =>
    match r in Request R return Thrown + R with
    | models_generateContent _ _ _ _ => inr {| text := Some raw |}
    | _ => inl NotAnError
    end.

(** A transport that answers every [generateContent] with a reply that
    carries no text, and rejects the other requests. *)
Definition replying_nothing : Remote :=
  fun R r =>
    match r in Request R return Thrown + R with
    | models_generateContent _ _ _ _ => inr {| text := None |}
    | _ => inl NotAnError
    end.

(** A transport whose stream requests resolve to a generator that yields
    [fragments] and then ends as [failure] says; other requests are
    rejected. *)
Definition streams (fragments : list string) (failure : option Thrown) : Remote :=
  fun R r =>
    match r in Request R return Thrown + R with
    | models_generateContentStream _ _ | chat_sendMessageStream _ _ =>
        inr {| chunks := fragments; failure := failure |}
    | _ => inl NotAnError
    end.

(** A transport that rejects every request with [err]. *)
Definition rejecting (err : Thrown) : Remote := fun R r => inl err.

(** The labelled block the explainer builds from notes and question. *)
Definition notes_block (notes question : string) : string :=
  "[My Notes]" +:+ Js.nl +:+ notes +:+ Js.nl +:+ Js.nl +:+
  "[My Question]" +:+ Js.nl +:+ question.

End GatewayProps.

Module SpeechProps.

Import Speech.

(** The utterance the engine is speaking, if any: the head of the queue
    once it has started. *)
Definition spoken (s : Synth) : option Utterance :=
  match speechSynthesis s with
  | Some {| queue := u :: _; playing := true |} => Some u
  | _ => None
  end.

(** The [isSpeaking] states agree with the engine: an instance of the hook
    says it is speaking only while an utterance of its own is the one
    being spoken. *)
Definition consistent (s : Synth) : Prop :=
  forall h, h ∈ speaking s -> exists u, spoken s = Some u /\ owner u = h.

(** A hook that says it listens has a recognition object. *)
Definition coherent {App : Type} (s : Hook (App := App)) : Prop :=
  isListening s = true -> is_Some (recognitionRef s).

(** Utterances made from some moment on carry the tokens from that moment
    on, and no older utterance comes back into the queue. *)
Definition tokens_from (n : nat) (s : Synth) : Prop :=
  n <= created s /\ forall u, u ∈ active s -> n <= token u.

Definition heard (text : string) (final : bool) : SpeechRecognitionResult :=
  {| isFinal := final; best := {| transcript := text |}; others := [] |}.

Definition no_input : ChatInput.Fields :=
  {| ChatInput.text := EmptyString;
     ChatInput.selectedFile := None;
     ChatInput.searchInNotes := false |}.

End SpeechProps.

Module PanelProps.

(** In the interview panel a call in flight and the loading flag go
    together, and there is at most one such call. *)
Definition interview_inv (st : InterviewTrainer.State) : Prop :=
  (InterviewTrainer.running st = []
   /\ InterviewTrainer.isLoading (InterviewTrainer.fields st) = false)
  \/ (exists t, InterviewTrainer.running st = [t]
                /\ InterviewTrainer.isLoading (InterviewTrainer.fields st) = true).

(** In the explainer there is at most one call in flight, and while there
    is one the panel is loading. *)
Definition explainer_inv (st : Explainer.State) : Prop :=
  Explainer.running st = []
  \/ (exists c, Explainer.running st = [c] /\ Explainer.isLoading st = true).



Definition fileInfo_of (file : option File.t) : option FileInfo.t :=
  match file with
  | Some f => Some (FileInfo.mk (File.name f) (File.type f))
  | None => None
  end.




(** One call is in flight and fills the turn [id]: the panel is loading,
    the turn is the last message and holds the buffer [acc], and [p] is
    what the call still waits for. *)
Definition interview_filling (st : InterviewTrainer.State)
           (id acc : string) (p : Chat.Pending) : Prop :=
  InterviewTrainer.running st
  = [{| Chat.modelMessage_id := id; Chat.fullResponse := acc; Chat.pending := p |}]
  /\ last (InterviewTrainer.messages (InterviewTrainer.fields st))
     = Some (Message.mk id model acc None)
  /\ InterviewTrainer.isLoading (InterviewTrainer.fields st) = true.





(** A file read that always gives [data], and one that always fails. *)
Definition reads (data : string) : File.t -> Js.Thrown + string := fun _ => inr data.
Definition unreadable : File.t -> Js.Thrown + string :=
  fun _ => inl (Js.Error "read failed").

End PanelProps.

(** ** [types.ts]: the records of the trackers and planners *)

(** [name] and [title] below are texts the program trims before it
    stores them: they are kept as code units. *)
Module Subject.
Record t := mk {
  id : string;
  name : list N;
  attended : Z;
  total : Z
}.
End Subject.

Module Reminder.
Record t := mk {
  id : string;
  title : list N;
  dueDate : string;
  completed : bool
}.
End Reminder.

Module Project.
Record t := mk {
  id : string;
  name : string;
  description : string;
  team : string
}.
End Project.

Module ProjectTask.
Inductive TaskStatus := ToDo | InProgress | Done.
Record t := mk {
  id : string;
  projectId : string;
  title : string;
  assignedTo : string;
  status : TaskStatus
}.
End ProjectTask.

Module ProjectResource.
Inductive Kind := link | file.
Record t := mk {
  id : string;
  projectId : string;
  name : string;
  type : Kind;
  url : option string;
  fileContent : option string;
  fileName : option string;
  mimeType : option string
}.
End ProjectResource.

Module AIProjectIdea.
Record t := mk {
  title : string;
  description : string;
  keyFeatures : list string;
  techStack : list string;
  datasetSource : option string;
  architecture : option string;
  deploymentTips : option string
}.
End AIProjectIdea.

(** ** [components/Reminders] *)

Module Reminders.

Import Js.

Record State := {
  (** [useLocalStorage('reminders', [])] *)
  reminders : list Reminder.t;
  newReminderTitle : list N;
  newReminderDate : string
}.

Definition mount (stored : list Reminder.t) : State :=
  {| reminders := stored; newReminderTitle := []; newReminderDate := EmptyString |}.

(** [addReminder], at clock reading [now]. *)
Definition addReminder (now : N) (st : State) : State :=
  match trim (newReminderTitle st) with
  | [] => st
  | c :: title =>
      if falsy (newReminderDate st) then st
      else
        let newReminder :=
          Reminder.mk ("rem-" +:+ number_to_string now) (c :: title)
                      (newReminderDate st) false in
        {| reminders := reminders st ++ [newReminder];
           newReminderTitle := [];
           newReminderDate := EmptyString |}
  end.

Definition setReminders (rs : list Reminder.t) (st : State) : State :=
  {| reminders := rs;
     newReminderTitle := newReminderTitle st;
     newReminderDate := newReminderDate st |}.

Definition toggleReminder (id : string) (st : State) : State :=
  setReminders
    (map (fun r => if String.eqb (Reminder.id r) id
                   then Reminder.mk (Reminder.id r) (Reminder.title r)
                                    (Reminder.dueDate r) (negb (Reminder.completed r))
                   else r)
         (reminders st))
    st.

Definition deleteReminder (id : string) (st : State) : State :=
  setReminders
    (List.filter (fun r => negb (String.eqb (Reminder.id r) id)) (reminders st))
    st.

Inductive Event :=
| ChangeTitle (value : list N)
| ChangeDate (value : string)
| Add (now : N)
| Toggle (id : string)
| Delete (id : string).

Definition step (st : State) (e : Event) : State :=
  match e with
  | ChangeTitle value =>
      {| reminders := reminders st; newReminderTitle := value;
         newReminderDate := newReminderDate st |}
  | ChangeDate value =>
      {| reminders := reminders st; newReminderTitle := newReminderTitle st;
         newReminderDate := value |}
  | Add now => addReminder now st
  | Toggle id => toggleReminder id st
  | Delete id => deleteReminder id st
  end.

Definition run (st : State) (trace : list Event) : State := fold_left step trace st.

End Reminders.

(** ** [components/AttendanceTracker] *)

Module AttendanceTracker.

Import Js.

#[local] Open Scope Z_scope.

(** [n + 1] on a JavaScript number that holds an integer between 0 and
    2^53: exact below 2^53; at 2^53 the sum is not a double and rounds
    back to 2^53. *)
Definition plus_one (n : Z) : Z := if n <? 2 ^ 53 then n + 1 else n.

Inductive AttendanceType := attended | missed.

Record State := {
  (** [useLocalStorage('attendance-subjects', [])] *)
  subjects : list Subject.t;
  newSubjectName : list N
}.

Definition mount (stored : list Subject.t) : State :=
  {| subjects := stored; newSubjectName := [] |}.

Definition addSubject (now : N) (st : State) : State :=
  match trim (newSubjectName st) with
  | [] => st
  | c :: name =>
      let newSubject :=
        Subject.mk ("subj-" +:+ number_to_string now) (c :: name) 0 0 in
      {| subjects := subjects st ++ [newSubject]; newSubjectName := [] |}
  end.

Definition updateAttendance (id : string) (type : AttendanceType) (st : State) : State :=
  {| subjects :=
       map (fun s =>
              if String.eqb (Subject.id s) id then
                let newTotal := plus_one (Subject.total s) in
                let newAttended :=
                  match type with
                  | attended => plus_one (Subject.attended s)
                  | missed => Subject.attended s
                  end in
                Subject.mk (Subject.id s) (Subject.name s) newAttended newTotal
              else s)
           (subjects st);
     newSubjectName := newSubjectName st |}.

(** [deleteSubject]; [confirm] is the answer to [window.confirm]. *)
Definition deleteSubject (id : string) (confirm : bool) (st : State) : State :=
  if confirm then
    {| subjects := List.filter (fun s => negb (String.eqb (Subject.id s) id)) (subjects st);
       newSubjectName := newSubjectName st |}
  else st.

Inductive Event :=
| ChangeName (value : list N)
| Add (now : N)
| Mark (id : string) (type : AttendanceType)
| Delete (id : string) (confirm : bool).

Definition step (st : State) (e : Event) : State :=
  match e with
  | ChangeName value => {| subjects := subjects st; newSubjectName := value |}
  | Add now => addSubject now st
  | Mark id type => updateAttendance id type st
  | Delete id confirm => deleteSubject id confirm st
  end.

Definition run (st : State) (trace : list Event) : State := fold_left step trace st.

End AttendanceTracker.

(** ** [components/ProjectPlanner] *)

Module ProjectPlanner.

Import Js.

Section Panel.

(** [utils/fileUtils] is not among the sources: the read of a file
    resolves to its base64 text or rejects. *)
Variable readFileAsBase64 : File.t -> Thrown + string.

(** [new URL(url).hostname] succeeds: the text is a URL. *)
Variable is_url : string -> bool.

(** A suspended [handleFileUpload]: the file it reads, and the
    [selectedProjectId] of the render whose handler it is. *)
Record Upload := {
  upload_file : File.t;
  upload_selectedProjectId : option string
}.

Record State := {
  (** [useLocalStorage('projects', [])] and its two companions *)
  projects : list Project.t;
  tasks : list ProjectTask.t;
  resources : list ProjectResource.t;
  selectedProjectId : option string;
  isIdeaModalOpen : bool;
  running : list Upload
}.

Definition mount : State :=
  {| projects := []; tasks := []; resources := [];
     selectedProjectId := None; isIdeaModalOpen := false; running := [] |}.

Definition setProjects (f : list Project.t -> list Project.t) (st : State) : State :=
  {| projects := f (projects st); tasks := tasks st; resources := resources st;
     selectedProjectId := selectedProjectId st;
     isIdeaModalOpen := isIdeaModalOpen st; running := running st |}.

Definition setTasks (f : list ProjectTask.t -> list ProjectTask.t) (st : State) : State :=
  {| projects := projects st; tasks := f (tasks st); resources := resources st;
     selectedProjectId := selectedProjectId st;
     isIdeaModalOpen := isIdeaModalOpen st; running := running st |}.

Definition setResources (f : list ProjectResource.t -> list ProjectResource.t)
           (st : State) : State :=
  {| projects := projects st; tasks := tasks st; resources := f (resources st);
     selectedProjectId := selectedProjectId st;
     isIdeaModalOpen := isIdeaModalOpen st; running := running st |}.

Definition setSelectedProjectId (v : option string) (st : State) : State :=
  {| projects := projects st; tasks := tasks st; resources := resources st;
     selectedProjectId := v;
     isIdeaModalOpen := isIdeaModalOpen st; running := running st |}.

Definition setIdeaModalOpen (b : bool) (st : State) : State :=
  {| projects := projects st; tasks := tasks st; resources := resources st;
     selectedProjectId := selectedProjectId st;
     isIdeaModalOpen := b; running := running st |}.

Definition set_running (r : list Upload) (st : State) : State :=
  {| projects := projects st; tasks := tasks st; resources := resources st;
     selectedProjectId := selectedProjectId st;
     isIdeaModalOpen := isIdeaModalOpen st; running := r |}.

(** [a || b] on strings *)
Definition or_else (a b : string) : string := if falsy a then b else a.

Definition handleAddProject (idea : option AIProjectIdea.t) (now : N) (st : State) : State :=
  let newProject :=
    Project.mk ("proj-" +:+ number_to_string now)
               (match idea with
                | Some i => or_else (AIProjectIdea.title i) "New Project"
                | None => "New Project"
                end)
               (match idea with
                | Some i => or_else (AIProjectIdea.description i) "Project description here."
                | None => "Project description here."
                end)
               EmptyString in
  setSelectedProjectId (Some (Project.id newProject))
    (setProjects (fun prev => newProject :: prev) st).

(** The fields of a project that the panel edits. *)
Inductive ProjectField := project_name | project_description | project_team.

Definition handleUpdateProject (id : string) (field : ProjectField) (value : string)
           (st : State) : State :=
  setProjects
    (map (fun p =>
            if String.eqb (Project.id p) id then
              match field with
              | project_name =>
                  Project.mk (Project.id p) value (Project.description p) (Project.team p)
              | project_description =>
                  Project.mk (Project.id p) (Project.name p) value (Project.team p)
              | project_team =>
                  Project.mk (Project.id p) (Project.name p) (Project.description p) value
              end
            else p))
    st.

(** [selectedProjectId === id] *)
Definition selected_is (id : string) (st : State) : bool :=
  match selectedProjectId st with
  | Some s => String.eqb s id
  | None => false
  end.

Definition handleDeleteProject (id : string) (confirm : bool) (st : State) : State :=
  if confirm then
    let st1 := setProjects (List.filter (fun p => negb (String.eqb (Project.id p) id))) st in
    let st2 :=
      setTasks (List.filter (fun t => negb (String.eqb (ProjectTask.projectId t) id))) st1 in
    let st3 :=
      setResources
        (List.filter (fun r => negb (String.eqb (ProjectResource.projectId r) id))) st2 in
    if selected_is id st then setSelectedProjectId None st3 else st3
  else st.

Definition handleUseIdea (idea : AIProjectIdea.t) (now : N) (st : State) : State :=
  setIdeaModalOpen false (handleAddProject (Some idea) now st).

(** [!selectedProjectId] fails: the value as a string. *)
Definition truthy_id (v : option string) : option string :=
  match v with
  | Some s => if falsy s then None else Some s
  | None => None
  end.

Definition handleAddTask (now : N) (st : State) : State :=
  match truthy_id (selectedProjectId st) with
  | None => st
  | Some selected =>
      let newTask :=
        ProjectTask.mk ("task-" +:+ number_to_string now) selected "New Task" EmptyString
                       ProjectTask.ToDo in
      setTasks (fun prev => prev ++ [newTask]) st
  end.

(** The edits of a task that the board makes. *)
Inductive TaskEdit :=
| task_title (value : string)
| task_assignedTo (value : string)
| task_status (value : ProjectTask.TaskStatus).

Definition handleUpdateTask (id : string) (edit : TaskEdit) (st : State) : State :=
  setTasks
    (map (fun t =>
            if String.eqb (ProjectTask.id t) id then
              match edit with
              | task_title value =>
                  ProjectTask.mk (ProjectTask.id t) (ProjectTask.projectId t) value
                                 (ProjectTask.assignedTo t) (ProjectTask.status t)
              | task_assignedTo value =>
                  ProjectTask.mk (ProjectTask.id t) (ProjectTask.projectId t)
                                 (ProjectTask.title t) value (ProjectTask.status t)
              | task_status value =>
                  ProjectTask.mk (ProjectTask.id t) (ProjectTask.projectId t)
                                 (ProjectTask.title t) (ProjectTask.assignedTo t) value
              end
            else t))
    st.

Definition handleDeleteTask (id : string) (st : State) : State :=
  setTasks (List.filter (fun t => negb (String.eqb (ProjectTask.id t) id))) st.

(** What [handleAddResource] is given: a resource without [id] and
    [projectId]. *)
Record NewResource := {
  new_name : string;
  new_type : ProjectResource.Kind;
  new_url : option string;
  new_fileContent : option string;
  new_fileName : option string;
  new_mimeType : option string
}.

(** [handleAddResource] of a render whose [selectedProjectId] is
    [selected]: the handler reads that value from its closure, and
    appends to the resources of the moment. *)
Definition handleAddResource (selected : option string) (newResource : NewResource)
           (now : N) (st : State) : State :=
  match truthy_id selected with
  | None => st
  | Some projectId =>
      let finalResource :=
        ProjectResource.mk ("res-" +:+ number_to_string now) projectId
                           (new_name newResource) (new_type newResource)
                           (new_url newResource) (new_fileContent newResource)
                           (new_fileName newResource) (new_mimeType newResource) in
      setResources (fun prev => prev ++ [finalResource]) st
  end.

(** [handleAddLink]; [url] and [name] are the answers to the two
    [window.prompt]s ([None] when the prompt is dismissed).  An answer
    that is not a URL makes [new URL] throw, and the handler ends. *)
Definition handleAddLink (url name : option string) (now : N) (st : State) : State :=
  match url with
  | Some u =>
      if falsy u then st
      else if is_url u then
        match name with
        | Some n =>
            if falsy n then st
            else handleAddResource (selectedProjectId st)
                   {| new_name := n; new_type := ProjectResource.link;
                      new_url := Some u; new_fileContent := None;
                      new_fileName := None; new_mimeType := None |}
                   now st
        | None => st
        end
      else st
  | None => st
  end.

(** [handleFileUpload], up to its [await]. *)
Definition handleFileUpload (file : option File.t) (st : State) : State :=
  match file with
  | Some f =>
      set_running
        (running st ++ [{| upload_file := f;
                           upload_selectedProjectId := selectedProjectId st |}])
        st
  | None => st
  end.

(** The suspended upload number [k] is resumed by the file read; [now]
    is the clock reading of that moment.  A failed read rejects the
    handler, which has no [catch]: nothing else happens. *)
Definition resume (k : nat) (now : N) (st : State) : State :=
  match running st !! k with
  | None => st
  | Some u =>
      let st1 := set_running (delete k (running st)) st in
      match readFileAsBase64 (upload_file u) with
      | inl _ => st1
      | inr fileContent =>
          handleAddResource (upload_selectedProjectId u)
            {| new_name := File.name (upload_file u);
               new_type := ProjectResource.file;
               new_url := None;
               new_fileContent := Some fileContent;
               new_fileName := Some (File.name (upload_file u));
               new_mimeType := Some (File.type (upload_file u)) |}
            now st1
      end
  end.

Definition handleDeleteResource (id : string) (st : State) : State :=
  setResources (List.filter (fun r => negb (String.eqb (ProjectResource.id r) id))) st.

(** [projects.find(p => p.id === selectedProjectId)] *)
Definition selectedProject (st : State) : option Project.t :=
  match selectedProjectId st with
  | Some s => List.find (fun p => String.eqb (Project.id p) s) (projects st)
  | None => None
  end.

Definition filteredTasks (st : State) : list ProjectTask.t :=
  List.filter (fun t => selected_is (ProjectTask.projectId t) st) (tasks st).

Definition filteredResources (st : State) : list ProjectResource.t :=
  List.filter (fun r => selected_is (ProjectResource.projectId r) st) (resources st).

(** What the user can do.  The rows of the list select a project that
    is in the list; the main pane, with its buttons, is there only while
    [selectedProject] is; the delete button deletes that project. *)
Inductive Event :=
| OpenIdeas
| CloseIdeas
| UseIdea (idea : AIProjectIdea.t) (now : N)
| AddProject (now : N)
| Select (row : nat)
| UpdateProject (field : ProjectField) (value : string)
| DeleteProject (confirm : bool)
| AddTask (now : N)
| UpdateTask (id : string) (edit : TaskEdit)
| DeleteTask (id : string)
| AddLink (url name : option string) (now : N)
| FileUpload (file : option File.t)
| DeleteResource (id : string)
| Resume (k : nat) (now : N).

Definition on_selected (f : Project.t -> State -> State) (st : State) : State :=
  match selectedProject st with
  | Some p => f p st
  | None => st
  end.

Definition step (st : State) (e : Event) : State :=
  match e with
  | OpenIdeas => setIdeaModalOpen true st
  | CloseIdeas => setIdeaModalOpen false st
  | UseIdea idea now => if isIdeaModalOpen st then handleUseIdea idea now st else st
  | AddProject now => handleAddProject None now st
  | Select row =>
      match projects st !! row with
      | Some p => setSelectedProjectId (Some (Project.id p)) st
      | None => st
      end
  | UpdateProject field value =>
      on_selected (fun p => handleUpdateProject (Project.id p) field value) st
  | DeleteProject confirm =>
      on_selected (fun p => handleDeleteProject (Project.id p) confirm) st
  | AddTask now => on_selected (fun _ => handleAddTask now) st
  | UpdateTask id edit => on_selected (fun _ => handleUpdateTask id edit) st
  | DeleteTask id => on_selected (fun _ => handleDeleteTask id) st
  | AddLink url name now => on_selected (fun _ => handleAddLink url name now) st
  | FileUpload file => on_selected (fun _ => handleFileUpload file) st
  | DeleteResource id => on_selected (fun _ => handleDeleteResource id) st
  | Resume k now => resume k now st
  end.

Definition run (st : State) (trace : list Event) : State := fold_left step trace st.

End Panel.

End ProjectPlanner.

(** ** [components/Summarizer] *)

Module Summarizer.

Import Js Chat.

Section Panel.

Variable apiKey : option string.
Variable remote : Gateway.Remote.
Variable me : nat.
Variable readFileAsBase64 : File.t -> Thrown + string.

(** [marked.parse(_, { gfm: true, breaks: true, async: false })] on a
    string: the library is not among the sources. *)
Variable marked_parse : string -> string.

(** A suspended [handleSummarize]: waiting for the file, with the text
    its closure holds, or waiting for the summary. *)
Inductive Call :=
| reading (inputText : string) (file : File.t)
| summarizing (result : Thrown + option string).

Record State := {
  inputText : string;
  (** a string, or [undefined] ([None]) once [summarizeText] has resolved
      to a reply without text *)
  summary : option string;
  selectedFile : option File.t;
  isLoading : bool;
  error : string;
  synth : Speech.Synth;
  running : list Call
}.

Definition setInputText (v : string) (st : State) : State :=
  {| inputText := v; summary := summary st; selectedFile := selectedFile st;
     isLoading := isLoading st; error := error st; synth := synth st;
     running := running st |}.

Definition setSummary (v : option string) (st : State) : State :=
  {| inputText := inputText st; summary := v; selectedFile := selectedFile st;
     isLoading := isLoading st; error := error st; synth := synth st;
     running := running st |}.

Definition setSelectedFile (v : option File.t) (st : State) : State :=
  {| inputText := inputText st; summary := summary st; selectedFile := v;
     isLoading := isLoading st; error := error st; synth := synth st;
     running := running st |}.

Definition setIsLoading (b : bool) (st : State) : State :=
  {| inputText := inputText st; summary := summary st; selectedFile := selectedFile st;
     isLoading := b; error := error st; synth := synth st;
     running := running st |}.

Definition setError (v : string) (st : State) : State :=
  {| inputText := inputText st; summary := summary st; selectedFile := selectedFile st;
     isLoading := isLoading st; error := v; synth := synth st;
     running := running st |}.

Definition set_synth (y : Speech.Synth) (st : State) : State :=
  {| inputText := inputText st; summary := summary st; selectedFile := selectedFile st;
     isLoading := isLoading st; error := error st; synth := y;
     running := running st |}.

Definition set_running (r : list Call) (st : State) : State :=
  {| inputText := inputText st; summary := summary st; selectedFile := selectedFile st;
     isLoading := isLoading st; error := error st; synth := synth st;
     running := r |}.

Definition mount (page : Speech.Synth) : State :=
  {| inputText := EmptyString; summary := Some EmptyString; selectedFile := None;
     isLoading := false; error := EmptyString; synth := page; running := [] |}.

(** [handleSummarize], up to its first [await]. *)
Definition handleSummarize (st : State) : State :=
  if blank (inputText st)
     && match selectedFile st with Some _ => false | None => true end
  then setError "Please enter some text or upload a file to summarize." st
  else
    let st1 :=
      set_synth (Speech.cancelSpeech me (synth st))
        (setSummary (Some EmptyString)
           (setError EmptyString (setIsLoading true st))) in
    match selectedFile st with
    | Some f => set_running (running st1 ++ [reading (inputText st) f]) st1
    | None =>
        let call := Gateway.summarizeText apiKey (inputText st) None in
        set_running (running st1 ++ [summarizing (Gateway.run remote call)]) st1
    end.

(** The suspended call number [k] is resumed by what it awaits. *)
Definition resume (k : nat) (st : State) : State :=
  match running st !! k with
  | None => st
  | Some (reading text f) =>
      match readFileAsBase64 f with
      | inl _ =>
          set_running (delete k (running st))
            (setIsLoading false (setError "Failed to read the uploaded file." st))
      | inr base64Data =>
          let call := Gateway.summarizeText apiKey text (Some (base64Data, File.type f)) in
          set_running (<[k := summarizing (Gateway.run remote call)]> (running st)) st
      end
  | Some (summarizing (inr result)) =>
      set_running (delete k (running st)) (setIsLoading false (setSummary result st))
  | Some (summarizing (inl err)) =>
      let errorMessage := error_text "An unknown error occurred." err in
      set_running (delete k (running st))
        (setIsLoading false
           (setError ("Failed to generate summary: " +:+ errorMessage) st))
  end.

Definition handleFileChange (file : option File.t) (st : State) : State :=
  match file with
  | Some f => setError EmptyString (setSelectedFile (Some f) st)
  | None => st
  end.

(** [speak(summary)]; [speak] returns at once when its argument is
    [undefined]. *)
Definition handleToggleSpeech (st : State) : State :=
  if Speech.isSpeaking me (synth st)
  then set_synth (Speech.cancelSpeech me (synth st)) st
  else match summary st with
       | Some text => set_synth (Speech.speak me text (synth st)) st
       | None => st
       end.

(** [renderedSummary], which every render computes: [None] is the error
    that [marked.parse] throws when its input is [undefined]; the render
    ends there and shows nothing. *)
Definition renderedSummary (st : State) : option string :=
  match summary st with
  | Some text => Some (marked_parse text)
  | None => None
  end.

(** [!summary] *)
Definition no_summary (st : State) : bool :=
  match summary st with
  | Some text => falsy text
  | None => true
  end.

(** The render has thrown: the panel is no longer on the page. *)
Definition crashed (st : State) : bool :=
  match summary st with
  | Some _ => false
  | None => true
  end.

(** The text area and the summarize button are [disabled={isLoading}];
    the speaker button is there while [summary && !isLoading].  None of
    them is there once the render has thrown. *)
Inductive Event :=
| ChangeText (value : string)
| FileChange (file : option File.t)
| ClickSummarize
| ToggleSpeech
| Page (e : Speech.SynthEvent)
| Resume (k : nat).

Definition step (st : State) (e : Event) : State :=
  match e with
  | ChangeText value => if crashed st || isLoading st then st else setInputText value st
  | FileChange file => if crashed st then st else handleFileChange file st
  | ClickSummarize => if crashed st || isLoading st then st else handleSummarize st
  | ToggleSpeech =>
      if no_summary st || isLoading st then st else handleToggleSpeech st
  | Page e => set_synth (Speech.synth_step (synth st) e) st
  | Resume k => resume k st
  end.

Definition run (st : State) (trace : list Event) : State := fold_left step trace st.

End Panel.

End Summarizer.

(** ** [AIIdeaModal] of [components/ProjectPlanner] *)

Module AIIdeaModal.

Import Js Chat.

Section Panel.

Variable apiKey : option string.
Variable remote : Gateway.Remote.
Variable me : nat.

Record State := {
  interests : string;
  (** what [getProjectIdeas] resolved to, as it was parsed *)
  ideas : Json.json;
  isLoading : bool;
  error : string;
  synth : Speech.Synth;
  (** the calls of [handleGenerate] suspended at their [await] *)
  running : list (Thrown + Json.json)
}.

Definition setInterests (v : string) (st : State) : State :=
  {| interests := v; ideas := ideas st; isLoading := isLoading st;
     error := error st; synth := synth st; running := running st |}.

Definition setIdeas (v : Json.json) (st : State) : State :=
  {| interests := interests st; ideas := v; isLoading := isLoading st;
     error := error st; synth := synth st; running := running st |}.

Definition setIsLoading (b : bool) (st : State) : State :=
  {| interests := interests st; ideas := ideas st; isLoading := b;
     error := error st; synth := synth st; running := running st |}.

Definition setError (v : string) (st : State) : State :=
  {| interests := interests st; ideas := ideas st; isLoading := isLoading st;
     error := v; synth := synth st; running := running st |}.

Definition set_synth (y : Speech.Synth) (st : State) : State :=
  {| interests := interests st; ideas := ideas st; isLoading := isLoading st;
     error := error st; synth := y; running := running st |}.

Definition set_running (r : list (Thrown + Json.json)) (st : State) : State :=
  {| interests := interests st; ideas := ideas st; isLoading := isLoading st;
     error := error st; synth := synth st; running := r |}.

Definition mount (page : Speech.Synth) : State :=
  {| interests := EmptyString; ideas := Json.JArray []; isLoading := false;
     error := EmptyString; synth := page; running := [] |}.

(** [handleGenerate], up to its [await]. *)
Definition handleGenerate (st : State) : State :=
  if blank (interests st) then setError "Please describe your interests." st
  else
    let st1 :=
      set_synth (Speech.cancelSpeech me (synth st))
        (setIdeas (Json.JArray []) (setError EmptyString (setIsLoading true st))) in
    let call := Gateway.getProjectIdeas apiKey (interests st) in
    set_running (running st1 ++ [Gateway.run remote call]) st1.

Definition resume (k : nat) (st : State) : State :=
  match running st !! k with
  | None => st
  | Some (inr result) =>
      set_running (delete k (running st)) (setIsLoading false (setIdeas result st))
  | Some (inl e) =>
      set_running (delete k (running st))
        (setIsLoading false (setError (error_text "Failed to get ideas." e) st))
  end.

(** [x.join(', ')]: the method of an array; anything else a reply can
    hold has no such method, and the call throws. *)
Definition joins (v : option Json.json) : bool :=
  match v with
  | Some (Json.JArray _) => true
  | _ => false
  end.

(** Whether the card of an idea renders: the title and the description
    are children, [idea.keyFeatures.join] and [idea.techStack.join] are
    called, and each of the three optional texts is a child, itself when
    it is falsy and inside its paragraph when it is not. *)
Definition idea_renders (idea : Json.json) : bool :=
  match idea with
  | Json.JObject fields =>
      let property name := Json.get (code_units name) fields in
      React.child (property "title")
      && React.child (property "description")
      && joins (property "keyFeatures")
      && joins (property "techStack")
      && React.child (property "datasetSource")
      && React.child (property "architecture")
      && React.child (property "deploymentTips")
  | _ => false
  end.

(** [ideas.map(...)]: whether the open dialog renders.  When it does not,
    the render throws and the dialog is no longer on the page. *)
Definition list_renders (st : State) : bool :=
  match ideas st with
  | Json.JArray xs => forallb idea_renders xs
  | _ => false
  end.

(** The generate button is [disabled={isLoading}]; the text field is
    not.  Both are there while the dialog renders. *)
Inductive Event :=
| ChangeInterests (value : string)
| ClickGenerate
| Page (e : Speech.SynthEvent)
| Resume (k : nat).

Definition step (st : State) (e : Event) : State :=
  match e with
  | ChangeInterests value => if list_renders st then setInterests value st else st
  | ClickGenerate =>
      if list_renders st && negb (isLoading st) then handleGenerate st else st
  | Page e => set_synth (Speech.synth_step (synth st) e) st
  | Resume k => resume k st
  end.

Definition run (st : State) (trace : list Event) : State := fold_left step trace st.

End Panel.

End AIIdeaModal.

(** ** [components/QuizGenerator]: taking a quiz *)

Module QuizGenerator.

Import Js.

(** A value as the panel meets it: [undefined] ([None]), or a value of
    the parsed reply. *)
Definition Value := option Json.json.

(** [v.name], for a value of the reply and a name that no prototype
    defines: a primitive or an array has no such property, and [None] is
    the [TypeError] of reading a property of [null]. *)
Definition property (name : string) (v : Json.json) : option Value :=
  match v with
  | Json.JNull => None
  | Json.JObject fields => Some (Json.get (code_units name) fields)
  | _ => Some None
  end.

(** Whether the card of a question renders: [{q.question}] is a child,
    [q.options.map] must be the method of an array, and every
    [{option}] is a child. *)
Definition question_renders (q : Json.json) : bool :=
  match q with
  | Json.JObject fields =>
      React.child (Json.get (code_units "question") fields)
      && match Json.get (code_units "options") fields with
         | Some (Json.JArray opts) => forallb React.renderable opts
         | _ => false
         end
  | _ => false
  end.

Section Panel.

Variable me : nat.

(** Whether two number lexemes of the reply denote the same number: the
    conversion from lexemes to numbers that [JSON.parse] makes is not
    modelled. *)
Variable same_number : list N -> list N -> bool.

(** [a === b] for two values that are not one and the same object, as a
    recorded answer (a member of a question's [options]) and a correct
    answer (a property of a question) are: an array or an object is
    strictly equal to itself only. *)
Definition strict_equal (a b : Value) : bool :=
  match a, b with
  | None, None => true
  | Some Json.JNull, Some Json.JNull => true
  | Some (Json.JBool x), Some (Json.JBool y) => Bool.eqb x y
  | Some (Json.JNumber x), Some (Json.JNumber y) => same_number x y
  | Some (Json.JString x), Some (Json.JString y) => bool_decide (x = y)
  | _, _ => false
  end.

Record State := {
  (** what [generateQuiz] resolved to, as it was parsed: nothing has
      checked that it is a list of questions *)
  questions : Json.json;
  (** [userAnswers]: the options chosen, by question index *)
  userAnswers : gmap nat Json.json;
  submitted : bool;
  score : nat;
  synth : Speech.Synth
}.

(** The panel once [handleGenerateQuiz] has stored a quiz: it has
    emptied the answers and reset [submitted] and [score] before. *)
Definition quiz_arrived (result : Json.json) (page : Speech.Synth) : State :=
  {| questions := result; userAnswers := ∅; submitted := false; score := 0;
     synth := page |}.

(** [questions.length > 0 && questions.map(...)]: the quiz, its radio
    buttons and its submit button are on the page when [questions] is an
    array that is not empty and every card renders.  Anything else shows
    no quiz, or throws while rendering. *)
Definition quiz_shown (st : State) : bool :=
  match questions st with
  | Json.JArray (q :: qs) => forallb question_renders (q :: qs)
  | _ => false
  end.

Definition handleAnswerChange (questionIndex : nat) (answer : Json.json) (st : State)
  : State :=
  {| questions := questions st;
     userAnswers := <[questionIndex := answer]> (userAnswers st);
     submitted := submitted st; score := score st; synth := synth st |}.

(** The [forEach] of [handleSubmitQuiz], from position [index] on:
    [if (userAnswers[index] === q.correctAnswer) newScore++].  [None] is
    the [TypeError] of a question that is [null]. *)
Fixpoint forEach_score (answers : gmap nat Json.json) (index : nat)
         (qs : list Json.json) (newScore : nat) : option nat :=
  match qs with
  | [] => Some newScore
  | q :: rest =>
      match property "correctAnswer" q with
      | None => None
      | Some correctAnswer =>
          forEach_score answers (S index) rest
                        (if strict_equal (answers !! index) correctAnswer
                         then S newScore else newScore)
      end
  end.

(** [handleSubmitQuiz].  A [TypeError] ([questions] has no [forEach], or
    one of its members is [null]) ends the handler before it has set any
    state. *)
Definition handleSubmitQuiz (st : State) : State :=
  match questions st with
  | Json.JArray qs =>
      match forEach_score (userAnswers st) 0 qs 0 with
      | Some newScore =>
          {| questions := questions st;
             userAnswers := userAnswers st;
             submitted := true;
             score := newScore;
             synth := Speech.cancelSpeech me (synth st) |}
      | None => st
      end
  | _ => st
  end.

(** The radio button of option [oIndex] of question [qIndex], which is
    [disabled={submitted}] and records the option itself; the submit
    button, which is there until the quiz is submitted. *)
Inductive Event :=
| Choose (qIndex oIndex : nat)
| Submit.

Definition step (st : State) (e : Event) : State :=
  match e with
  | Choose qIndex oIndex =>
      if submitted st then st
      else if quiz_shown st then
        match questions st with
        | Json.JArray qs =>
            match qs !! qIndex with
            | Some q =>
                match property "options" q with
                | Some (Some (Json.JArray opts)) =>
                    match opts !! oIndex with
                    | Some option_ => handleAnswerChange qIndex option_ st
                    | None => st
                    end
                | _ => st
                end
            | None => st
            end
        | _ => st
        end
      else st
  | Submit =>
      if submitted st then st
      else if quiz_shown st then handleSubmitQuiz st
      else st
  end.

Definition run (st : State) (trace : list Event) : State := fold_left step trace st.

End Panel.

End QuizGenerator.

(** ** [components/SkillTracker]: goals and their reminders *)

Module SkillTracker.

Import Js.

Record State := {
  (** [useLocalStorage('skill-goals', [])], [useLocalStorage('reminders', [])] *)
  goals : list SkillGoal.t;
  reminders : list Reminder.t;
  selectedGoalId : option string;
  notification : string
}.

(** [showNotification]; the timer it sets empties the text three
    seconds later. *)
Definition showNotification (message : string) (st : State) : State :=
  {| goals := goals st; reminders := reminders st;
     selectedGoalId := selectedGoalId st; notification := message |}.

Definition setGoals (f : list SkillGoal.t -> list SkillGoal.t) (st : State) : State :=
  {| goals := f (goals st); reminders := reminders st;
     selectedGoalId := selectedGoalId st; notification := notification st |}.

Definition setReminders (f : list Reminder.t -> list Reminder.t) (st : State) : State :=
  {| goals := goals st; reminders := f (reminders st);
     selectedGoalId := selectedGoalId st; notification := notification st |}.

(** [handleAddGoal]; [today] is [new Date().toISOString().split('T')[0]]. *)
Definition handleAddGoal (now : N) (today : string) (st : State) : State :=
  let newGoal :=
    SkillGoal.mk ("goal-" +:+ number_to_string now) "New Skill Goal"
                 "Describe what you want to learn." today SkillGoal.InProgress in
  {| goals := newGoal :: goals st; reminders := reminders st;
     selectedGoalId := Some (SkillGoal.id newGoal); notification := notification st |}.

(** The edits of a goal that the panel makes. *)
Inductive GoalEdit :=
| goal_title (value : string)
| goal_description (value : string)
| goal_targetDate (value : string)
| goal_status (value : SkillGoal.Status).

Definition edit_goal (edit : GoalEdit) (g : SkillGoal.t) : SkillGoal.t :=
  match edit with
  | goal_title value =>
      SkillGoal.mk (SkillGoal.id g) value (SkillGoal.description g)
                   (SkillGoal.targetDate g) (SkillGoal.status g)
  | goal_description value =>
      SkillGoal.mk (SkillGoal.id g) (SkillGoal.title g) value
                   (SkillGoal.targetDate g) (SkillGoal.status g)
  | goal_targetDate value =>
      SkillGoal.mk (SkillGoal.id g) (SkillGoal.title g) (SkillGoal.description g)
                   value (SkillGoal.status g)
  | goal_status value =>
      SkillGoal.mk (SkillGoal.id g) (SkillGoal.title g) (SkillGoal.description g)
                   (SkillGoal.targetDate g) value
  end.

Definition handleUpdateGoal (id : string) (edit : GoalEdit) (st : State) : State :=
  setGoals (map (fun g => if String.eqb (SkillGoal.id g) id then edit_goal edit g else g)) st.

(** The title of the reminder of a goal. *)
Definition reminder_title (goal : SkillGoal.t) : list N :=
  code_units ("Complete Skill: " +:+ SkillGoal.title goal).

Definition handleAddReminder (goal : SkillGoal.t) (st : State) : State :=
  let reminderExists :=
    existsb (fun r => bool_decide (Reminder.title r = reminder_title goal))
            (reminders st) in
  if reminderExists then showNotification "A reminder for this goal already exists." st
  else
    let newReminder :=
      Reminder.mk ("rem-skill-" +:+ SkillGoal.id goal) (reminder_title goal)
                  (SkillGoal.targetDate goal) false in
    showNotification "Reminder added!" (setReminders (fun prev => prev ++ [newReminder]) st).

End SkillTracker.

(** ** The vocabulary of the further properties *)

Module MoreProps.

Import Js.

(** A text made of white space only. *)
Definition all_whitespace (s : list N) : Prop :=
  Forall (fun c => is_whitespace c = true) s.

(** A text that is not empty and has no white space at either end. *)
Definition tidy (s : list N) : Prop :=
  match s with
  | c :: _ => is_whitespace c = false
  | [] => False
  end
  /\ match last s with
     | Some c => is_whitespace c = false
     | None => False
     end.

(** A part of a message that is text, not data. *)
Definition is_text (p : Gateway.Part) : Prop :=
  match p with
  | Gateway.text_part _ => True
  | Gateway.inlineData _ _ => False
  end.

(** In the code generator a generation in flight and the loading flag go
    together; there is at most one, the code shown is what it has
    received so far, and no error is shown meanwhile. *)
Definition codegen_inv (st : CodeGenerator.State) : Prop :=
  (CodeGenerator.running st = [] /\ CodeGenerator.isLoading st = false)
  \/ (exists g, CodeGenerator.running st = [g]
                /\ CodeGenerator.isLoading st = true
                /\ CodeGenerator.generatedCode st = CodeGenerator.fullResponse g
                /\ CodeGenerator.error st = EmptyString).

(** The clock readings at which a trace of the reminders panel adds. *)
Definition reminder_clock (trace : list Reminders.Event) : list N :=
  omap (fun e => match e with Reminders.Add now => Some now | _ => None end) trace.

(** What the reminders panel stores about a reminder it adds: a title
    that is not empty and has no white space at either end, and a date
    that is not empty. *)
Definition well_entered (r : Reminder.t) : Prop :=
  tidy (Reminder.title r) /\ Reminder.dueDate r <> EmptyString.

(** The counters of a subject are whole numbers in the range where
    JavaScript counts exactly, and the classes attended are among the
    classes held. *)
Definition counted (s : Subject.t) : Prop :=
  (0 <= Subject.attended s <= Subject.total s)%Z /\ (Subject.total s <= 2 ^ 53)%Z.

(** A subject as the attendance panel keeps it: sound counters and a
    name that is not empty and has no white space at either end. *)
Definition sound_subject (s : Subject.t) : Prop :=
  counted s /\ tidy (Subject.name s).

(** Every task and every resource belongs to a project of the list, and
    so does the selection. *)
Definition project_ids (st : ProjectPlanner.State) : list string :=
  map Project.id (ProjectPlanner.projects st).

Definition planner_integrity (st : ProjectPlanner.State) : Prop :=
  (forall t, t ∈ ProjectPlanner.tasks st -> ProjectTask.projectId t ∈ project_ids st)
  /\ (forall r, r ∈ ProjectPlanner.resources st ->
                ProjectResource.projectId r ∈ project_ids st)
  /\ (forall s, ProjectPlanner.selectedProjectId st = Some s -> s ∈ project_ids st).

(** The events of the planner other than the choice of a file to upload. *)
Definition no_upload (e : ProjectPlanner.Event) : bool :=
  match e with ProjectPlanner.FileUpload _ => false | _ => true end.

(** The summarizer is loading exactly while a call is suspended, and
    there is at most one. *)
Definition summarizer_inv (st : Summarizer.State) : Prop :=
  (Summarizer.running st = [] /\ Summarizer.isLoading st = false)
  \/ (exists c, Summarizer.running st = [c] /\ Summarizer.isLoading st = true).

(** What a call of the summarizer service leaves in the panel once it has
    ended: the text of the reply as the summary, rendered through
    [marked_parse], and no error; for a reply without text, [undefined] as
    the summary, no error, and a render that throws; for a rejected call,
    an empty summary and the error. *)
Definition summary_outcome (marked_parse : string -> string)
           (result : Js.Thrown + option string) (st : Summarizer.State) : Prop :=
  match result with
  | inr (Some text) =>
      Summarizer.summary st = Some text
      /\ Summarizer.error st = EmptyString
      /\ Summarizer.renderedSummary marked_parse st = Some (marked_parse text)
  | inr None =>
      Summarizer.summary st = None
      /\ Summarizer.error st = EmptyString
      /\ Summarizer.renderedSummary marked_parse st = None
  | inl err =>
      Summarizer.summary st = Some EmptyString
      /\ Summarizer.error st
         = "Failed to generate summary: "
           +:+ Chat.error_text "An unknown error occurred." err
  end.

(** The members of a parsed reply that is an array. *)
Definition items (v : Json.json) : list Json.json :=
  match v with
  | Json.JArray xs => xs
  | _ => []
  end.

(** A question that can be scored at all: it states no correct answer
    (then it matches when nothing is chosen), or the correct answer it
    states is strictly equal to one of its options. *)
Definition scorable (same_number : list N -> list N -> bool) (q : Json.json) : bool :=
  match QuizGenerator.property "correctAnswer" q with
  | Some None => true
  | Some (Some correct) =>
      match QuizGenerator.property "options" q with
      | Some (Some (Json.JArray opts)) =>
          existsb (fun o => QuizGenerator.strict_equal same_number (Some o) (Some correct))
                  opts
      | _ => false
      end
  | None => false
  end.

(** Every recorded answer is a member of the options of the question it
    answers. *)
Definition answers_from_options (st : QuizGenerator.State) : Prop :=
  forall i a, QuizGenerator.userAnswers st !! i = Some a ->
              exists q opts,
                items (QuizGenerator.questions st) !! i = Some q
                /\ QuizGenerator.property "options" q = Some (Some (Json.JArray opts))
                /\ a ∈ opts.

(** Numbers written alike are the same number. *)
Definition same_lexeme (x y : list N) : bool := bool_decide (x = y).

(** A quiz of one question, of the declared shape. *)
Definition sample_quiz : Json.json :=
  Json.JArray
    [Json.JObject
       [(Js.code_units "question", Json.JString (Js.code_units "2 + 2 = ?"));
        (Js.code_units "options",
         Json.JArray [Json.JString (Js.code_units "3"); Json.JString (Js.code_units "4")]);
        (Js.code_units "correctAnswer", Json.JString (Js.code_units "4"))]].

(** A quiz whose one question states no correct answer. *)
Definition unkeyed_quiz : Json.json :=
  Json.JArray
    [Json.JObject
       [(Js.code_units "question", Json.JString (Js.code_units "Q"));
        (Js.code_units "options",
         Json.JArray [Json.JString (Js.code_units "a"); Json.JString (Js.code_units "b")])]].

(** The hook under React.  [isListening] is a dependency of the hook's
    effect: when an event has changed it, React renders and runs the effect
    again before anything else happens. *)
Definition react_step {App : Type} (onTranscript : string -> App -> App)
           (s : Speech.Hook (App := App)) (e : Speech.Event) : Speech.Hook (App := App) :=
  let s' := Speech.step onTranscript true s e in
  if Bool.eqb (Speech.isListening s') (Speech.isListening s) then s'
  else Speech.useEffect true s'.

Definition react_run {App : Type} (onTranscript : string -> App -> App)
           (s : Speech.Hook (App := App)) (trace : list Speech.Event)
  : Speech.Hook (App := App) :=
  fold_left (react_step onTranscript) trace s.

(** The first render of a component that calls the hook. *)
Definition react_mount {App : Type} (a : App) : Speech.Hook (App := App) :=
  Speech.useEffect true (Speech.initial a).

(** Every recognition object that is capturing, or stopping, has an
    [onend] handler that saw [isListening] false. *)
Definition started_unaware {App : Type} (s : Speech.Hook (App := App)) : Prop :=
  forall r o, Speech.objects s !! r = Some o -> Speech.capture o <> Speech.idle ->
              Speech.onend_isListening o = false.

(** The object in [recognitionRef] is idle and is the one of the last
    run of the effect. *)
Definition ref_fresh {App : Type} (s : Speech.Hook (App := App)) : Prop :=
  exists r o, Speech.recognitionRef s = Some r /\ Speech.objects s !! r = Some o
              /\ Speech.capture o = Speech.idle
              /\ Speech.onend_isListening o = Speech.isListening s.

End MoreProps.

(* ================================================================== *)
(** * Part II: properties                                              *)
(* ================================================================== *)

(** ** The model gateway *)

Section GatewayFacts.

Import Js Gateway GatewayProps.

Lemma parse_reply_invalid invalid response raw :
  text response = Some raw ->
  Json.parse (Js.trim (Js.code_units raw)) = None ->
  parse_reply invalid response = Throw (Js.Error invalid).
Proof. intros Ht H. unfold parse_reply. now rewrite Ht, H. Qed.

Lemma parse_reply_valid invalid response raw v :
  text response = Some raw ->
  Json.parse (Js.trim (Js.code_units raw)) = Some v ->
  parse_reply invalid response = Return v.
Proof. intros Ht H. unfold parse_reply. now rewrite Ht, H. Qed.

Lemma parse_reply_no_text invalid response :
  text response = None ->
  parse_reply invalid response = Throw (Js.Error invalid).
Proof. intros Ht. unfold parse_reply. now rewrite Ht. Qed.

Lemma structured_shape apiKey op :
  no_apiKey apiKey = false ->
  exists r, call apiKey op = Await r (parse_reply (invalid_of op)).
Proof.
  intros H.
  destruct op; cbn [call invalid_of];
    unfold generateQuiz, getSkillFeedback, getProjectIdeas, debugCode,
      generateWebsiteCode;
    rewrite H; eexists; reflexivity.
Qed.

(** With a credential every operation does reach the network: the
    absence of requests below is not an artefact of the model. *)
Lemma credential_present_issues_request apiKey A (op : Operation A) remote :
  no_apiKey apiKey = false ->
  exists r, requests remote (invoke apiKey op) = r :: nil.
Proof.
  intros H.
  destruct op; cbn [invoke];
    unfold generateExplanationStream, summarizeText, generateQuiz, generateImages,
      getSkillFeedback, getProjectIdeas, debugCode, startInterviewChat,
      generateCodeSnippetStream, generateWebsiteCode, parse_reply;
    rewrite H; cbn [requests];
    match goal with |- context [remote ?R ?r] => destruct (remote R r) as [|x] end;
    try (eexists; reflexivity);
    (destruct (text x); [|eexists; reflexivity]);
    match goal with
    | |- context [Json.parse ?t] => destruct (Json.parse t)
    end; eexists; reflexivity.
Qed.

(** C6.  Whatever operation of the service is called, and with whatever
    arguments: when no credential is configured ([API_KEY] unset or
    empty) the call throws the error "API key is missing." at once; run
    against any transport it is rejected with that error and has issued
    no request. *)
Theorem missing_credential_fails_before_network
        apiKey A (op : Operation A) (remote : Remote) :
  no_apiKey apiKey = true ->
  invoke apiKey op = Throw (Js.Error "API key is missing.")
  /\ run remote (invoke apiKey op) = inl (Js.Error "API key is missing.")
  /\ requests remote (invoke apiKey op) = [].
Proof.
  intros H.
  assert (E : invoke apiKey op = Throw (Js.Error "API key is missing.")).
  { destruct op; cbn [invoke];
      unfold generateExplanationStream, summarizeText, generateQuiz, generateImages,
        getSkillFeedback, getProjectIdeas, debugCode, startInterviewChat,
        generateCodeSnippetStream, generateWebsiteCode;
      rewrite H; reflexivity. }
  rewrite E. repeat split.
Qed.

Lemma missing_credential_witness :
  run (replying "[]") (invoke None (op_generateQuiz "sets")) = inl (Js.Error "API key is missing.")
  /\ requests (replying "[]") (invoke (Some EmptyString) (op_generateImages "a cat" 9 r1_1)) = [].
Proof.
  split.
  - apply (missing_credential_fails_before_network None _ (op_generateQuiz "sets")).
    reflexivity.
  - apply (missing_credential_fails_before_network
             (Some EmptyString) _ (op_generateImages "a cat" 9 r1_1)).
    reflexivity.
Defined.

(** C5.  When notes are supplied with a question (at least one note, and
    a credential so that a message is sent at all), the one request the
    explainer issues carries as its text the fixed instruction sentence,
    a blank line, and then exactly the block
    "[My Notes]\n{notes}\n\n[My Question]\n{question}": the label and the
    formatted notes, the separator, the label and the new message, in this
    order, the question ending the text. *)
Theorem notes_block_order apiKey history newMessage file (notes : list Note.t)
        (remote : Remote) :
  no_apiKey apiKey = false ->
  notes <> [] ->
  requests remote
    (generateExplanationStream apiKey history newMessage file (Some notes))
  = [issued
       (chat_sendMessageStream
          {| chat_model := "gemini-2.5-flash";
             systemInstruction := explainerSystemInstruction;
             history := buildHistory history |}
          (text_part
             (notes_instruction +:+ nl +:+ nl +:+
              notes_block (notesContext notes) newMessage)
           :: file_parts file))].
Proof.
  intros Hkey Hnotes.
  unfold generateExplanationStream, finalMessage. rewrite Hkey.
  destruct notes as [|n ns]; [congruence|].
  cbn [length Nat.ltb Nat.leb requests].
  match goal with |- context [remote ?R ?r] => destruct (remote R r) end;
    reflexivity.
Qed.

Lemma notes_block_order_witness :
  requests (replying "[]")
    (generateExplanationStream (Some "key") [] "What is a stack?" None
       (Some [Note.mk "n1" "Stacks" "CS" "LIFO" "today"]))
  = [issued
       (chat_sendMessageStream
          {| chat_model := "gemini-2.5-flash";
             systemInstruction := explainerSystemInstruction;
             history := [] |}
          [text_part
             (notes_instruction +:+ nl +:+ nl +:+
              "[My Notes]" +:+ nl +:+
              "Subject: CS" +:+ nl +:+ "Title: Stacks" +:+ nl +:+ "Content:" +:+ nl +:+ "LIFO"
              +:+ nl +:+ nl +:+ "[My Question]" +:+ nl +:+ "What is a stack?")])].
Proof.
  apply (notes_block_order (Some "key") [] "What is a stack?" None
           [Note.mk "n1" "Stacks" "CS" "LIFO" "today"] (replying "[]")).
  - reflexivity.
  - discriminate.
Defined.

(** Without notes, or with an empty list of notes, the question goes out
    as it is. *)
Lemma no_notes_plain_message newMessage :
  finalMessage newMessage None = newMessage
  /\ finalMessage newMessage (Some []) = newMessage.
Proof. split; reflexivity. Qed.

(** C2, as stated, fails: the reply [[{"question":"Q"}]] is JSON of the
    wrong shape for a quiz (its one question has neither options nor a
    correct answer), yet [generateQuiz] returns it as the quiz.  So it is
    not true that every malformed reply makes a structured operation throw
    its invalid-format error. *)
Lemma wrong_shape_reply_is_returned :
  let raw := source "[{'question':'Q'}]" in
  let partial :=
    Json.JArray [Json.JObject [(code_units "question", Json.JString (code_units "Q"))]] in
  malformed quizSchema raw
  /\ run (replying raw) (generateQuiz (Some "key") "sets") = inr partial
  /\ conforms quizSchema partial = false
  /\ ~ (forall apiKey op raw,
          no_apiKey apiKey = false ->
          malformed (schema_of op) raw ->
          run (replying raw) (call apiKey op) = inl (Js.Error (invalid_of op))).
Proof.
  cbv zeta. split; [|split; [|split]].
  - vm_compute. reflexivity.
  - vm_compute. reflexivity.
  - vm_compute. reflexivity.
  - intros H.
    specialize (H (Some "key") (quiz "sets") (source "[{'question':'Q'}]") eq_refl).
    assert (M : malformed (schema_of (quiz "sets")) (source "[{'question':'Q'}]"))
      by (vm_compute; reflexivity).
    specialize (H M). vm_compute in H. discriminate H.
Qed.

(** C2, amended.  Every structured operation ends in the same way: the
    reply is trimmed and parsed; a reply that is not JSON makes the
    operation throw its invalid-format error, and no value is returned; a
    reply that is JSON is returned as parsed, whatever its shape (the
    declared schema is sent to the model, and not checked on the way
    back).  A reply that carries no text at all is refused like one that
    is not JSON. *)
Theorem structured_reply_parsed_not_validated
        apiKey (op : Structured) (remote : Remote) response :
  no_apiKey apiKey = false ->
  (forall m c mime s, remote _ (models_generateContent m c mime s) = inr response) ->
  run remote (call apiKey op)
  = match text response with
    | Some raw =>
        match Json.parse (trim (code_units raw)) with
        | None => inl (Js.Error (invalid_of op))
        | Some v => inr v
        end
    | None => inl (Js.Error (invalid_of op))
    end.
Proof.
  intros Hkey Hremote.
  destruct op; cbn [call invalid_of];
    unfold generateQuiz, getSkillFeedback, getProjectIdeas, debugCode,
      generateWebsiteCode;
    rewrite Hkey; cbn [run]; rewrite Hremote; unfold parse_reply;
    (destruct (text response); [|reflexivity]);
    destruct (Json.parse _); reflexivity.
Qed.

Lemma structured_reply_witness :
  run (replying "not json") (call (Some "key") (quiz "sets"))
  = inl (Js.Error "The AI returned an invalid quiz format. Please try again.").
Proof.
  rewrite (structured_reply_parsed_not_validated
             (Some "key") (quiz "sets") (replying "not json")
             {| text := Some "not json" |}).
  - reflexivity.
  - reflexivity.
  - intros; reflexivity.
Defined.

(** A reply cut off in the middle is not JSON, so it is refused. *)
Example truncated_reply_refused :
  run (replying (source "[{'question':'Q','options':['a',")) (call (Some "key") (quiz "sets"))
  = inl (Js.Error quiz_invalid).
Proof. vm_compute. reflexivity. Qed.

End GatewayFacts.

(** ** Speech synthesis *)

Section SynthFacts.

Import Speech SpeechProps.

Lemma fold_onerror_engine q s :
  speechSynthesis (fold_left (fun acc u => onerror u acc) q s) = speechSynthesis s
  /\ created (fold_left (fun acc u => onerror u acc) q s) = created s.
Proof.
  revert s. induction q as [|u q IH]; intros s; cbn [fold_left]; [easy|].
  destruct (IH (onerror u s)) as [-> ->]. easy.
Qed.

Lemma fold_onerror_speaking q s h :
  h ∈ speaking (fold_left (fun acc u => onerror u acc) q s) <->
  h ∈ speaking s /\ h ∉ map owner q.
Proof.
  revert s. induction q as [|u q IH]; intros s; cbn [fold_left map].
  - rewrite elem_of_nil. tauto.
  - rewrite IH, elem_of_cons. cbn. rewrite elem_of_difference, elem_of_singleton.
    tauto.
Qed.

Lemma synth_cancel_engine e s :
  speechSynthesis (synth_cancel e s) = Some {| queue := []; playing := false |}.
Proof. unfold synth_cancel. now rewrite (proj1 (fold_onerror_engine _ _)). Qed.

Lemma synth_cancel_created e s : created (synth_cancel e s) = created s.
Proof. unfold synth_cancel. now rewrite (proj2 (fold_onerror_engine _ _)). Qed.

Lemma synth_cancel_speaking e s h :
  h ∈ speaking (synth_cancel e s) <-> h ∈ speaking s /\ h ∉ map owner (queue e).
Proof. unfold synth_cancel. now rewrite fold_onerror_speaking. Qed.

(** After a cancel nobody says it is speaking, provided the states agreed
    with the engine before. *)
Lemma synth_cancel_silent e s :
  speechSynthesis s = Some e -> consistent s -> speaking (synth_cancel e s) = ∅.
Proof.
  intros He Hc. apply set_eq. intros h. rewrite synth_cancel_speaking.
  split; [|set_solver]. intros [Hh Hq]. exfalso.
  destruct (Hc h Hh) as (u & Hu & <-). apply Hq.
  unfold spoken in Hu. rewrite He in Hu.
  destruct e as [[|v q] []]; cbn in *; try discriminate.
  injection Hu as ->. apply elem_of_cons. now left.
Qed.

Lemma speak_effective h text s e :
  speechSynthesis s = Some e -> text <> EmptyString ->
  speak h text s
  = {| speechSynthesis :=
         Some {| queue := [{| token := created s; utterance_text := text; owner := h |}];
                 playing := false |};
       speaking := speaking (synth_cancel e s);
       created := S (created s) |}.
Proof.
  intros He Ht. unfold speak. rewrite He.
  destruct text as [|c text]; [congruence|]. cbn [Js.falsy new_utterance].
  cbn [speechSynthesis]. rewrite He.
  unfold synth_speak.
  rewrite synth_cancel_engine. unfold set_engine. cbn [queue playing app].
  rewrite synth_cancel_created. cbn [created].
  f_equal. apply set_eq. intros x.
  rewrite !synth_cancel_speaking. cbn [speaking]. tauto.
Qed.

Lemma consistent_init available : consistent (synth_init available).
Proof. intros h Hh. cbn in Hh. set_solver. Qed.

Lemma consistent_step s e : consistent s -> consistent (synth_step s e).
Proof.
  intros Hc. destruct e as [h text|h| | | |]; cbn [synth_step].
  - (* speak *)
    unfold speak at 1. destruct (speechSynthesis s) as [e|] eqn:He; [|exact Hc].
    destruct (Js.falsy text) eqn:Hf; [exact Hc|].
    assert (Ht : text <> EmptyString) by (destruct text; [discriminate|congruence]).
    intros x Hx. exfalso.
    pose proof (speak_effective h text s e He Ht) as E.
    unfold speak in E. rewrite He, Hf in E. rewrite E in Hx. cbn [speaking] in Hx.
    rewrite (synth_cancel_silent e s He Hc) in Hx. set_solver.
  - (* cancelSpeech *)
    unfold cancelSpeech. destruct (speechSynthesis s) as [e|] eqn:He; [|exact Hc].
    intros x Hx. exfalso. cbn in Hx.
    rewrite (synth_cancel_silent e s He Hc) in Hx.
    apply elem_of_difference in Hx as [Hx _]. now apply elem_of_empty in Hx.
  - (* cleanup *)
    unfold effect_cleanup. destruct (speechSynthesis s) as [e|] eqn:He; [|exact Hc].
    intros x Hx. exfalso. rewrite (synth_cancel_silent e s He Hc) in Hx. set_solver.
  - (* start *)
    unfold engine_start.
    destruct (speechSynthesis s) as [[[|u q] []]|] eqn:He; try exact Hc.
    intros x Hx. cbn in Hx. apply elem_of_union in Hx as [Hx|Hx].
    + apply elem_of_singleton in Hx. subst x. exists u. split; reflexivity.
    + destruct (Hc x Hx) as (v & Hv & _). unfold spoken in Hv. rewrite He in Hv.
      discriminate.
  - (* end *)
    unfold engine_end.
    destruct (speechSynthesis s) as [[[|u q] []]|] eqn:He; try exact Hc.
    intros x Hx. exfalso. cbn in Hx. apply elem_of_difference in Hx as [Hx Hn].
    destruct (Hc x Hx) as (v & Hv & Ho). unfold spoken in Hv. rewrite He in Hv.
    injection Hv as <-. apply Hn. apply elem_of_singleton. now rewrite Ho.
  - (* error *)
    unfold engine_error.
    destruct (speechSynthesis s) as [[[|u q] pl]|] eqn:He; try exact Hc.
    intros x Hx. exfalso. cbn in Hx. apply elem_of_difference in Hx as [Hx Hn].
    destruct (Hc x Hx) as (v & Hv & Ho). unfold spoken in Hv. rewrite He in Hv.
    destruct pl; [|discriminate].
    injection Hv as <-. apply Hn. apply elem_of_singleton. now rewrite Ho.
Qed.

Lemma consistent_run trace s : consistent s -> consistent (synth_run s trace).
Proof.
  revert s. induction trace as [|e trace IH]; intros s Hc; [exact Hc|].
  apply IH. now apply consistent_step.
Qed.

Lemma active_cancelled e s : active (synth_cancel e s) = [].
Proof. unfold active. now rewrite synth_cancel_engine. Qed.

Lemma tokens_from_step n s e : tokens_from n s -> tokens_from n (synth_step s e).
Proof.
  intros [Hn Hq]. destruct e as [h text|h| | | |]; cbn [synth_step].
  - unfold speak at 1. destruct (speechSynthesis s) as [e|] eqn:He; [|easy].
    destruct (Js.falsy text) eqn:Hf; [easy|].
    assert (Ht : text <> EmptyString) by (destruct text; [discriminate|congruence]).
    pose proof (speak_effective h text s e He Ht) as E.
    unfold speak in E. rewrite He, Hf in E. rewrite E.
    split; cbn; [lia|]. intros u Hu. apply list_elem_of_singleton in Hu as ->. cbn. lia.
  - unfold cancelSpeech. destruct (speechSynthesis s) as [e|] eqn:He; [|easy].
    split.
    + cbn. rewrite synth_cancel_created. lia.
    + intros u Hu. unfold active in Hu. cbn in Hu. rewrite synth_cancel_engine in Hu.
      cbn in Hu. now apply elem_of_nil in Hu.
  - unfold effect_cleanup. destruct (speechSynthesis s) as [e|] eqn:He; [|easy].
    split.
    + rewrite synth_cancel_created. lia.
    + intros u Hu. rewrite active_cancelled in Hu. now apply elem_of_nil in Hu.
  - unfold engine_start.
    destruct (speechSynthesis s) as [[[|u q] []]|] eqn:He; try easy.
    split; [exact Hn|]. intros v Hv. apply Hq. unfold active. now rewrite He.
  - unfold engine_end.
    destruct (speechSynthesis s) as [[[|u q] []]|] eqn:He; try easy.
    split; [exact Hn|]. intros v Hv. apply Hq. unfold active. rewrite He.
    cbn in Hv |- *. apply elem_of_cons. now right.
  - unfold engine_error.
    destruct (speechSynthesis s) as [[[|u q] pl]|] eqn:He; try easy.
    split; [exact Hn|]. intros v Hv. apply Hq. unfold active. rewrite He.
    cbn in Hv |- *. apply elem_of_cons. now right.
Qed.

Lemma tokens_from_run n trace s : tokens_from n s -> tokens_from n (synth_run s trace).
Proof.
  revert s. induction trace as [|e trace IH]; intros s H; [exact H|].
  apply IH. now apply tokens_from_step.
Qed.

Lemma created_step s e : created s <= created (synth_step s e).
Proof.
  destruct e as [h text|h| | | |]; cbn [synth_step].
  - unfold speak. destruct (speechSynthesis s) as [e|] eqn:He; [|lia].
    destruct (Js.falsy text); [lia|]. cbn [new_utterance speechSynthesis].
    rewrite He. unfold synth_speak. rewrite synth_cancel_engine.
    cbn. rewrite synth_cancel_created. cbn. lia.
  - unfold cancelSpeech. destruct (speechSynthesis s); [|lia].
    cbn. rewrite synth_cancel_created. lia.
  - unfold effect_cleanup. destruct (speechSynthesis s); [|lia].
    rewrite synth_cancel_created. lia.
  - unfold engine_start. destruct (speechSynthesis s) as [[[|u q] []]|]; cbn; lia.
  - unfold engine_end. destruct (speechSynthesis s) as [[[|u q] []]|]; cbn; lia.
  - unfold engine_error. destruct (speechSynthesis s) as [[[|u q] pl]|]; cbn; lia.
Qed.

Lemma created_run trace s : created s <= created (synth_run s trace).
Proof.
  revert s. induction trace as [|e trace IH]; intros s; [cbn; lia|].
  cbn [synth_run fold_left]. etransitivity; [apply (created_step s e)|apply IH].
Qed.

Lemma engine_kept_step s e :
  speechSynthesis s <> None -> speechSynthesis (synth_step s e) <> None.
Proof.
  intros H. destruct e as [h text|h| | | |]; cbn [synth_step].
  - unfold speak. destruct (speechSynthesis s) as [e|] eqn:He; [|congruence].
    destruct (Js.falsy text); [congruence|]. cbn [new_utterance speechSynthesis].
    rewrite He. unfold synth_speak. rewrite synth_cancel_engine. cbn. congruence.
  - unfold cancelSpeech. destruct (speechSynthesis s); [|congruence].
    cbn. rewrite synth_cancel_engine. congruence.
  - unfold effect_cleanup. destruct (speechSynthesis s); [|congruence].
    rewrite synth_cancel_engine. congruence.
  - unfold engine_start.
    destruct (speechSynthesis s) as [[[|u q] []]|] eqn:He; cbn; congruence.
  - unfold engine_end.
    destruct (speechSynthesis s) as [[[|u q] []]|] eqn:He; cbn; congruence.
  - unfold engine_error.
    destruct (speechSynthesis s) as [[[|u q] pl]|] eqn:He; cbn; congruence.
Qed.

Lemma engine_kept_run trace s :
  speechSynthesis s <> None -> speechSynthesis (synth_run s trace) <> None.
Proof.
  revert s. induction trace as [|e trace IH]; intros s H; [exact H|].
  apply IH. now apply engine_kept_step.
Qed.

(** C3.  Where the page has a synthesis engine and [B] is a text to speak
    (not the empty text, for which [speak] starts nothing): after
    [speak(A)], whatever happens next, and then [speak(B)], from whichever
    instances of the hook, the engine's queue holds exactly one utterance,
    the new one for [B], not yet started.  Every utterance made before this
    call, [A]'s among them, has a smaller token, and no such utterance is
    in the queue in any later state: [A] neither goes on nor comes back.
    At every later moment the instances that say they are speaking are at
    most the owner of the one utterance then being spoken. *)
Theorem speak_replaces_current_utterance
        (s : Synth) (hA hB : nat) (A B : string) (between later : list SynthEvent) :
  speechSynthesis s <> None ->
  B <> EmptyString ->
  consistent s ->
  let s1 := speak hA A s in
  let s2 := synth_run s1 between in
  let s3 := speak hB B s2 in
  let s4 := synth_run s3 later in
  active s3 = [{| token := created s2; utterance_text := B; owner := hB |}]
  /\ spoken s3 = None
  /\ speaking s3 = ∅
  /\ (A <> EmptyString ->
      active s1 = [{| token := created s; utterance_text := A; owner := hA |}]
      /\ created s < created s2)
  /\ (forall u, u ∈ active s4 -> created s2 <= token u)
  /\ (forall h, h ∈ speaking s4 -> exists u, spoken s4 = Some u /\ owner u = h).
Proof.
  intros Hengine HB Hc s1 s2 s3 s4.
  assert (Hc1 : consistent s1) by (apply (consistent_step s (Speak hA A)); exact Hc).
  assert (Hc2 : consistent s2) by (apply consistent_run; exact Hc1).
  assert (He2 : speechSynthesis s2 <> None).
  { apply engine_kept_run. apply (engine_kept_step s (Speak hA A)). exact Hengine. }
  destruct (speechSynthesis s2) as [e2|] eqn:E2; [clear He2|congruence].
  assert (E3 : s3 = _) by (exact (speak_effective hB B s2 e2 E2 HB)).
  assert (Hc3 : consistent s3) by (apply (consistent_step s2 (Speak hB B)); exact Hc2).
  split; [|split; [|split; [|split; [|split]]]].
  - rewrite E3. reflexivity.
  - rewrite E3. reflexivity.
  - rewrite E3. cbn [speaking]. now apply synth_cancel_silent.
  - intros HA. destruct (speechSynthesis s) as [e|] eqn:E; [|congruence].
    assert (E1 : s1 = _) by (exact (speak_effective hA A s e E HA)).
    split.
    + rewrite E1. reflexivity.
    + pose proof (created_run between s1) as Hle. fold s2 in Hle.
      rewrite E1 in Hle at 1. cbn [created] in Hle. lia.
  - assert (T3 : tokens_from (created s2) s3).
    { rewrite E3. split; cbn; [lia|]. intros u Hu.
      apply list_elem_of_singleton in Hu as ->. cbn. lia. }
    exact (proj2 (tokens_from_run _ later s3 T3)).
  - exact (consistent_run later s3 Hc3).
Qed.

Lemma speak_replaces_witness :
  active (speak 2 "second" (synth_run (speak 1 "first" (synth_init true)) [EngineStart]))
  = [{| token := 1; utterance_text := "second"; owner := 2 |}].
Proof.
  pose proof (speak_replaces_current_utterance
                (synth_init true) 1 2 "first" "second" [EngineStart] []) as H.
  cbv zeta in H.
  apply H.
  - discriminate.
  - discriminate.
  - apply consistent_init.
Defined.

(** C10.  [speak] with the empty text, or on a page without a synthesis
    engine, gives back the state it was given: the queue with the
    utterance being spoken, every instance's [isSpeaking], the count of
    utterances made; nothing is cancelled and nothing is created. *)
Theorem speak_nothing_is_noop (h : nat) (text : string) (s : Synth) :
  text = EmptyString \/ speechSynthesis s = None ->
  speak h text s = s
  /\ active (speak h text s) = active s
  /\ spoken (speak h text s) = spoken s
  /\ (forall h', isSpeaking h' (speak h text s) = isSpeaking h' s).
Proof.
  intros H.
  assert (E : speak h text s = s).
  { unfold speak. destruct (speechSynthesis s); [|reflexivity].
    destruct H as [->|H]; [reflexivity|discriminate]. }
  rewrite E. repeat split.
Qed.

Lemma speak_nothing_witness :
  let playing_first := synth_run (synth_init true) [Speak 1 "first"; EngineStart] in
  speak 2 EmptyString playing_first = playing_first
  /\ speak 2 "second" (synth_init false) = synth_init false.
Proof.
  split.
  - apply (speak_nothing_is_noop 2 EmptyString). left. reflexivity.
  - apply (speak_nothing_is_noop 2 "second" (synth_init false)). right. reflexivity.
Defined.

(** While an utterance is being spoken, [speak] of the empty text leaves it
    the active one (which is why C3 asks for a text to speak). *)
Example speak_empty_keeps_current :
  active (synth_run (synth_init true) [Speak 1 "first"; EngineStart; Speak 2 EmptyString])
  = [{| token := 0; utterance_text := "first"; owner := 1 |}].
Proof. reflexivity. Qed.

End SynthFacts.

(** ** Speech recognition *)

Section RecognitionFacts.

Import Speech SpeechProps.

Context {App : Type}.
Variable onTranscript : string -> App -> App.
Variable SpeechRecognition : bool.

#[local] Abbreviation Hook := (Hook (App := App)).
#[local] Abbreviation step := (step onTranscript SpeechRecognition).
#[local] Abbreviation run := (run onTranscript SpeechRecognition).

Lemma coherent_initial (a : App) : coherent (initial a).
Proof. intros H. discriminate. Qed.

Lemma coherent_step (s : Hook) e : coherent s -> coherent (step s e).
Proof.
  unfold coherent. intros Hc.
  destruct e as [| | |r results|r]; cbn [Speech.step].
  - unfold useEffect. destruct SpeechRecognition; cbn; eauto.
  - unfold startListening. destruct (recognitionRef s) as [r|] eqn:Hr;
      [|rewrite Hr; exact Hc].
    destruct (isListening s) eqn:Hl; cbn [negb]; [rewrite Hl, Hr; eauto|].
    destruct (start r (objects s)); cbn; [eauto|]. rewrite Hr. eauto.
  - unfold stopListening. destruct (recognitionRef s) as [r|] eqn:Hr;
      [|rewrite Hr; exact Hc].
    destruct (isListening s) eqn:Hl; cbn; [discriminate|]. rewrite Hr. eauto.
  - unfold engine_result. destruct (objects s !! r) as [o|]; [|exact Hc].
    destruct (capture o); cbn; exact Hc.
  - unfold engine_stop. destruct (objects s !! r) as [o|]; [|exact Hc].
    destruct (capture o); cbn; exact Hc.
Qed.

Lemma coherent_run trace (s : Hook) : coherent s -> coherent (run s trace).
Proof.
  revert s. induction trace as [|e trace IH]; intros s H; [exact H|].
  apply IH. now apply coherent_step.
Qed.

(** [stop] ends no capture by itself: an object that has not ended is
    still not ended after it. *)
Lemma stop_keeps_live r r' (objs : list Recognition) o :
  objs !! r' = Some o -> capture o <> idle ->
  exists o', stop r objs !! r' = Some o' /\ capture o' <> idle.
Proof.
  intros Ho Hlive. unfold stop.
  destruct (objs !! r) as [q|] eqn:Hq; [|eauto].
  destruct (capture q) eqn:Hc; eauto.
  destruct (decide (r = r')) as [->|Hne].
  - exists (set_capture stopping q). split; [|discriminate].
    apply list_lookup_insert_eq. now apply lookup_lt_Some in Hq.
  - exists o. split; [|exact Hlive]. now rewrite list_lookup_insert_ne.
Qed.

Lemma engine_result_delivers r results (s : Hook) o :
  objects s !! r = Some o -> capture o <> idle ->
  app (engine_result onTranscript r results s)
  = onTranscript (event_transcript results) (app s).
Proof.
  intros Ho Hlive. unfold engine_result. rewrite Ho.
  destruct (capture o); [congruence|reflexivity|reflexivity].
Qed.

Lemma engine_stop_keeps_isListening r (s : Hook) :
  isListening (engine_stop r s) = isListening s.
Proof.
  unfold engine_stop. destruct (objects s !! r) as [o|]; [|reflexivity].
  destruct (capture o); reflexivity.
Qed.

(** The hook touches the state of its caller only through the callback. *)
Lemma step_app (s : Hook) e :
  app (step s e) = app s \/ exists t, app (step s e) = onTranscript t (app s).
Proof.
  destruct e as [| | |r results|r]; cbn [Speech.step].
  - left. unfold useEffect. destruct SpeechRecognition; reflexivity.
  - left. unfold startListening. destruct (recognitionRef s); [|reflexivity].
    destruct (isListening s); cbn [negb]; [reflexivity|].
    destruct (start _ _); reflexivity.
  - left. unfold stopListening. destruct (recognitionRef s); [|reflexivity].
    destruct (isListening s); reflexivity.
  - unfold engine_result. destruct (objects s !! r) as [o|]; [|now left].
    destruct (capture o); [now left|right; eexists; reflexivity..].
  - left. unfold engine_stop. destruct (objects s !! r) as [o|]; [|reflexivity].
    destruct (capture o); reflexivity.
Qed.

(** C4, amended.  In every state the hook can reach: after
    [stopListening()] the hook reports that it is not listening; a
    [result] event that the engine still fires, on a recognition object
    that has not ended, reaches the caller's callback all the same
    ([onresult] does not look at the listening state), also when it comes
    after [stopListening()]; and when the engine ends a capture by itself,
    the listening state the caller sees does not change.  (Whether capture
    starts again is left open here.) *)
Theorem stop_listening_does_not_mute_results (a : App) (trace : list Event) :
  let s := run (initial a) trace in
  isListening (stopListening s) = false
  /\ (forall r o results,
        objects s !! r = Some o -> capture o <> idle ->
        app (engine_result onTranscript r results (stopListening s))
        = onTranscript (event_transcript results) (app s))
  /\ (forall r, isListening (engine_stop r s) = isListening s).
Proof.
  intros s.
  assert (Hc : coherent s) by (apply coherent_run, coherent_initial).
  split; [|split].
  - unfold stopListening. destruct (recognitionRef s) as [r|] eqn:Hr.
    + destruct (isListening s) eqn:Hl; [reflexivity|exact Hl].
    + destruct (isListening s) eqn:Hl; [|reflexivity].
      destruct (Hc Hl) as [x Hx]. congruence.
  - intros r o results Ho Hlive.
    assert (exists o', objects (stopListening s) !! r = Some o' /\ capture o' <> idle)
      as (o' & Ho' & Hlive').
    { unfold stopListening. destruct (recognitionRef s) as [q|]; [|eauto].
      destruct (isListening s); [|eauto]. cbn [objects].
      now apply stop_keeps_live with o. }
    rewrite (engine_result_delivers r results _ o' Ho' Hlive').
    unfold stopListening. destruct (recognitionRef s); [|reflexivity].
    destruct (isListening s); reflexivity.
  - intros r. apply engine_stop_keeps_isListening.
Qed.

End RecognitionFacts.

Section RecognitionCallers.

Import Speech SpeechProps.

(** C4, as stated, fails.  [ChatInput] mounts, the user starts dictation
    and stops it (React renders after each change of state); the hook says
    it is not listening and the text is empty; the engine then fires a
    result on the recognition object that was started, and the text becomes
    that result.  So it is not true that after [stopListening()] a result
    event leaves the caller's state as it was. *)
Lemma late_result_updates_transcript :
  let s := run ChatInput.onTranscript true (initial no_input)
               [Render; StartListening; Render; StopListening; Render] in
  isListening s = false
  /\ ChatInput.text (app s) = EmptyString
  /\ ChatInput.text
       (app (step ChatInput.onTranscript true s (EngineResult 0 [heard "late" true])))
     = "late"
  /\ ~ (forall trace r results,
          let stopped :=
            stopListening (run ChatInput.onTranscript true (initial no_input) trace) in
          app (engine_result ChatInput.onTranscript r results stopped) = app stopped).
Proof.
  cbv zeta. split; [|split; [|split]]; try reflexivity.
  intros H.
  specialize (H [Render; StartListening; Render] 0%nat [heard "late" true]).
  vm_compute in H. discriminate H.
Qed.

Lemma stop_listening_witness :
  let s := run ChatInput.onTranscript true (initial no_input)
               [Render; StartListening; Render] in
  isListening (stopListening s) = false
  /\ ChatInput.text
       (app (engine_result ChatInput.onTranscript 0 [heard "late" true] (stopListening s)))
     = "late".
Proof.
  pose proof (stop_listening_does_not_mute_results ChatInput.onTranscript true no_input
                [Render; StartListening; Render]) as H.
  cbv zeta in H. destruct H as (H1 & H2 & _).
  split; [exact H1|].
  rewrite (H2 0%nat (set_capture capturing
                       {| continuous := true; interimResults := true;
                          onend_isListening := false; capture := idle |})
              [heard "late" true]).
  - reflexivity.
  - reflexivity.
  - discriminate.
Defined.

(** The restart on an engine-level end does not happen: the object that
    [startListening] starts was set up by a render in which [isListening]
    was false, and that is the value its [onend] handler sees; the object
    set up by the next render, whose handler would restart, is never
    started. *)
Example engine_end_is_not_restarted :
  let s := run ChatInput.onTranscript true (initial no_input)
               [Render; StartListening; Render; EngineStop 0] in
  isListening s = true /\ capture_running s = false.
Proof. split; reflexivity. Qed.

(** [stopListening] reaches the object of the latest render, not the one
    that captures: the capture goes on. *)
Example stop_listening_misses_capture :
  let s := run ChatInput.onTranscript true (initial no_input)
               [Render; StartListening; Render; StopListening; Render] in
  isListening s = false /\ capture_running s = true.
Proof. split; reflexivity. Qed.

(** C9.  A [result] event hands the caller the whole recognised text of
    that event (the best alternative of each of its results, joined), and
    both callers put it in place of their input text: after the event the
    field of [ChatInput], and the input of the interview panel, is that
    text, whatever it was before.  So an interim "hello" followed by a
    final "hello world" leaves "hello world". *)
Theorem result_replaces_input
        (r : nat) (o : Recognition) (results : list SpeechRecognitionResult) :
  capture o <> idle ->
  (forall c : ChatInput.State,
      objects c !! r = Some o ->
      ChatInput.text (app (engine_result ChatInput.onTranscript r results c))
      = event_transcript results)
  /\ (forall p : Hook (App := InterviewTrainer.Fields),
        objects p !! r = Some o ->
        InterviewTrainer.input (app (engine_result InterviewTrainer.onTranscript r results p))
        = event_transcript results).
Proof.
  intros Hlive. split; intros x Ho.
  - now rewrite (engine_result_delivers ChatInput.onTranscript r results x o Ho Hlive).
  - now rewrite (engine_result_delivers InterviewTrainer.onTranscript r results x o Ho Hlive).
Qed.

Lemma result_replaces_witness :
  let c := run ChatInput.onTranscript true (initial no_input)
               [Render; StartListening; Render; EngineResult 0 [heard "hello" false]] in
  ChatInput.text (app c) = "hello"
  /\ ChatInput.text
       (app (engine_result ChatInput.onTranscript 0 [heard "hello world" true] c))
     = "hello world".
Proof.
  split; [reflexivity|].
  apply (result_replaces_input 0
           (set_capture capturing
              {| continuous := true; interimResults := true;
                 onend_isListening := false; capture := idle |})
           [heard "hello world" true]).
  - discriminate.
  - reflexivity.
Defined.

(** In continuous mode an event carries every result of the session so far;
    the text is their concatenation. *)
Example result_joins_all_results :
  event_transcript [heard "hello " true; heard "world" false] = "hello world".
Proof. reflexivity. Qed.

End RecognitionCallers.

(** ** The chat panels *)

Section ChatFacts.

Import Js Chat.

Lemma append_nil_r (s : string) : s +:+ EmptyString = s.
Proof.
  induction s as [|c s IH]; [reflexivity|].
  change (String c (s +:+ EmptyString) = String c s). now f_equal.
Qed.

Lemma append_assoc (a b c : string) : (a +:+ b) +:+ c = a +:+ (b +:+ c).
Proof.
  induction a as [|x a IH]; [reflexivity|].
  change (String x ((a +:+ b) +:+ c) = String x (a +:+ (b +:+ c))). now f_equal.
Qed.

Lemma join_cons (x : string) (xs : list string) :
  join EmptyString (x :: xs) = x +:+ join EmptyString xs.
Proof.
  unfold join. destruct xs as [|y ys]; [symmetry; apply append_nil_r|reflexivity].
Qed.



Lemma stopListening_keeps_app {App : Type} (h : Speech.Hook (App := App)) :
  Speech.app (Speech.stopListening h) = Speech.app h.
Proof.
  unfold Speech.stopListening. destruct (Speech.recognitionRef h); [|reflexivity].
  destruct (Speech.isListening h); reflexivity.
Qed.

Lemma repeat_snoc {A} (x : A) n : repeat x (S n) = repeat x n ++ [x].
Proof. cbn [repeat]. apply repeat_cons. Qed.



End ChatFacts.

Section InterviewFacts.

Import Js Chat InterviewTrainer PanelProps.

Variable apiKey : option string.
Variable remote : Gateway.Remote.
Variable SpeechRecognition : bool.
Variable me : nat.

#[local] Abbreviation State := (State).
#[local] Abbreviation step := (step apiKey remote SpeechRecognition me).
#[local] Abbreviation run := (run apiKey remote SpeechRecognition me).
#[local] Abbreviation handleSendMessage := (handleSendMessage apiKey remote me).


(** The hook writes the input of the panel and nothing else of it. *)
Lemma hook_step_keeps (h : Speech.Hook (App := Fields)) e :
  isLoading (Speech.app (Speech.step onTranscript SpeechRecognition h e))
  = isLoading (Speech.app h)
  /\ messages (Speech.app (Speech.step onTranscript SpeechRecognition h e))
     = messages (Speech.app h).
Proof.
  destruct (step_app onTranscript SpeechRecognition h e) as [->|[t ->]]; split; reflexivity.
Qed.






(** What [handleSendMessage] leaves behind when its guard lets it pass. *)
Lemma interview_send_opens (st : State) now1 now2 :
  running st = [] ->
  isLoading (fields st) = false ->
  blank (input (fields st)) = false ->
  interview_filling (handleSendMessage now1 now2 st)
    ("msg-" +:+ number_to_string now2 +:+ "-model") EmptyString
    (pending_of
       (Gateway.run remote
          (Gateway.startInterviewChat apiKey (messages (fields st)) (input (fields st))))).
Proof.
  intros Hr Hl Hb. unfold InterviewTrainer.handleSendMessage, interview_filling.
  rewrite Hl, Hb. cbn [orb]. rewrite Hr.
  assert (Happ : Speech.app (if Speech.isListening (hook st)
                             then Speech.stopListening (hook st) else hook st)
                 = fields st).
  { destruct (Speech.isListening (hook st)); [|reflexivity].
    apply stopListening_keeps_app. }
  unfold update, fields. cbn. rewrite Happ.
  split; [reflexivity|]. split; [|reflexivity].
  rewrite (last_app_cons _ _ _). reflexivity.
Qed.



Lemma interview_send_blocked (st : State) now1 now2 :
  isLoading (fields st) = true -> handleSendMessage now1 now2 st = st.
Proof.
  intros H. unfold InterviewTrainer.handleSendMessage. rewrite H.
  now rewrite orb_true_r.
Qed.

Lemma interview_inv_send (st : State) now1 now2 :
  interview_inv st -> interview_inv (handleSendMessage now1 now2 st).
Proof.
  intros Hinv. destruct (isLoading (fields st)) eqn:Hl.
  - now rewrite interview_send_blocked.
  - destruct Hinv as [[Hr _]|(t & _ & Ht)]; [|congruence].
    destruct (blank (input (fields st))) eqn:Hb.
    + unfold InterviewTrainer.handleSendMessage. rewrite Hb. cbn [orb].
      left. auto.
    + right. destruct (interview_send_opens st now1 now2 Hr Hl Hb) as (R1 & _ & L1).
      eauto.
Qed.

Lemma interview_inv_step (st : State) e : interview_inv st -> interview_inv (step st e).
Proof.
  intros Hinv. destruct e as [now1 now2|now1 now2|value|e|e|k]; cbn [InterviewTrainer.step].
  - destruct (send_disabled st); [exact Hinv|]. now apply interview_inv_send.
  - destruct (textarea_disabled st); [exact Hinv|]. now apply interview_inv_send.
  - destruct (textarea_disabled st); exact Hinv.
  - unfold interview_inv, fields in *. cbn [running hook].
    now rewrite (proj1 (hook_step_keeps (hook st) e)).
  - exact Hinv.
  - unfold InterviewTrainer.resume.
    destruct Hinv as [[Hr Hl]|(t & Hr & Hl)]; rewrite Hr.
    + rewrite lookup_nil. left. auto.
    + destruct k as [|k]; [|right; eauto].
      cbn [lookup list_lookup].
      destruct (pending t) as [err|[|chunk rest] [err|]];
        unfold interview_inv, on_error; cbn; rewrite ?Hr; cbn;
        first [left; split; reflexivity | right; eexists; split; [reflexivity|exact Hl]].
Qed.

Lemma interview_inv_run trace (st : State) :
  interview_inv st -> interview_inv (run st trace).
Proof.
  revert st. induction trace as [|e trace IH]; intros st H; [exact H|].
  apply IH. now apply interview_inv_step.
Qed.

Lemma interview_inv_mount now page :
  interview_inv (mount SpeechRecognition now page).
Proof. left. unfold mount, fields, Speech.useEffect. destruct SpeechRecognition; auto. Qed.


End InterviewFacts.

Section ExplainerFacts.

Import Js Chat Explainer PanelProps.

Variable apiKey : option string.
Variable remote : Gateway.Remote.
Variable SpeechRecognition : bool.
Variable me : nat.
Variable readFileAsBase64 : File.t -> Thrown + string.

#[local] Abbreviation run := (run apiKey remote SpeechRecognition me readFileAsBase64).
#[local] Abbreviation step := (step apiKey remote SpeechRecognition me readFileAsBase64).
#[local] Abbreviation resume := (resume apiKey remote readFileAsBase64).
#[local] Abbreviation handleSendMessage := (handleSendMessage apiKey remote me).
#[local] Abbreviation handleSend := (handleSend apiKey remote me).










Lemma explainer_send_blocked (st : State) now1 now2 :
  isLoading st = true -> handleSend now1 now2 st = st.
Proof.
  intros H. unfold Explainer.handleSend, ChatInput.may_send. rewrite H.
  now rewrite andb_false_r.
Qed.

Lemma explainer_inv_send (st : State) now1 now2 :
  explainer_inv st -> explainer_inv (handleSend now1 now2 st).
Proof.
  intros Hinv. destruct (isLoading st) eqn:Hl.
  - now rewrite explainer_send_blocked.
  - destruct Hinv as [Hr|(c & _ & Ht)]; [|congruence].
    unfold Explainer.handleSend.
    destruct (ChatInput.may_send (isLoading st) (chatInput st)); [|now left].
    unfold Explainer.handleSendMessage.
    destruct (ChatInput.selectedFile (Speech.app (chatInput st))) as [f|];
      right; cbn; rewrite Hr; eexists; split; reflexivity.
Qed.

Lemma explainer_inv_step (st : State) e : explainer_inv st -> explainer_inv (step st e).
Proof.
  intros Hinv.
  destruct e as [now1 now2|now1 now2|value|f| |e|e|k]; cbn [Explainer.step].
  - destruct (ChatInput.send_disabled _ _); [exact Hinv|]. now apply explainer_inv_send.
  - destruct (isLoading st); [exact Hinv|]. now apply explainer_inv_send.
  - destruct (isLoading st); exact Hinv.
  - exact Hinv.
  - exact Hinv.
  - exact Hinv.
  - exact Hinv.
  - unfold Explainer.resume.
    destruct Hinv as [Hr|(c & Hr & Hl)]; rewrite Hr.
    + rewrite lookup_nil. now left.
    + destruct k as [|k]; [|right; eauto].
      cbn [lookup list_lookup].
      destruct c as [text f searchNotes history stored now1 now2|t].
      * destruct (readFileAsBase64 f) as [err|data]; unfold explainer_inv; cbn;
          rewrite ?Hr; cbn;
          first [left; reflexivity | right; eexists; split; [reflexivity|exact Hl]].
      * destruct (pending t) as [err|[|chunk rest] [err|]];
          unfold explainer_inv, Explainer.on_error; cbn; rewrite ?Hr; cbn;
          first [left; reflexivity | right; eexists; split; [reflexivity|exact Hl]].
Qed.

Lemma explainer_inv_run trace (st : State) : explainer_inv st -> explainer_inv (run st trace).
Proof.
  revert st. induction trace as [|e trace IH]; intros st H; [exact H|].
  apply IH. now apply explainer_inv_step.
Qed.

Lemma explainer_open_turns_bound (st : State) :
  explainer_inv st -> length (open_turns st) <= 1.
Proof.
  unfold open_turns. intros [Hr|(c & Hr & _)]; rewrite Hr; [cbn; lia|].
  destruct c; cbn; lia.
Qed.


End ExplainerFacts.

Section CodeGeneratorFacts.

Import Js Chat CodeGenerator PanelProps.

Variable apiKey : option string.
Variable remote : Gateway.Remote.
Variable me : nat.

#[local] Abbreviation run := (run apiKey remote me).
#[local] Abbreviation step := (step apiKey remote me).
#[local] Abbreviation handleGenerate := (handleGenerate apiKey remote me).





End CodeGeneratorFacts.

Section StreamingClaims.

Import Js Chat PanelProps.

Variable apiKey : option string.
Variable remote : Gateway.Remote.
Variable SpeechRecognition : bool.
Variable me : nat.
Variable readFileAsBase64 : File.t -> Thrown + string.



(** C8.  In every state either chat panel can reach from its first
    render, whatever the events, there is at most one call of the send
    handler in flight, hence at most one turn being filled, and while
    there is one the panel is loading.  While the panel is loading the send
    handler returns the state unchanged, the send button is disabled, and a
    click on it or the Enter key changes nothing; in the interview panel
    the loading ends exactly when the call in flight has ended. *)
Theorem one_turn_in_progress :
  (forall now page (trace : list InterviewTrainer.Event),
      let st := InterviewTrainer.run apiKey remote SpeechRecognition me
                  (InterviewTrainer.mount SpeechRecognition now page) trace in
      length (InterviewTrainer.running st) <= 1
      /\ (InterviewTrainer.running st <> [] <->
          InterviewTrainer.isLoading (InterviewTrainer.fields st) = true)
      /\ (InterviewTrainer.isLoading (InterviewTrainer.fields st) = true ->
          forall now1 now2,
            InterviewTrainer.handleSendMessage apiKey remote me now1 now2 st = st
            /\ InterviewTrainer.send_disabled st = true
            /\ InterviewTrainer.step apiKey remote SpeechRecognition me st
                 (InterviewTrainer.ClickSend now1 now2) = st
            /\ InterviewTrainer.step apiKey remote SpeechRecognition me st
                 (InterviewTrainer.PressEnter now1 now2) = st))
  /\ (forall stored page (trace : list Explainer.Event),
        let st := Explainer.run apiKey remote SpeechRecognition me readFileAsBase64
                    (Explainer.mount SpeechRecognition stored page) trace in
        length (Explainer.running st) <= 1
        /\ length (Explainer.open_turns st) <= 1
        /\ (Explainer.running st <> [] -> Explainer.isLoading st = true)
        /\ (Explainer.isLoading st = true ->
            forall now1 now2,
              Explainer.handleSend apiKey remote me now1 now2 st = st
              /\ ChatInput.send_disabled (Explainer.isLoading st) (Explainer.chatInput st)
                 = true
              /\ Explainer.step apiKey remote SpeechRecognition me readFileAsBase64 st
                   (Explainer.ClickSend now1 now2) = st
              /\ Explainer.step apiKey remote SpeechRecognition me readFileAsBase64 st
                   (Explainer.PressEnter now1 now2) = st)).
Proof.
  split.
  - intros now page trace st.
    assert (Hinv : interview_inv st).
    { apply interview_inv_run, interview_inv_mount. }
    split; [|split].
    + destruct Hinv as [[-> _]|(t & -> & _)]; cbn; lia.
    + destruct Hinv as [[Hr Hl]|(t & Hr & Hl)]; rewrite Hr, Hl; split; congruence.
    + intros Hl now1 now2.
      assert (Hs : InterviewTrainer.handleSendMessage apiKey remote me now1 now2 st = st)
        by now apply interview_send_blocked.
      repeat split.
      * exact Hs.
      * unfold InterviewTrainer.send_disabled. now rewrite Hl.
      * cbn. unfold InterviewTrainer.send_disabled. now rewrite Hl.
      * cbn. unfold InterviewTrainer.textarea_disabled. now rewrite Hl.
  - intros stored page trace st.
    assert (Hinv : explainer_inv st).
    { apply explainer_inv_run. now left. }
    split; [|split; [|split]].
    + destruct Hinv as [->|(c & -> & _)]; cbn; lia.
    + now apply explainer_open_turns_bound.
    + destruct Hinv as [Hr|(c & Hr & Hl)]; [congruence|auto].
    + intros Hl now1 now2.
      repeat split.
      * now apply explainer_send_blocked.
      * unfold ChatInput.send_disabled. now rewrite Hl.
      * cbn. unfold ChatInput.send_disabled. now rewrite Hl.
      * cbn. now rewrite Hl.
Qed.

End StreamingClaims.

Section StreamingWitnesses.

Import Js Chat PanelProps GatewayProps.



(** A stream that breaks after two fragments: the partial text gives way
    to the error. *)
Example mid_stream_failure_overwrites :
  let remote := streams ["Recur"; "sion"] (Some (Error "connection lost")) in
  let st := Explainer.mount true [] (Speech.synth_init true) in
  let sent := Explainer.handleSendMessage (Some "key") remote 0
                "Explain recursion" None false 5 5 st in
  let run := Explainer.run (Some "key") remote true 0 (reads EmptyString) sent in
  last (Explainer.messages (run (repeat (Explainer.Resume 0) 2)))
  = Some (Message.mk "msg-5-model" model "Recursion" None)
  /\ last (Explainer.messages (run (repeat (Explainer.Resume 0) 3)))
     = Some (Message.mk "msg-5-model" model "**Error:** connection lost" None).
Proof. split; reflexivity. Qed.

(** While the first answer streams, a second send does nothing. *)
Lemma one_turn_witness :
  let remote := streams ["a"; "b"] None in
  let st := InterviewTrainer.run (Some "key") remote true 0
              (InterviewTrainer.mount true 1 (Speech.synth_init true))
              [InterviewTrainer.Change "Hi"; InterviewTrainer.ClickSend 7 7;
               InterviewTrainer.Resume 0] in
  InterviewTrainer.handleSendMessage (Some "key") remote 0 9 9 st = st
  /\ length (InterviewTrainer.running st) = 1%nat.
Proof.
  pose proof (one_turn_in_progress (Some "key") (streams ["a"; "b"] None) true 0
                (reads EmptyString)) as (H & _).
  specialize (H 1%N (Speech.synth_init true)
                [InterviewTrainer.Change "Hi"; InterviewTrainer.ClickSend 7 7;
                 InterviewTrainer.Resume 0]).
  cbv zeta in H. destruct H as (_ & _ & H).
  split; [|reflexivity].
  exact (proj1 (H eq_refl 9%N 9%N)).
Defined.

(** In the explainer a file that cannot be read ends the call before any
    request is made: no turn is opened, and the panel stays loading.  (The
    read is awaited outside the [try] of the handler.) *)
Example unreadable_file_leaves_loading :
  let remote := streams ["a"] None in
  let st := Explainer.mount true [] (Speech.synth_init true) in
  let st' := Explainer.run (Some "key") remote true 0 unreadable
               (Explainer.handleSendMessage (Some "key") remote 0
                  "Read this" (Some (File.mk "a.pdf" "application/pdf" 0)) false 5 5 st)
               [Explainer.Resume 0] in
  Explainer.messages st' = [] /\ Explainer.running st' = []
  /\ Explainer.isLoading st' = true.
Proof. repeat split. Qed.

End StreamingWitnesses.

(** ** Further properties of [hooks/useSpeech] *)

Section SpeechMore.

Import Speech SpeechProps.

(** X1.  In every state the page can reach, [cancelSpeech] called from
    any instance of the hook, and the cleanup of the hook's effect, leave
    the engine's queue empty and no instance at all saying that it is
    speaking: the one queue is shared, and cancelling it fires the error
    handler of whoever was speaking. *)
Theorem cancel_silences_every_instance (trace : list SynthEvent) (h : nat) :
  let s := synth_run (synth_init true) trace in
  (speaking (cancelSpeech h s) = ∅ /\ active (cancelSpeech h s) = [])
  /\ (speaking (effect_cleanup s) = ∅ /\ active (effect_cleanup s) = []).
Proof.
  cbv zeta. set (s := synth_run (synth_init true) trace).
  assert (Hc : consistent s) by apply consistent_run, consistent_init.
  assert (He : speechSynthesis s <> None)
    by (apply engine_kept_run; cbn; congruence).
  destruct (speechSynthesis s) as [e|] eqn:E; [clear He|congruence].
  unfold cancelSpeech, effect_cleanup. rewrite E.
  pose proof (synth_cancel_silent e s E Hc) as Hs.
  repeat split.
  - cbn. rewrite Hs. apply set_eq. intros x. rewrite elem_of_difference.
    split; [now intros [Hx _]|]. intros Hx. now apply elem_of_empty in Hx.
  - unfold active. cbn. now rewrite synth_cancel_engine.
  - exact Hs.
  - apply active_cancelled.
Qed.

(** X2.  In every state the page can reach, with or without an engine, at
    most one instance of the hook says that it is speaking, and then the
    engine is speaking an utterance of that instance. *)
Theorem at_most_one_instance_speaks (available : bool) (trace : list SynthEvent) :
  let s := synth_run (synth_init available) trace in
  speaking s = ∅ \/ exists u, spoken s = Some u /\ speaking s = {[owner u]}.
Proof.
  cbv zeta. set (s := synth_run (synth_init available) trace).
  assert (Hc : consistent s) by apply consistent_run, consistent_init.
  destruct (set_choose_or_empty (speaking s)) as [[h Hh]|He]; [right|left].
  - destruct (Hc h Hh) as (u & Hu & Ho). exists u. split; [exact Hu|].
    apply set_eq. intros x. rewrite elem_of_singleton. split.
    + intros Hx. destruct (Hc x Hx) as (v & Hv & <-). congruence.
    + intros ->. now rewrite Ho.
  - now apply leibniz_equiv.
Qed.

End SpeechMore.

Section RecognitionMore.

Import Speech SpeechProps.

Context {App : Type}.
Variable onTranscript : string -> App -> App.

(** X3.  In a browser without speech recognition the hook does nothing
    about listening, whatever is tried: it never says that it listens,
    creates no recognition object, and never calls the callback. *)
Theorem no_recognition_without_support (a : App) (trace : list Event) :
  run onTranscript false (initial a) trace = initial a.
Proof.
  induction trace as [|e trace IH] using rev_ind; [reflexivity|].
  unfold run in *. rewrite fold_left_app, IH. cbn [fold_left].
  destruct e; reflexivity.
Qed.

(** X4.  Asking twice is asking once: a second [startListening] right
    after a first changes nothing more, whether the first one started the
    capture, was refused by the engine or found no recognition object;
    and likewise for [stopListening]. *)
Theorem listening_requests_are_idempotent (s : Hook (App := App)) :
  startListening (startListening s) = startListening s
  /\ stopListening (stopListening s) = stopListening s.
Proof.
  split.
  - unfold startListening at 2 3.
    destruct (recognitionRef s) as [r|] eqn:Hr.
    + destruct (isListening s) eqn:Hl; cbn [negb].
      * unfold startListening. now rewrite Hr, Hl.
      * destruct (start r (objects s)) eqn:Hs.
        -- reflexivity.
        -- unfold startListening. now rewrite Hr, Hl, Hs.
    + unfold startListening. now rewrite Hr.
  - unfold stopListening at 2 3.
    destruct (recognitionRef s) as [r|] eqn:Hr.
    + destruct (isListening s) eqn:Hl.
      * reflexivity.
      * unfold stopListening. now rewrite Hr, Hl.
    + unfold stopListening. now rewrite Hr.
Qed.

(** X5.  Where the browser has speech recognition: once the effect of the
    hook has run, as it does after every render, [stopListening] reaches
    no capture.  The effect has put a new, idle recognition object in
    [recognitionRef], so [stop] is called on that one: the objects are
    left as they were, and a capture that was running goes on. *)
Theorem stop_after_render_stops_nothing (s : Hook (App := App)) :
  objects (stopListening (useEffect true s)) = objects (useEffect true s)
  /\ capture_running (stopListening (useEffect true s)) = capture_running s.
Proof.
  assert (E : objects (stopListening (useEffect true s)) = objects (useEffect true s)).
  { unfold stopListening, useEffect. cbn [recognitionRef isListening objects app].
    destruct (isListening s); [|reflexivity]. cbn [objects].
    unfold stop. rewrite lookup_app_r by lia.
    rewrite Nat.sub_diag. reflexivity. }
  split; [exact E|].
  unfold capture_running. rewrite E. unfold useEffect. cbn [objects].
  rewrite existsb_app. cbn. now rewrite orb_false_r.
Qed.

(** X6.  The text handed to the callback is the first alternative of
    every result of the event, joined without separator.  For an event
    with no result it is the empty text; for an event with one result it
    is the transcript of that result's first alternative, whether the
    result is final or not and whatever its other alternatives are; and
    the results of two events laid end to end give the two texts laid end
    to end.  So for any event it is the first alternatives, each in full,
    in the order of the results. *)
Theorem event_transcript_concatenates (a b : list SpeechRecognitionResult) :
  event_transcript [] = EmptyString
  /\ (forall final first rest,
        event_transcript [{| isFinal := final; best := first; others := rest |}]
        = transcript first)
  /\ event_transcript (a ++ b) = event_transcript a +:+ event_transcript b
  /\ event_transcript a
     = fold_right (fun result text => transcript (best result) +:+ text) EmptyString a.
Proof.
  assert (Happ : forall x y,
             event_transcript (x ++ y) = event_transcript x +:+ event_transcript y).
  { intros x y. unfold event_transcript. rewrite map_app.
    induction (map (fun result => transcript (best result)) x) as [|t ts IH].
    - reflexivity.
    - rewrite <- app_comm_cons, !join_cons, IH. symmetry. apply append_assoc. }
  split; [reflexivity|]. split; [reflexivity|]. split; [apply Happ|].
  induction a as [|r a IH]; [reflexivity|].
  cbn [fold_right]. rewrite <- IH.
  unfold event_transcript. cbn [map]. apply join_cons.
Qed.

End RecognitionMore.
(** ** [trim] *)

Section TrimFacts.

Import Js MoreProps.

Lemma trimStart_ws w s : all_whitespace w -> trimStart (w ++ s) = trimStart s.
Proof.
  induction 1 as [|c w Hc _ IH]; [reflexivity|].
  cbn [app trimStart]. now rewrite Hc.
Qed.

Lemma trimStart_head s c l : trimStart s = c :: l -> is_whitespace c = false.
Proof.
  induction s as [|x s IH]; cbn [trimStart]; [discriminate|].
  destruct (is_whitespace x) eqn:Hx; [exact IH|].
  intros [= <- _]. exact Hx.
Qed.

Lemma trimStart_suffix s : exists p, s = p ++ trimStart s /\ all_whitespace p.
Proof.
  induction s as [|x s (p & Hp & Hw)]; cbn [trimStart].
  - exists []. split; [reflexivity|constructor].
  - destruct (is_whitespace x) eqn:Hx.
    + exists (x :: p). split; [cbn; now f_equal|now constructor].
    + exists []. split; [reflexivity|constructor].
Qed.

Lemma trimStart_nil s : trimStart s = [] <-> all_whitespace s.
Proof.
  split.
  - intros H. destruct (trimStart_suffix s) as (p & Hp & Hw).
    rewrite H, app_nil_r in Hp. now subst.
  - intros H. rewrite <- (app_nil_r s). now rewrite trimStart_ws.
Qed.

Lemma trimStart_app s t : trimStart s <> [] -> trimStart (s ++ t) = trimStart s ++ t.
Proof.
  induction s as [|x s IH]; cbn [trimStart app]; [congruence|].
  destruct (is_whitespace x); [exact IH|reflexivity].
Qed.

Lemma all_whitespace_rev w : all_whitespace w -> all_whitespace (rev w).
Proof.
  unfold all_whitespace. rewrite !List.Forall_forall. intros H x Hx.
  apply H. now apply in_rev.
Qed.

Lemma trimEnd_ws s w : all_whitespace w -> trimEnd (s ++ w) = trimEnd s.
Proof.
  intros H. unfold trimEnd. rewrite rev_app_distr.
  now rewrite trimStart_ws by now apply all_whitespace_rev.
Qed.

Lemma trimEnd_prefix x : exists q, x = trimEnd x ++ q.
Proof.
  destruct (trimStart_suffix (rev x)) as (p & Hp & _).
  exists (rev p). unfold trimEnd. rewrite <- rev_app_distr, <- Hp.
  now rewrite rev_involutive.
Qed.

(** White space around a text does not change what [trim] gives. *)
Lemma trim_padded w1 s w2 :
  all_whitespace w1 -> all_whitespace w2 -> trim (w1 ++ s ++ w2) = trim s.
Proof.
  intros H1 H2. unfold trim. rewrite trimStart_ws by exact H1.
  destruct (trimStart s) as [|c l] eqn:Hs.
  - apply trimStart_nil in Hs.
    assert (Hall : all_whitespace (s ++ w2)) by (apply Forall_app; now split).
    apply trimStart_nil in Hall. now rewrite Hall.
  - rewrite trimStart_app by (rewrite Hs; discriminate).
    rewrite Hs. now apply trimEnd_ws.
Qed.

(** What [trim] gives, when it is not empty, is tidy. *)
Lemma trim_tidy s c l : trim s = c :: l -> tidy (c :: l).
Proof.
  intros H. split.
  - destruct (trimEnd_prefix (trimStart s)) as (q & Hq).
    unfold trim in H. rewrite H in Hq. cbn in Hq.
    now apply trimStart_head in Hq.
  - unfold trim, trimEnd in H.
    destruct (trimStart (rev (trimStart s))) as [|d m] eqn:Hd; [discriminate|].
    rewrite <- H. cbn [rev]. rewrite last_snoc.
    now apply trimStart_head in Hd.
Qed.

Lemma code_units_app a b : code_units (a +:+ b) = code_units a ++ code_units b.
Proof.
  induction a as [|c a IH]; [reflexivity|].
  change (N_of_ascii c :: code_units (a +:+ b)
          = N_of_ascii c :: (code_units a ++ code_units b)).
  now f_equal.
Qed.

End TrimFacts.

(** ** Further properties of the model gateway *)

Section GatewayMore.

Import Js Gateway GatewayProps MoreProps.

(** X7.  With a credential, a chat operation (the explainer's and the
    interview coach's) issues one request, whose chat carries the earlier
    messages as history: one entry per message, in order, with the
    message's role and its text as the only part.  The ids of the
    messages and the files that were attached to earlier turns are not
    sent again. *)
Theorem history_is_roles_and_text apiKey (history : list Message.t)
        (newMessage : string) file notes (remote : Remote) :
  no_apiKey apiKey = false ->
  let sent (g : Gateway ResponseStream) :=
    exists chat message,
      requests remote g = [issued (chat_sendMessageStream chat message)]
      /\ Forall2 (fun m c => content_role c = Message.role m
                             /\ parts c = [text_part (Message.content m)])
                 history (Gateway.history chat)
      /\ Forall (fun c => Forall is_text (parts c)) (Gateway.history chat) in
  sent (generateExplanationStream apiKey history newMessage file notes)
  /\ sent (startInterviewChat apiKey history newMessage).
Proof.
  intros Hkey. cbv zeta.
  assert (H2 : Forall2 (fun m c => content_role c = Message.role m
                                   /\ parts c = [text_part (Message.content m)])
                       history (buildHistory history)).
  { induction history as [|m ms IH]; constructor; [now split|exact IH]. }
  assert (Ht : Forall (fun c => Forall is_text (parts c)) (buildHistory history)).
  { induction history as [|m ms IH]; constructor.
    - cbn. repeat constructor.
    - apply IH. now inversion H2. }
  split.
  - unfold generateExplanationStream. rewrite Hkey. cbn [requests].
    eexists _, _. split.
    { match goal with |- context [remote ?R ?r] => destruct (remote R r) end;
        reflexivity. }
    split; [exact H2|exact Ht].
  - unfold startInterviewChat. rewrite Hkey. cbn [requests].
    eexists _, _. split.
    { match goal with |- context [remote ?R ?r] => destruct (remote R r) end;
        reflexivity. }
    split; [exact H2|exact Ht].
Qed.

Lemma history_is_roles_and_text_witness :
  exists chat message,
    requests (streams ["Hi"] None)
      (startInterviewChat (Some "key")
         [Message.mk "msg-1" user "Hello" (Some (FileInfo.mk "cv.pdf" "application/pdf"))]
         "And now?")
    = [issued (chat_sendMessageStream chat message)]
    /\ Forall (fun c => Forall is_text (parts c)) (Gateway.history chat).
Proof.
  destruct (history_is_roles_and_text (Some "key")
              [Message.mk "msg-1" user "Hello" (Some (FileInfo.mk "cv.pdf" "application/pdf"))]
              "And now?" None None (streams ["Hi"] None) eq_refl)
    as [_ (chat & message & Hr & _ & Ht)].
  exists chat, message. split; [exact Hr|exact Ht].
Defined.

(** X8.  Whatever operation of the service is called, with whatever
    arguments and however the transport answers, the call issues exactly
    one request when a credential is configured and none when it is not:
    no operation retries, and none makes a second request after the
    first. *)
Theorem each_call_issues_one_request apiKey A (op : Operation A) (remote : Remote) :
  length (requests remote (invoke apiKey op)) = if no_apiKey apiKey then 0 else 1.
Proof.
  destruct (no_apiKey apiKey) eqn:Hkey.
  - destruct op; cbn [invoke];
      unfold generateExplanationStream, summarizeText, generateQuiz, generateImages,
        getSkillFeedback, getProjectIdeas, debugCode, startInterviewChat,
        generateCodeSnippetStream, generateWebsiteCode;
      rewrite Hkey; reflexivity.
  - destruct (credential_present_issues_request apiKey A op remote Hkey) as [r ->].
    reflexivity.
Qed.

(** X9.  White space around the reply does not matter to a structured
    operation: the reply is trimmed before it is parsed, so a reply with
    blanks or line breaks before and after it gives what the bare reply
    gives, the same value or the same error. *)
Theorem padded_reply_parses_alike apiKey (op : Structured) (pre raw post : string) :
  all_whitespace (code_units pre) ->
  all_whitespace (code_units post) ->
  run (replying (pre +:+ raw +:+ post)) (call apiKey op)
  = run (replying raw) (call apiKey op).
Proof.
  intros Hpre Hpost.
  assert (E : trim (code_units (pre +:+ raw +:+ post)) = trim (code_units raw)).
  { rewrite !code_units_app. now apply trim_padded. }
  destruct op; cbn [call];
    unfold generateQuiz, getSkillFeedback, getProjectIdeas, debugCode,
      generateWebsiteCode;
    (destruct (no_apiKey apiKey); [reflexivity|]);
    cbn [run replying]; unfold parse_reply; cbn [text]; cbv zeta; rewrite E;
    destruct (Json.parse _); reflexivity.
Qed.

Lemma padded_reply_parses_alike_witness :
  run (replying (" " +:+ source "{'html':'<p>'}" +:+ nl))
      (call (Some "key") (website "a page"))
  = run (replying (source "{'html':'<p>'}")) (call (Some "key") (website "a page")).
Proof.
  apply (padded_reply_parses_alike (Some "key") (website "a page")
           " " (source "{'html':'<p>'}") nl).
  - repeat constructor.
  - repeat constructor.
Defined.

End GatewayMore.
(** ** Further properties of the panels *)

Section PanelsMore.

Import Js Chat MoreProps.

Variable apiKey : option string.
Variable remote : Gateway.Remote.
Variable SpeechRecognition : bool.
Variable me : nat.
Variable readFileAsBase64 : File.t -> Thrown + string.

Lemma codegen_inv_step st e :
  codegen_inv st -> codegen_inv (CodeGenerator.step apiKey remote me st e).
Proof.
  intros Hinv. destruct e as [|value|value|k]; cbn [CodeGenerator.step].
  - destruct (CodeGenerator.isLoading st) eqn:Hl; [exact Hinv|].
    unfold CodeGenerator.handleGenerate.
    destruct (blank (CodeGenerator.prompt st)).
    + destruct Hinv as [[Hr _]|(g & _ & Hg & _)]; [|cbn in *; congruence].
      left. cbn. now split.
    + destruct Hinv as [[Hr _]|(g & _ & Hg & _)]; [|congruence].
      right. cbn. rewrite Hr. eexists. repeat split.
  - destruct (CodeGenerator.isLoading st); exact Hinv.
  - exact Hinv.
  - unfold CodeGenerator.resume.
    destruct Hinv as [[Hr Hl]|(g & Hr & Hl & Hc & He)].
    + rewrite Hr. cbn. left. now split.
    + rewrite Hr. destruct k as [|k]; cbn [lookup list_lookup].
      * destruct (CodeGenerator.pending g) as [err|[|chunk rest] [err|]].
        -- left. unfold CodeGenerator.on_error. cbn. rewrite Hr. now split.
        -- left. unfold CodeGenerator.on_error. cbn. rewrite Hr. now split.
        -- left. cbn. now split.
        -- right. cbn. eexists. repeat split; [exact Hl|exact He].
        -- right. cbn. eexists. repeat split; [exact Hl|exact He].
      * right. exists g. now repeat split.
Qed.

(** X10.  In every state the code generator can reach from its first
    render, it is loading exactly while a call of [handleGenerate] is
    suspended; there is never more than one such call; and while there is
    one, the code on display is what the call has received so far and no
    error is shown. *)
Theorem one_generation_at_a_time (page : Speech.Synth) (trace : list CodeGenerator.Event) :
  codegen_inv (CodeGenerator.run apiKey remote me (CodeGenerator.mount page) trace).
Proof.
  induction trace as [|e trace IH] using rev_ind.
  - left. now split.
  - unfold CodeGenerator.run in *. rewrite fold_left_app. cbn [fold_left].
    now apply codegen_inv_step.
Qed.

(** X11.  When the code generator is idle and the prompt is not blank,
    a click on the button whose service call is rejected (no credential,
    or a transport that refuses) ends with the panel not loading, no code
    on display, and the error text
    "Failed to generate code: " followed by the error's message (or by
    "An unknown error occurred." when what was thrown is not an error). *)
Theorem rejected_generation_is_reported (st : CodeGenerator.State) (err : Thrown) :
  CodeGenerator.isLoading st = false ->
  CodeGenerator.running st = [] ->
  blank (CodeGenerator.prompt st) = false ->
  Gateway.run remote
    (Gateway.generateCodeSnippetStream apiKey (CodeGenerator.prompt st)
                                       (CodeGenerator.language st))
  = inl err ->
  let st' :=
    CodeGenerator.run apiKey remote me st
      [CodeGenerator.ClickGenerate; CodeGenerator.Resume 0] in
  CodeGenerator.error st'
  = "Failed to generate code: " +:+ error_text "An unknown error occurred." err
  /\ CodeGenerator.isLoading st' = false
  /\ CodeGenerator.generatedCode st' = EmptyString
  /\ CodeGenerator.running st' = [].
Proof.
  intros Hl Hr Hb Hcall. cbv zeta.
  unfold CodeGenerator.run. cbn [fold_left CodeGenerator.step].
  rewrite Hl. unfold CodeGenerator.handleGenerate. rewrite Hb, Hcall.
  unfold CodeGenerator.resume. cbn. rewrite Hr. cbn. repeat split.
Qed.

(** X12.  In the interview panel and in the explainer, pressing Enter in
    the text area and clicking the send button do the same thing in every
    state: the button is disabled exactly where the handler behind the
    key would refuse to send. *)
Theorem enter_key_is_the_send_button
        (it : InterviewTrainer.State) (ex : Explainer.State) (now1 now2 : N) :
  InterviewTrainer.step apiKey remote SpeechRecognition me it
    (InterviewTrainer.PressEnter now1 now2)
  = InterviewTrainer.step apiKey remote SpeechRecognition me it
      (InterviewTrainer.ClickSend now1 now2)
  /\ Explainer.step apiKey remote SpeechRecognition me readFileAsBase64 ex
       (Explainer.PressEnter now1 now2)
     = Explainer.step apiKey remote SpeechRecognition me readFileAsBase64 ex
         (Explainer.ClickSend now1 now2).
Proof.
  split.
  - cbn [InterviewTrainer.step].
    unfold InterviewTrainer.send_disabled, InterviewTrainer.textarea_disabled,
      InterviewTrainer.handleSendMessage.
    destruct (InterviewTrainer.isLoading (InterviewTrainer.fields it));
      destruct (blank (InterviewTrainer.input (InterviewTrainer.fields it)));
      reflexivity.
  - cbn [Explainer.step].
    unfold ChatInput.send_disabled, Explainer.handleSend, ChatInput.may_send.
    destruct (Explainer.isLoading ex);
      destruct (blank (ChatInput.text (Speech.app (Explainer.chatInput ex))));
      destruct (ChatInput.selectedFile (Speech.app (Explainer.chatInput ex)));
      reflexivity.
Qed.

End PanelsMore.

Section PanelsMoreWitnesses.

Import Js Chat MoreProps GatewayProps.

Lemma rejected_generation_is_reported_witness :
  CodeGenerator.error
    (CodeGenerator.run None (streams ["x = 1"] None) 0
       (CodeGenerator.setPrompt "sum a list" (CodeGenerator.mount (Speech.synth_init true)))
       [CodeGenerator.ClickGenerate; CodeGenerator.Resume 0])
  = "Failed to generate code: API key is missing.".
Proof.
  pose proof (rejected_generation_is_reported None (streams ["x = 1"] None) 0
                (CodeGenerator.setPrompt "sum a list"
                   (CodeGenerator.mount (Speech.synth_init true)))
                (Error "API key is missing.")
                eq_refl eq_refl eq_refl eq_refl) as H.
  exact (proj1 H).
Defined.

End PanelsMoreWitnesses.
(** ** Identifiers made from the clock *)

Section ClockIds.

Import Js.

Lemma append_cancel_l (p a b : string) : p +:+ a = p +:+ b -> a = b.
Proof.
  induction p as [|c p IH]; [easy|].
  change (String c (p +:+ a) = String c (p +:+ b) -> a = b).
  intros [= H]. now apply IH.
Qed.

Lemma to_uint_not_nil (n : N) : N.to_uint n <> Decimal.Nil.
Proof.
  destruct n as [|p]; [discriminate|]. cbn.
  apply DecimalPos.Unsigned.to_uint_nonnil.
Qed.

(** Two clock readings that print alike are the same reading. *)
Lemma number_to_string_inj (a b : N) : number_to_string a = number_to_string b -> a = b.
Proof.
  unfold number_to_string. intros H.
  apply DecimalN.Unsigned.to_uint_inj.
  assert (E : Some (N.to_uint a) = Some (N.to_uint b)).
  { rewrite <- (NilZero.usu (N.to_uint a)) by apply to_uint_not_nil.
    rewrite <- (NilZero.usu (N.to_uint b)) by apply to_uint_not_nil.
    now rewrite H. }
  now injection E.
Qed.

Lemma clock_id_inj (prefix : string) (a b : N) :
  prefix +:+ number_to_string a = prefix +:+ number_to_string b -> a = b.
Proof. intros H. now apply number_to_string_inj, (append_cancel_l prefix). Qed.

End ClockIds.

(** ** [components/Reminders] *)

Section RemindersFacts.

Import Js MoreProps Reminders.

(** X13.  Toggling a reminder twice puts the whole panel back as it was:
    every reminder that carries the id is flipped and flipped back, and
    nothing else is touched. *)
Theorem toggle_twice_restores (id : string) (st : State) :
  toggleReminder id (toggleReminder id st) = st.
Proof.
  destruct st as [rs t d]. unfold toggleReminder, setReminders. cbn.
  f_equal. rewrite map_map. rewrite <- (map_id rs) at 2.
  apply map_ext. intros [i ti du c]. cbn.
  destruct (String.eqb i id) eqn:E; cbn; rewrite E; [|reflexivity].
  now rewrite negb_involutive.
Qed.

Lemma reminders_run_snoc st trace e : run st (trace ++ [e]) = step (run st trace) e.
Proof. unfold run. now rewrite fold_left_app. Qed.

Lemma reminder_clock_snoc trace e :
  reminder_clock (trace ++ [e])
  = reminder_clock trace ++ match e with Add now => [now] | _ => [] end.
Proof.
  unfold reminder_clock. rewrite omap_app. f_equal. now destruct e.
Qed.

(** X14.  Starting with no reminders: as long as no two reminders are
    added at the same reading of the clock, no two reminders of the list
    have the same id, whatever is added, toggled and deleted, and every id
    is "rem-" followed by the reading at which its reminder was added.
    (The id is made from the clock alone; [toggleReminder] and
    [deleteReminder] act on every reminder that carries the id they are
    given.) *)
Theorem reminder_ids_are_distinct (trace : list Event) :
  NoDup (reminder_clock trace) ->
  NoDup (map Reminder.id (reminders (run (mount []) trace)))
  /\ forall r, r ∈ reminders (run (mount []) trace) ->
               exists now, now ∈ reminder_clock trace
                           /\ Reminder.id r = "rem-" +:+ number_to_string now.
Proof.
  induction trace as [|e trace IH] using rev_ind; intros Hnd.
  - split; [constructor|]. intros r Hr. cbn in Hr. now apply elem_of_nil in Hr.
  - rewrite reminders_run_snoc, reminder_clock_snoc in *.
    apply NoDup_app in Hnd as (Hnd & Hfresh & _).
    destruct (IH Hnd) as [Hids Hfrom]. clear IH.
    set (st := run (mount []) trace) in *.
    assert (Hweak : forall r, r ∈ reminders st ->
               exists now, now ∈ reminder_clock trace ++
                                 match e with Add now => [now] | _ => [] end
                           /\ Reminder.id r = "rem-" +:+ number_to_string now).
    { intros r Hr. destruct (Hfrom r Hr) as (n & Hn & E). exists n.
      split; [|exact E]. apply elem_of_app. now left. }
    destruct e as [value|value|now|id|id]; cbn [step].
    + split; [exact Hids|exact Hweak].
    + split; [exact Hids|exact Hweak].
    + unfold addReminder.
      destruct (trim (newReminderTitle st)) as [|c title]; [now split|].
      destruct (falsy (newReminderDate st)); [now split|].
      cbn [reminders]. split.
      * rewrite map_app. cbn [map Reminder.id]. apply NoDup_app. split; [exact Hids|].
        split; [|apply NoDup_singleton].
        intros x Hx Hx'. apply list_elem_of_singleton in Hx'. subst x.
        apply list_elem_of_fmap in Hx as (r & E & Hr).
        destruct (Hfrom r Hr) as (n & Hn & En). rewrite En in E.
        apply clock_id_inj in E. subst n.
        apply (Hfresh now Hn). apply list_elem_of_singleton. reflexivity.
      * intros r Hr. apply elem_of_app in Hr as [Hr|Hr]; [now apply Hweak|].
        apply list_elem_of_singleton in Hr. subst r. exists now. split; [|reflexivity].
        apply elem_of_app. right. now apply list_elem_of_singleton.
    + unfold toggleReminder, setReminders. cbn [reminders]. split.
      * rewrite map_map.
        erewrite map_ext; [exact Hids|].
        intros r. cbn. now destruct (String.eqb (Reminder.id r) id).
      * intros r Hr. apply list_elem_of_fmap in Hr as (r0 & -> & Hr0).
        destruct (Hweak r0 Hr0) as (n & Hn & E). exists n. split; [exact Hn|].
        now destruct (String.eqb (Reminder.id r0) id).
    + unfold deleteReminder, setReminders. cbn [reminders]. split.
      * apply NoDup_fmap_2_strong with (l := List.filter _ (reminders st)) (f := Reminder.id).
        -- intros x y Hx Hy E.
           apply list_elem_of_In, filter_In in Hx as [Hx _].
           apply list_elem_of_In, filter_In in Hy as [Hy _].
           apply list_elem_of_In in Hx, Hy.
           apply list_elem_of_lookup in Hx as [i Hi].
           apply list_elem_of_lookup in Hy as [j Hj].
           assert (i = j).
           { apply (NoDup_lookup _ i j (Reminder.id x) Hids);
               rewrite list_lookup_fmap; [now rewrite Hi|now rewrite Hj, E]. }
           subst j. congruence.
        -- apply NoDup_ListNoDup, List.NoDup_filter, NoDup_ListNoDup.
           apply (NoDup_fmap_1 Reminder.id). exact Hids.
      * intros r Hr. apply list_elem_of_In, filter_In in Hr as [Hr _].
        apply Hweak. now apply list_elem_of_In.
Qed.

Lemma reminder_ids_are_distinct_witness :
  NoDup (map Reminder.id
           (reminders
              (run (mount [])
                 [ChangeTitle (code_units " Essay "); ChangeDate "2025-01-10"; Add 1700;
                  ChangeTitle (code_units "Lab"); ChangeDate "2025-01-12"; Add 1701;
                  Toggle "rem-1700"]))).
Proof.
  apply (reminder_ids_are_distinct
           [ChangeTitle (code_units " Essay "); ChangeDate "2025-01-10"; Add 1700;
            ChangeTitle (code_units "Lab"); ChangeDate "2025-01-12"; Add 1701;
            Toggle "rem-1700"]).
  apply (bool_decide_unpack _). vm_compute. exact I.
Defined.

End RemindersFacts.

Section RemindersEntries.

Import Js MoreProps Reminders.

(** X15.  The reminders panel only ever stores reminders that were
    entered properly: if the stored reminders have a title that is not
    empty and carries no white space at either end, and a date that is
    not empty, then so have all reminders after any sequence of edits,
    additions, toggles and deletions.  An addition with a blank title or
    without a date adds nothing, and the title is stored trimmed. *)
Theorem reminders_stay_well_entered (stored : list Reminder.t) (trace : list Event) :
  Forall well_entered stored ->
  Forall well_entered (reminders (run (mount stored) trace)).
Proof.
  intros Hs. induction trace as [|e trace IH] using rev_ind; [exact Hs|].
  rewrite reminders_run_snoc. set (st := run (mount stored) trace) in *.
  destruct e as [value|value|now|id|id]; cbn [step reminders]; try exact IH.
  - unfold addReminder.
    destruct (trim (newReminderTitle st)) as [|c title] eqn:Ht; [exact IH|].
    destruct (falsy (newReminderDate st)) eqn:Hd; [exact IH|].
    cbn [reminders]. apply Forall_app. split; [exact IH|].
    constructor; [|constructor]. split; cbn.
    + now apply (trim_tidy (newReminderTitle st)).
    + intros E. rewrite E in Hd. discriminate.
  - unfold toggleReminder, setReminders. cbn [reminders].
    apply Forall_fmap. eapply Forall_impl; [exact IH|].
    intros r Hr. cbn. now destruct (String.eqb (Reminder.id r) id).
  - unfold deleteReminder, setReminders. cbn [reminders].
    apply List.Forall_forall. intros r Hr. apply filter_In in Hr as [Hr _].
    now apply (proj1 (List.Forall_forall _ _) IH).
Qed.

Lemma reminders_stay_well_entered_witness :
  Forall well_entered
    (reminders
       (run (mount [Reminder.mk "rem-1" (code_units "Essay") "2025-01-10" false])
            [ChangeTitle (code_units "   "); ChangeDate "2025-02-01"; Add 2;
             ChangeTitle (code_units " Lab report "); Add 3])).
Proof.
  apply (reminders_stay_well_entered
           [Reminder.mk "rem-1" (code_units "Essay") "2025-01-10" false]
           [ChangeTitle (code_units "   "); ChangeDate "2025-02-01"; Add 2;
            ChangeTitle (code_units " Lab report "); Add 3]).
  constructor; [|constructor].
  split; [split; reflexivity|discriminate].
Defined.

End RemindersEntries.

(** ** [components/AttendanceTracker] *)

Section AttendanceFacts.

Import Js MoreProps AttendanceTracker.

#[local] Open Scope Z_scope.

Lemma plus_one_counted (a t : Z) (type : AttendanceType) :
  0 <= a <= t -> t <= 2 ^ 53 ->
  let a' := match type with attended => plus_one a | missed => a end in
  0 <= a' <= plus_one t /\ plus_one t <= 2 ^ 53.
Proof.
  intros Ha Ht. cbv zeta. unfold plus_one.
  remember (2 ^ 53) as M eqn:HM.
  assert (0 < M) by (subst M; reflexivity).
  destruct type; destruct (Z.ltb_spec t M); destruct (Z.ltb_spec a M); lia.
Qed.

(** X16.  The attendance counters stay sound.  If every stored subject has
    whole counters with [0 <= attended <= total <= 2^53] and a name that is
    not empty and carries no white space at either end, then so has every
    subject after any sequence of additions, marks and deletions: a mark
    raises [total], and [attended] with it when the class was attended,
    so the classes attended never exceed the classes held; a blank name
    adds no subject, and a name is stored trimmed. *)
Theorem attendance_stays_sound (stored : list Subject.t) (trace : list Event) :
  Forall sound_subject stored ->
  Forall sound_subject (subjects (run (mount stored) trace)).
Proof.
  intros Hs. induction trace as [|e trace IH] using rev_ind; [exact Hs|].
  unfold run in *. rewrite fold_left_app. cbn [fold_left].
  set (st := fold_left step trace (mount stored)) in *.
  destruct e as [value|now|id type|id confirm]; cbn [step subjects].
  - exact IH.
  - unfold addSubject.
    destruct (trim (newSubjectName st)) as [|c name] eqn:Ht; [exact IH|].
    cbn [subjects]. apply Forall_app. split; [exact IH|].
    constructor; [|constructor]. split.
    + unfold counted. cbn. split; [lia|]. discriminate.
    + now apply (trim_tidy (newSubjectName st)).
  - unfold updateAttendance. cbn [subjects].
    apply Forall_fmap. eapply Forall_impl; [exact IH|].
    intros s [[Ha Ht] Hn]. cbn.
    destruct (String.eqb (Subject.id s) id); [|now split].
    split; [|exact Hn]. unfold counted. cbn.
    exact (plus_one_counted _ _ type Ha Ht).
  - unfold deleteSubject. destruct confirm; [|exact IH]. cbn [subjects].
    apply List.Forall_forall. intros s Hin. apply filter_In in Hin as [Hin _].
    now apply (proj1 (List.Forall_forall _ _) IH).
Qed.

Lemma attendance_stays_sound_witness :
  Forall sound_subject
    (subjects
       (run (mount [Subject.mk "subj-1" (code_units "Physics") 3 4])
            [ChangeName (code_units " Algebra "); Add 5;
             Mark "subj-5" attended; Mark "subj-1" missed; Mark "subj-9" attended])).
Proof.
  apply (attendance_stays_sound
           [Subject.mk "subj-1" (code_units "Physics") 3 4]
           [ChangeName (code_units " Algebra "); Add 5;
            Mark "subj-5" attended; Mark "subj-1" missed; Mark "subj-9" attended]).
  constructor; [|constructor].
  split; [split; [cbn; lia|cbn; lia]|split; reflexivity].
Defined.

End AttendanceFacts.

(** ** [components/ProjectPlanner] *)

Section PlannerFacts.

Import Js MoreProps ProjectPlanner.

Variable readFileAsBase64 : File.t -> Thrown + string.
Variable is_url : string -> bool.

#[local] Abbreviation step := (ProjectPlanner.step readFileAsBase64 is_url).
#[local] Abbreviation run := (ProjectPlanner.run readFileAsBase64 is_url).

Lemma elem_of_filter_bool {A} (f : A -> bool) (l : list A) (x : A) :
  x ∈ List.filter f l <-> x ∈ l /\ f x = true.
Proof. rewrite !list_elem_of_In. apply filter_In. Qed.

(** Taking out the entries filed under one key leaves those filed under
    another key as they were. *)
Lemma filter_others {A} (key : A -> string) (id other : string) (l : list A) :
  other <> id ->
  List.filter (fun x => String.eqb (key x) other)
              (List.filter (fun x => negb (String.eqb (key x) id)) l)
  = List.filter (fun x => String.eqb (key x) other) l.
Proof.
  intros Hne. induction l as [|x l IH]; [reflexivity|]. cbn [List.filter].
  destruct (String.eqb (key x) id) eqn:E1; cbn [negb].
  - apply String.eqb_eq in E1.
    destruct (String.eqb (key x) other) eqn:E2; [|exact IH].
    apply String.eqb_eq in E2. congruence.
  - cbn [List.filter]. now rewrite IH.
Qed.

Lemma selectedProject_selected st p :
  selectedProject st = Some p ->
  selectedProjectId st = Some (Project.id p) /\ p ∈ projects st.
Proof.
  unfold selectedProject. destruct (selectedProjectId st) as [s|]; [|discriminate].
  intros H. apply find_some in H as [Hin Heq].
  apply String.eqb_eq in Heq. subst s. split; [reflexivity|].
  now apply list_elem_of_In.
Qed.

Lemma delete_project_fields id st :
  projects (handleDeleteProject id true st)
  = List.filter (fun p => negb (String.eqb (Project.id p) id)) (projects st)
  /\ tasks (handleDeleteProject id true st)
     = List.filter (fun t => negb (String.eqb (ProjectTask.projectId t) id)) (tasks st)
  /\ resources (handleDeleteProject id true st)
     = List.filter (fun r => negb (String.eqb (ProjectResource.projectId r) id))
                   (resources st)
  /\ running (handleDeleteProject id true st) = running st.
Proof. unfold handleDeleteProject. now destruct (selected_is id st). Qed.

(** After a confirmed deletion nothing of the project is left. *)
Lemma delete_project_removes id st :
  let st' := handleDeleteProject id true st in
  (id ∉ project_ids st')
  /\ (forall t, t ∈ tasks st' -> ProjectTask.projectId t <> id)
  /\ (forall r, r ∈ resources st' -> ProjectResource.projectId r <> id)
  /\ selectedProjectId st' <> Some id.
Proof.
  cbv zeta. destruct (delete_project_fields id st) as (Hp & Ht & Hr & _).
  repeat split.
  - unfold project_ids. rewrite Hp. intros Hin.
    apply list_elem_of_fmap in Hin as (p & -> & Hin).
    apply elem_of_filter_bool in Hin as [_ Hne].
    now rewrite String.eqb_refl in Hne.
  - intros t Hin <-. rewrite Ht in Hin.
    apply elem_of_filter_bool in Hin as [_ Hne].
    now rewrite String.eqb_refl in Hne.
  - intros r Hin <-. rewrite Hr in Hin.
    apply elem_of_filter_bool in Hin as [_ Hne].
    now rewrite String.eqb_refl in Hne.
  - unfold handleDeleteProject, selected_is.
    destruct (selectedProjectId st) as [s|] eqn:Hs; cbn; [|rewrite Hs; discriminate].
    destruct (String.eqb s id) eqn:E; cbn; [discriminate|].
    rewrite Hs. intros [= ->]. now rewrite String.eqb_refl in E.
Qed.

(** X17.  Deleting a project, once confirmed, takes with it every task
    and every resource of that project and nothing else: no project, task
    or resource of that id is left, the selection is not on it, and for
    every other project the tasks and resources that the panel shows for
    it are the same as before, in the same order.  Declined, the deletion
    changes nothing. *)
Theorem delete_project_cascades (id : string) (st : State) :
  let st' := handleDeleteProject id true st in
  ((id ∉ project_ids st')
   /\ (forall t, t ∈ tasks st' -> ProjectTask.projectId t <> id)
   /\ (forall r, r ∈ resources st' -> ProjectResource.projectId r <> id)
   /\ selectedProjectId st' <> Some id)
  /\ (forall other, other <> id ->
        List.filter (fun t => String.eqb (ProjectTask.projectId t) other) (tasks st')
        = List.filter (fun t => String.eqb (ProjectTask.projectId t) other) (tasks st)
        /\ List.filter (fun r => String.eqb (ProjectResource.projectId r) other)
                       (resources st')
           = List.filter (fun r => String.eqb (ProjectResource.projectId r) other)
                         (resources st))
  /\ handleDeleteProject id false st = st.
Proof.
  cbv zeta. split; [exact (delete_project_removes id st)|].
  split; [|reflexivity].
  destruct (delete_project_fields id st) as (_ & Ht & Hr & _).
  intros other Hne. rewrite Ht, Hr.
  split; now apply filter_others.
Qed.

Lemma truthy_id_some v s : truthy_id v = Some s -> v = Some s.
Proof.
  unfold truthy_id. destruct v as [x|]; [|discriminate].
  destruct (falsy x); [discriminate|]. now intros [= ->].
Qed.

Lemma integrity_add_resource st selected newResource now :
  planner_integrity st ->
  (forall s, selected = Some s -> s ∈ project_ids st) ->
  planner_integrity (handleAddResource selected newResource now st).
Proof.
  intros (Ht & Hr & Hs) Hsel. unfold handleAddResource.
  destruct (truthy_id selected) as [s|] eqn:E; [|now repeat split].
  apply truthy_id_some in E. repeat split; [exact Ht| |exact Hs].
  intros r Hin. cbn in Hin. apply elem_of_app in Hin as [Hin|Hin]; [now apply Hr|].
  apply list_elem_of_singleton in Hin. subst r. cbn. now apply Hsel.
Qed.

Lemma integrity_step st e :
  planner_integrity st -> running st = [] -> no_upload e = true ->
  planner_integrity (step st e) /\ running (step st e) = [].
Proof.
  intros Hinv Hrun Hne.
  pose proof Hinv as (Ht & Hr & Hs).
  assert (Hadd : forall idea now,
             planner_integrity (handleAddProject idea now st)).
  { intros idea now. unfold handleAddProject, planner_integrity, project_ids. cbn.
    repeat split.
    - intros t Hin. apply elem_of_cons. right. now apply Ht.
    - intros r Hin. apply elem_of_cons. right. now apply Hr.
    - intros s [= <-]. apply elem_of_cons. now left. }
  destruct e as [| |idea now|now|row|field value|confirm|now|id edit|id
                 |url name now|file|id|k now];
    cbn [ProjectPlanner.step]; try discriminate Hne.
  - now split.
  - now split.
  - destruct (isIdeaModalOpen st); [|now split].
    split; [|exact Hrun]. unfold handleUseIdea.
    destruct (Hadd (Some idea) now) as (H1 & H2 & H3). now repeat split.
  - split; [apply Hadd|exact Hrun].
  - destruct (projects st !! row) as [p|] eqn:E; [|now split].
    split; [|exact Hrun]. repeat split; [exact Ht|exact Hr|].
    cbn. intros s [= <-]. unfold project_ids.
    apply list_elem_of_fmap. exists p. split; [reflexivity|].
    now apply list_elem_of_lookup_2 in E.
  - unfold on_selected. destruct (selectedProject st) as [p|]; [|now split].
    split; [|exact Hrun].
    assert (Hids : project_ids (handleUpdateProject (Project.id p) field value st)
                   = project_ids st).
    { unfold project_ids, handleUpdateProject. cbn. rewrite map_map.
      apply map_ext. intros q. destruct (String.eqb (Project.id q) (Project.id p));
        [now destruct field|reflexivity]. }
    unfold planner_integrity. rewrite Hids. now repeat split.
  - unfold on_selected. destruct (selectedProject st) as [p|]; [|now split].
    destruct confirm; [|now split].
    set (id := Project.id p).
    assert (Hkeep : forall s, s ∈ project_ids st -> s <> id ->
                      s ∈ project_ids (handleDeleteProject id true st)).
    { intros s Hin Hneq. unfold project_ids in *.
      apply list_elem_of_fmap in Hin as (q & -> & Hin).
      apply list_elem_of_fmap. exists q. split; [reflexivity|].
      unfold handleDeleteProject. destruct (selected_is id st); cbn;
        apply elem_of_filter_bool; (split; [exact Hin|]);
        apply negb_true_iff, String.eqb_neq; exact Hneq. }
    destruct (delete_project_removes id st) as (_ & Hnt & Hnr & Hns).
    cbv zeta in Hnt, Hnr, Hns.
    split; [|unfold handleDeleteProject; now destruct (selected_is id st)].
    repeat split.
    + intros t Hin. apply Hkeep; [|now apply Hnt].
      apply Ht. unfold handleDeleteProject in Hin.
      destruct (selected_is id st); cbn in Hin;
        now apply elem_of_filter_bool in Hin as [Hin _].
    + intros r Hin. apply Hkeep; [|now apply Hnr].
      apply Hr. unfold handleDeleteProject in Hin.
      destruct (selected_is id st); cbn in Hin;
        now apply elem_of_filter_bool in Hin as [Hin _].
    + intros s Hsel. apply Hkeep; [|congruence].
      apply Hs. unfold handleDeleteProject in Hsel.
      destruct (selected_is id st); cbn in Hsel; [discriminate|exact Hsel].
  - unfold on_selected. destruct (selectedProject st) as [p|]; [|now split].
    split; [|unfold handleAddTask; now destruct (truthy_id _)].
    unfold handleAddTask.
    destruct (truthy_id (selectedProjectId st)) as [s|] eqn:E; [|exact Hinv].
    apply truthy_id_some in E. repeat split; [|exact Hr|exact Hs].
    intros t Hin. cbn in Hin. apply elem_of_app in Hin as [Hin|Hin]; [now apply Ht|].
    apply list_elem_of_singleton in Hin. subst t. cbn. now apply Hs.
  - unfold on_selected. destruct (selectedProject st) as [p|]; [|now split].
    split; [|exact Hrun]. repeat split; [|exact Hr|exact Hs].
    intros t Hin. cbn in Hin. apply list_elem_of_fmap in Hin as (t0 & -> & Hin).
    specialize (Ht t0 Hin).
    destruct (String.eqb (ProjectTask.id t0) id); [now destruct edit|exact Ht].
  - unfold on_selected. destruct (selectedProject st) as [p|]; [|now split].
    split; [|exact Hrun]. repeat split; [|exact Hr|exact Hs].
    intros t Hin. cbn in Hin. apply elem_of_filter_bool in Hin as [Hin _]. now apply Ht.
  - unfold on_selected. destruct (selectedProject st) as [p|]; [|now split].
    assert (Hres : forall n, planner_integrity
                               (handleAddResource (selectedProjectId st) n now st)
                             /\ running (handleAddResource (selectedProjectId st) n now st) = []).
    { intros n. split; [now apply integrity_add_resource|].
      unfold handleAddResource. now destruct (truthy_id _). }
    unfold handleAddLink.
    destruct url as [u|]; [|now split]. destruct (falsy u); [now split|].
    destruct (is_url u); [|now split].
    destruct name as [n|]; [|now split]. destruct (falsy n); [now split|].
    apply Hres.
  - unfold on_selected. destruct (selectedProject st) as [p|]; [|now split].
    split; [|exact Hrun]. repeat split; [exact Ht| |exact Hs].
    intros r Hin. cbn in Hin. apply elem_of_filter_bool in Hin as [Hin _]. now apply Hr.
  - unfold resume. rewrite Hrun. cbn. now split.
Qed.

(** X18.  The planner keeps its references whole.  Starting from a state
    where every task and every resource belongs to a project of the
    list, where the selection, if any, is a project of the list, and where
    no file upload is pending: after any sequence of actions other than
    file uploads (creating, selecting, editing and deleting projects,
    adding, editing and deleting tasks, adding links, deleting resources,
    using an idea) this is still so. *)
Theorem planner_keeps_references (st : State) (trace : list Event) :
  planner_integrity st -> running st = [] -> forallb no_upload trace = true ->
  planner_integrity (run st trace).
Proof.
  revert st. induction trace as [|e trace IH]; intros st Hinv Hrun Hne; [exact Hinv|].
  cbn [forallb] in Hne. apply andb_true_iff in Hne as [He Hne].
  destruct (integrity_step st e Hinv Hrun He) as [Hinv' Hrun'].
  now apply (IH (ProjectPlanner.step readFileAsBase64 is_url st e)).
Qed.

(** X19.  A file upload can outlive its project.  When a project is
    selected (its id not empty), a file is chosen, the project is deleted
    while the file is still being read, and the read then succeeds: the
    resource is added all the same, under the id of the project that no
    longer exists.  The upload handler adds to the project that was
    selected when the file was chosen. *)
Theorem upload_outlives_its_project (st : State) (p : Project.t) (f : File.t)
        (data : string) (now : N) :
  selectedProject st = Some p ->
  Project.id p <> EmptyString ->
  running st = [] ->
  readFileAsBase64 f = inr data ->
  let st' := run st [FileUpload (Some f); DeleteProject true; Resume 0 now] in
  (Project.id p ∉ project_ids st')
  /\ exists r, last (resources st') = Some r
               /\ ProjectResource.projectId r = Project.id p
               /\ ProjectResource.fileContent r = Some data.
Proof.
  intros Hsel Hid Hrun Hread. cbv zeta.
  destruct (selectedProject_selected st p Hsel) as [Hs Hin].
  unfold ProjectPlanner.run. cbn [fold_left].
  set (st1 := ProjectPlanner.step readFileAsBase64 is_url st (FileUpload (Some f))).
  assert (E1 : st1 = set_running [{| upload_file := f;
                                     upload_selectedProjectId := Some (Project.id p) |}] st).
  { unfold st1. cbn [ProjectPlanner.step]. unfold on_selected. rewrite Hsel.
    unfold handleFileUpload. now rewrite Hrun, Hs. }
  assert (Hsel1 : selectedProject st1 = Some p) by (rewrite E1; exact Hsel).
  set (st2 := ProjectPlanner.step readFileAsBase64 is_url st1 (DeleteProject true)).
  assert (E2 : st2 = handleDeleteProject (Project.id p) true st1).
  { unfold st2. cbn [ProjectPlanner.step]. unfold on_selected. now rewrite Hsel1. }
  destruct (delete_project_removes (Project.id p) st1) as (Hnp & _).
  cbv zeta in Hnp. rewrite <- E2 in Hnp.
  assert (Hrun2 : running st2 = [{| upload_file := f;
                                    upload_selectedProjectId := Some (Project.id p) |}]).
  { rewrite E2, E1. unfold handleDeleteProject. now destruct (selected_is _ _). }
  cbn [ProjectPlanner.step]. unfold resume. rewrite Hrun2.
  cbn [lookup list_lookup upload_file upload_selectedProjectId]. rewrite Hread.
  unfold handleAddResource, truthy_id.
  destruct (falsy (Project.id p)) eqn:Hf.
  { destruct (Project.id p); [congruence|discriminate]. }
  split.
  - exact Hnp.
  - eexists. cbn [resources setResources set_running]. rewrite last_snoc.
    split; [reflexivity|]. now split.
Qed.

End PlannerFacts.

Section PlannerWitnesses.

Import Js MoreProps PanelProps ProjectPlanner.

Lemma planner_keeps_references_witness :
  planner_integrity
    (ProjectPlanner.run unreadable (fun _ => true) mount
       [AddProject 10; AddTask 11; AddLink (Some "https://a.example") (Some "A") 12;
        AddProject 13; Select 1; DeleteProject true]).
Proof.
  apply (planner_keeps_references unreadable (fun _ => true) mount
           [AddProject 10; AddTask 11; AddLink (Some "https://a.example") (Some "A") 12;
            AddProject 13; Select 1; DeleteProject true]).
  - repeat split; intros x Hx; cbn in Hx; try discriminate Hx;
      now apply elem_of_nil in Hx.
  - reflexivity.
  - reflexivity.
Defined.

Lemma upload_outlives_its_project_witness :
  let st' :=
    ProjectPlanner.run (reads "QUJD") (fun _ => true)
      (handleAddProject None 10 mount)
      [FileUpload (Some (File.mk "plan.pdf" "application/pdf" 0));
       DeleteProject true; Resume 0 11] in
  ("proj-10" ∉ project_ids st')
  /\ exists r, last (resources st') = Some r
               /\ ProjectResource.projectId r = "proj-10"
               /\ ProjectResource.fileContent r = Some "QUJD".
Proof.
  apply (upload_outlives_its_project (reads "QUJD") (fun _ => true)
           (handleAddProject None 10 mount)
           (Project.mk "proj-10" "New Project" "Project description here." EmptyString)
           (File.mk "plan.pdf" "application/pdf" 0) "QUJD" 11).
  - reflexivity.
  - discriminate.
  - reflexivity.
  - reflexivity.
Defined.

End PlannerWitnesses.

(** ** [components/Summarizer] *)

Section SummarizerFacts.

Import Js Chat MoreProps Summarizer.

Variable apiKey : option string.
Variable remote : Gateway.Remote.
Variable me : nat.
Variable readFileAsBase64 : File.t -> Thrown + string.
Variable marked_parse : string -> string.

Lemma summarizer_inv_step st e :
  summarizer_inv st ->
  summarizer_inv (Summarizer.step apiKey remote me readFileAsBase64 st e).
Proof.
  intros Hinv. destruct e as [value|file| | |e|k]; cbn [Summarizer.step].
  - destruct (crashed st || isLoading st); exact Hinv.
  - destruct (crashed st); [exact Hinv|]. now destruct file.
  - destruct (crashed st); [exact Hinv|]. cbn [orb].
    destruct (isLoading st) eqn:Hl; [exact Hinv|].
    destruct Hinv as [[Hr _]|(c & _ & Hc)]; [|congruence].
    unfold handleSummarize.
    destruct (blank (inputText st) && _); [left; now split|].
    right. destruct (selectedFile st); cbn; rewrite Hr; eexists; now split.
  - destruct (no_summary st || isLoading st); [exact Hinv|].
    unfold handleToggleSpeech.
    destruct (Speech.isSpeaking me (synth st)); [exact Hinv|].
    now destruct (summary st).
  - exact Hinv.
  - unfold resume. destruct Hinv as [[Hr Hl]|(c & Hr & Hl)].
    + rewrite Hr. cbn. left. now split.
    + rewrite Hr. destruct k as [|k]; cbn [lookup list_lookup].
      * destruct c as [text f|[err|result]].
        -- destruct (readFileAsBase64 f).
           ++ left. cbn. now split.
           ++ right. cbn. eexists. now split.
        -- left. cbn. now split.
        -- left. cbn. now split.
      * right. exists c. now split.
Qed.

(** X20.  In every state the summarizer can reach from its first render
    it is loading exactly while a call of [handleSummarize] is suspended,
    and there is never more than one such call. *)
Theorem one_summary_at_a_time (page : Speech.Synth) (trace : list Event) :
  summarizer_inv (Summarizer.run apiKey remote me readFileAsBase64 (mount page) trace).
Proof.
  induction trace as [|e trace IH] using rev_ind.
  - left. now split.
  - unfold Summarizer.run in *. rewrite fold_left_app. cbn [fold_left].
    now apply summarizer_inv_step.
Qed.

(** X21.  A summary request always ends the loading.  From an idle
    summarizer that is on the page, with some text or a file, a click and the (at most two)
    resumptions of the call leave the panel not loading and with no call
    pending, whatever happens on the way.  When the file cannot be read
    the summary is empty and the error is "Failed to read the uploaded
    file.".  Otherwise the service is called with the text and, if there
    is one, the file's data and type; a rejected call leaves an empty
    summary and the error "Failed to generate summary: ..."; a reply with
    text leaves that text as the summary, which the render passes to
    [marked.parse], and no error; a reply without text leaves [undefined]
    as the summary and no error, and then the render throws: [marked.parse]
    is given [undefined]. *)
Theorem summary_request_settles (st : State) :
  crashed st = false ->
  isLoading st = false ->
  running st = [] ->
  blank (inputText st) && match selectedFile st with Some _ => false | None => true end
  = false ->
  let st' :=
    Summarizer.run apiKey remote me readFileAsBase64 st
      [ClickSummarize; Resume 0; Resume 0] in
  isLoading st' = false
  /\ running st' = []
  /\ match selectedFile st with
     | Some f =>
         match readFileAsBase64 f with
         | inl _ =>
             summary st' = Some EmptyString
             /\ error st' = "Failed to read the uploaded file."
         | inr data =>
             summary_outcome marked_parse
               (Gateway.run remote
                  (Gateway.summarizeText apiKey (inputText st) (Some (data, File.type f))))
               st'
         end
     | None =>
         summary_outcome marked_parse
           (Gateway.run remote (Gateway.summarizeText apiKey (inputText st) None)) st'
     end.
Proof.
  intros Hc Hl Hr Hg. cbv zeta.
  unfold Summarizer.run. cbn [fold_left Summarizer.step]. rewrite Hc, Hl. cbn [orb].
  unfold handleSummarize. rewrite Hg.
  destruct (selectedFile st) as [f|] eqn:Hf.
  - unfold resume at 2. cbn. rewrite Hr. cbn.
    destruct (readFileAsBase64 f) as [err|data].
    + unfold resume. cbn. now repeat split.
    + unfold resume. cbn.
      destruct (Gateway.run remote _) as [err|[text|]]; cbn; now repeat split.
  - unfold resume at 2. cbn. rewrite Hr. cbn.
    destruct (Gateway.run remote _) as [err|[text|]]; cbn;
      unfold resume; cbn; now repeat split.
Qed.

End SummarizerFacts.

(** ** [AIIdeaModal] *)

Section IdeaModalFacts.

Import Js Chat Gateway GatewayProps MoreProps AIIdeaModal.

Variable me : nat.

(** X22.  What the idea dialog keeps of a request.  From an idle dialog
    that is on the page, with interests entered, a click and the
    resumption of the call leave its state not loading, with no call
    pending, and: without a credential, the empty list as [ideas] and
    "API key is missing." as [error], as it is, without a prefix; with a
    credential and a reply that is not JSON, the empty list and the
    invalid-format error of the service; with a reply that is JSON, that
    value as [ideas], whatever its shape, and an empty [error].  This is
    about the state: the handler stores the parsed value unchecked, and
    a value that [list_renders] refuses makes the next render throw. *)
Theorem idea_dialog_stores_the_outcome apiKey (raw : string) (st : State) :
  list_renders st = true ->
  isLoading st = false ->
  running st = [] ->
  blank (interests st) = false ->
  let st' := AIIdeaModal.run apiKey (replying raw) me st [ClickGenerate; Resume 0] in
  isLoading st' = false
  /\ running st' = []
  /\ (if no_apiKey apiKey
      then ideas st' = Json.JArray [] /\ error st' = "API key is missing."
      else match Json.parse (trim (code_units raw)) with
           | Some v => ideas st' = v /\ error st' = EmptyString
           | None =>
               ideas st' = Json.JArray []
               /\ error st'
                  = "The AI returned an invalid project idea format. Please try again."
           end).
Proof.
  intros Hs Hl Hr Hb. cbv zeta.
  unfold AIIdeaModal.run. cbn [fold_left AIIdeaModal.step]. rewrite Hs, Hl.
  cbn [andb negb]. unfold handleGenerate. rewrite Hb.
  unfold resume. cbn [running set_running set_synth setIdeas setError setIsLoading].
  rewrite Hr. cbn [app lookup list_lookup].
  unfold getProjectIdeas.
  destruct (no_apiKey apiKey).
  - cbn. now repeat split.
  - cbn [Gateway.run replying]. unfold parse_reply. cbn [text].
    destruct (Json.parse _); cbn; now repeat split.
Qed.

End IdeaModalFacts.

Section IdeaModalWitness.

Import Js Chat Gateway GatewayProps MoreProps AIIdeaModal.

Lemma idea_dialog_stores_the_outcome_witness :
  let st' :=
    AIIdeaModal.run (Some "key") (replying (source "{'title': 7}")) 0
      (setInterests "robots" (mount (Speech.synth_init true)))
      [ClickGenerate; Resume 0] in
  ideas st' = Json.JObject [(code_units "title", Json.JNumber (code_units "7"))]
  /\ error st' = EmptyString
  /\ list_renders st' = false.
Proof.
  cbv zeta.
  pose proof (idea_dialog_stores_the_outcome 0 (Some "key") (source "{'title': 7}")
                (setInterests "robots" (mount (Speech.synth_init true)))
                eq_refl eq_refl eq_refl eq_refl) as (_ & _ & H).
  split; [exact (proj1 H)|]. split; [exact (proj2 H)|]. reflexivity.
Defined.

End IdeaModalWitness.

Section SummarizerWitnesses.

Import Js Chat GatewayProps MoreProps PanelProps Summarizer.

Lemma summary_request_settles_witness :
  let st' :=
    Summarizer.run (Some "key") replying_nothing 0 unreadable
      (setInputText "A long text." (mount (Speech.synth_init true)))
      [ClickSummarize; Resume 0; Resume 0] in
  isLoading st' = false
  /\ summary st' = None
  /\ error st' = EmptyString
  /\ renderedSummary (fun text => text) st' = None.
Proof.
  pose proof (summary_request_settles (Some "key") replying_nothing 0 unreadable
                (fun text => text)
                (setInputText "A long text." (mount (Speech.synth_init true)))
                eq_refl eq_refl eq_refl eq_refl) as (H1 & _ & H3).
  split; [exact H1|exact H3].
Defined.

End SummarizerWitnesses.

(** ** [components/QuizGenerator] *)

Section QuizFacts.

Import MoreProps QuizGenerator.

Variable me : nat.
Variable same_number : list N -> list N -> bool.

Lemma forEach_score_bounds answers i qs n s :
  forEach_score same_number answers i qs n = Some s -> n <= s <= n + length qs.
Proof.
  revert i n. induction qs as [|q qs IH]; intros i n; cbn [forEach_score length].
  - intros [= <-]. lia.
  - destruct (property "correctAnswer" q) as [c|]; [|discriminate].
    intros H. apply IH in H.
    destruct (strict_equal same_number (answers !! i) c); lia.
Qed.

Lemma forEach_score_full answers i qs n s :
  forEach_score same_number answers i qs n = Some s ->
  (s = n + length qs <->
   forall j q, qs !! j = Some q ->
               exists c, property "correctAnswer" q = Some c
                         /\ strict_equal same_number (answers !! (i + j)) c = true).
Proof.
  revert i n. induction qs as [|q qs IH]; intros i n; cbn [forEach_score length].
  - intros [= <-]. split; [|lia]. intros _ j q H. discriminate H.
  - destruct (property "correctAnswer" q) as [c|] eqn:Ec; [|discriminate].
    intros H. destruct (strict_equal same_number (answers !! i) c) eqn:Hc.
    + replace (n + S (length qs)) with (S n + length qs) by lia.
      rewrite (IH _ _ H). split.
      * intros Hall [|j] q' Hq; cbn in Hq.
        -- injection Hq as <-. exists c. now rewrite Nat.add_0_r.
        -- rewrite Nat.add_succ_r. now apply (Hall j q').
      * intros Hall j q' Hq. specialize (Hall (S j) q' Hq).
        now rewrite Nat.add_succ_r in Hall.
    + split.
      * pose proof (forEach_score_bounds _ _ _ _ _ H). lia.
      * intros Hall. destruct (Hall 0 q eq_refl) as (c' & Ec' & Hc').
        rewrite Nat.add_0_r in Hc'. congruence.
Qed.

Lemma forEach_score_objects answers i qs n :
  (forall q, q ∈ qs -> q <> Json.JNull) ->
  exists s, forEach_score same_number answers i qs n = Some s.
Proof.
  revert i n. induction qs as [|q qs IH]; intros i n H; cbn [forEach_score].
  - now exists n.
  - assert (Hq : q <> Json.JNull) by (apply H; left).
    destruct (property "correctAnswer" q) as [c|] eqn:Ec.
    + apply IH. intros q' Hin. apply H. now right.
    + destruct q; cbn in Ec; congruence.
Qed.

(** A question of a quiz of the declared shape is an object that states
    its correct answer as a string. *)
Lemma conforming_question qs q :
  GatewayProps.conforms Gateway.quizSchema (Json.JArray qs) = true ->
  q ∈ qs ->
  exists c, property "correctAnswer" q = Some (Some (Json.JString c)).
Proof.
  cbn [GatewayProps.conforms Gateway.quizSchema]. intros H Hin.
  rewrite forallb_forall in H. specialize (H q). rewrite <- list_elem_of_In in H.
  specialize (H Hin). destruct q as [| | | | |fields]; try discriminate H.
  cbn [GatewayProps.conforms] in H. apply andb_prop in H as [Hreq Hprop].
  cbn [forallb fst snd] in Hreq, Hprop. cbn [property].
  destruct (Json.get (Js.code_units "correctAnswer") fields) as [x|].
  - destruct x; cbn [GatewayProps.conforms] in Hprop;
      rewrite ?andb_false_r in Hprop; try discriminate Hprop.
    now eexists.
  - rewrite ?andb_false_r in Hreq. discriminate Hreq.
Qed.

Lemma strict_equal_string answer c :
  strict_equal same_number answer (Some (Json.JString c)) = true <->
  answer = Some (Json.JString c).
Proof.
  destruct answer as [[| | |s| |]|]; cbn; try (split; [discriminate|congruence]).
  rewrite bool_decide_eq_true. split; congruence.
Qed.

(** X23.  The score of a quiz of the declared shape.  When the stored
    quiz conforms to the quiz schema, submitting it marks it submitted
    with a score that is at most the number of questions, and that is the
    full number exactly when every question has a recorded answer equal
    to the correct answer it states: there a question left unanswered
    never counts. *)
Theorem full_score_means_all_correct (st : State) :
  GatewayProps.conforms Gateway.quizSchema (questions st) = true ->
  let st' := handleSubmitQuiz me same_number st in
  submitted st' = true
  /\ score st' <= length (items (questions st))
  /\ (score st' = length (items (questions st)) <->
      forall i q, items (questions st) !! i = Some q ->
                  exists c, property "correctAnswer" q = Some (Some (Json.JString c))
                            /\ userAnswers st !! i = Some (Json.JString c)).
Proof.
  intros Hc. cbv zeta. unfold handleSubmitQuiz.
  destruct (questions st) as [| | | |qs|] eqn:Eq; try discriminate Hc.
  cbn [items].
  destruct (forEach_score_objects (userAnswers st) 0 qs 0) as [s Hs].
  { intros q Hin. destruct (conforming_question qs q Hc Hin) as [c Hq].
    intros ->. discriminate Hq. }
  rewrite Hs. cbn [submitted score]. split; [reflexivity|]. split.
  - pose proof (forEach_score_bounds _ _ _ _ _ Hs). lia.
  - rewrite (forEach_score_full _ _ _ _ _ Hs). cbn [Nat.add]. split.
    + intros H i q Hi. destruct (H i q Hi) as (c0 & Hc0 & Heq).
      destruct (conforming_question qs q Hc) as [c Hq].
      { now apply list_elem_of_lookup_2 in Hi. }
      exists c. split; [exact Hq|].
      rewrite Hq in Hc0. injection Hc0 as <-. now apply strict_equal_string.
    + intros H i q Hi. destruct (H i q Hi) as (c & Hq & Ha).
      exists (Some (Json.JString c)). split; [exact Hq|].
      now apply strict_equal_string.
Qed.

Lemma forEach_score_scorable answers i qs n s :
  (forall j q a, qs !! j = Some q -> answers !! (i + j) = Some a ->
                 exists opts, property "options" q = Some (Some (Json.JArray opts))
                              /\ a ∈ opts) ->
  forEach_score same_number answers i qs n = Some s ->
  s <= n + length (List.filter (scorable same_number) qs).
Proof.
  revert i n. induction qs as [|q qs IH]; intros i n H; cbn [forEach_score].
  - intros [= <-]. cbn. lia.
  - assert (Hrest : forall j q' a, qs !! j = Some q' -> answers !! (S i + j) = Some a ->
                                   exists opts,
                                     property "options" q' = Some (Some (Json.JArray opts))
                                     /\ a ∈ opts).
    { intros j q' a Hq Ha. apply (H (S j) q' a Hq). now rewrite Nat.add_succ_r. }
    cbn [List.filter].
    destruct (property "correctAnswer" q) as [c|] eqn:Ec; [|discriminate].
    destruct (strict_equal same_number (answers !! i) c) eqn:Hc; intros Hs.
    + assert (Ha : scorable same_number q = true).
      { unfold scorable. rewrite Ec.
        destruct (answers !! i) as [a|] eqn:Ea.
        - destruct (H 0 q a eq_refl) as (opts & Eo & Hin);
            [now rewrite Nat.add_0_r|].
          destruct c as [c|]; [|destruct a; discriminate Hc].
          rewrite Eo. apply existsb_exists. exists a.
          split; [now apply list_elem_of_In|exact Hc].
        - destruct c as [c|]; [discriminate Hc|reflexivity]. }
      rewrite Ha. cbn [length]. specialize (IH (S i) (S n) Hrest Hs). lia.
    + specialize (IH (S i) n Hrest Hs).
      destruct (scorable same_number q); cbn [length]; lia.
Qed.

(** X24.  Answers come from the options.  From the arrival of a quiz on,
    whatever the reply was, whatever is chosen and whenever it is
    submitted: the questions stay as they arrived, every recorded answer
    is a member of the options of its question, and the score never
    exceeds the number of questions that can be scored at all, those
    whose correct answer is strictly equal to one of their options and
    those that state no correct answer (which count when nothing is
    chosen). *)
Theorem answers_come_from_the_options
        (result : Json.json) (page : Speech.Synth) (trace : list Event) :
  let st := QuizGenerator.run me same_number (quiz_arrived result page) trace in
  questions st = result
  /\ answers_from_options st
  /\ score st <= length (List.filter (scorable same_number) (items result)).
Proof.
  cbv zeta. induction trace as [|e trace IH] using rev_ind.
  - cbn. repeat split; [|lia]. intros i a Ha. cbn in Ha.
    rewrite lookup_empty in Ha. discriminate.
  - unfold QuizGenerator.run in *. rewrite fold_left_app. cbn [fold_left].
    set (st := fold_left (QuizGenerator.step me same_number) trace
                         (quiz_arrived result page)) in *.
    destruct IH as (Hq & Ha & Hs).
    destruct e as [qIndex oIndex|].
    + assert (Hcase : QuizGenerator.step me same_number st (Choose qIndex oIndex) = st
                      \/ exists qs q opts o,
                           questions st = Json.JArray qs
                           /\ qs !! qIndex = Some q
                           /\ property "options" q = Some (Some (Json.JArray opts))
                           /\ opts !! oIndex = Some o
                           /\ QuizGenerator.step me same_number st (Choose qIndex oIndex)
                              = handleAnswerChange qIndex o st).
      { cbn [QuizGenerator.step]. destruct (submitted st); [now left|].
        destruct (quiz_shown st); [|now left].
        destruct (questions st) as [| | | |qs|]; try now left.
        destruct (qs !! qIndex) as [q|] eqn:Eq; [|now left].
        destruct (property "options" q) as [[[| | | |opts|]|]|] eqn:Eo; try now left.
        destruct (opts !! oIndex) as [o|] eqn:Ei; [|now left].
        right. now exists qs, q, opts, o. }
      destruct Hcase as [-> | (qs & q & opts & o & Eqs & Eq & Eo & Ei & ->)];
        [now repeat split|].
      repeat split; [exact Hq| |exact Hs].
      intros i a Hi. cbn in Hi.
      destruct (decide (qIndex = i)) as [->|Hne].
      * rewrite lookup_insert_eq in Hi. injection Hi as <-.
        exists q, opts. cbn [questions handleAnswerChange]. rewrite Eqs.
        repeat split; [exact Eq|exact Eo|]. now apply list_elem_of_lookup_2 in Ei.
      * rewrite lookup_insert_ne in Hi by exact Hne. now apply Ha.
    + assert (Hcase : QuizGenerator.step me same_number st Submit = st
                      \/ exists qs s,
                           questions st = Json.JArray qs
                           /\ forEach_score same_number (userAnswers st) 0 qs 0 = Some s
                           /\ score (QuizGenerator.step me same_number st Submit) = s
                           /\ questions (QuizGenerator.step me same_number st Submit)
                              = questions st
                           /\ userAnswers (QuizGenerator.step me same_number st Submit)
                              = userAnswers st).
      { cbn [QuizGenerator.step]. destruct (submitted st); [now left|].
        destruct (quiz_shown st); [|now left].
        unfold handleSubmitQuiz.
        destruct (questions st) as [| | | |qs|] eqn:Eqs; try now left.
        destruct (forEach_score same_number (userAnswers st) 0 qs 0) as [s|] eqn:Es;
          [|now left].
        right. exists qs, s. cbn. repeat split; assumption. }
      destruct Hcase as [-> | (qs & s & Eqs & Es & Escore & Equestions & Eanswers)];
        [now repeat split|].
      repeat split.
      * now rewrite Equestions.
      * unfold answers_from_options. rewrite Equestions, Eanswers. exact Ha.
      * rewrite Escore. rewrite <- Hq, Eqs. cbn [items].
        apply (forEach_score_scorable (userAnswers st) 0 qs 0 s); [|exact Es].
        intros j q a Hj Hans. cbn [Nat.add] in Hans.
        destruct (Ha j a Hans) as (q' & opts & Hq' & Eo & Hin).
        rewrite Eqs in Hq'. cbn [items] in Hq'.
        exists opts. split; [congruence|exact Hin].
Qed.

End QuizFacts.

Section QuizWitnesses.

Import MoreProps QuizGenerator.

Lemma full_score_means_all_correct_witness :
  let st := handleAnswerChange 0 (Json.JString (Js.code_units "4"))
              (quiz_arrived sample_quiz (Speech.synth_init true)) in
  let st' := handleSubmitQuiz 0 same_lexeme st in
  GatewayProps.conforms Gateway.quizSchema (questions st) = true
  /\ submitted st' = true
  /\ score st' <= length (items (questions st))
  /\ (score st' = length (items (questions st)) <->
      forall i q, items (questions st) !! i = Some q ->
                  exists c, property "correctAnswer" q = Some (Some (Json.JString c))
                            /\ userAnswers st !! i = Some (Json.JString c)).
Proof.
  cbv zeta. split; [vm_compute; reflexivity|].
  apply (full_score_means_all_correct 0 same_lexeme
           (handleAnswerChange 0 (Json.JString (Js.code_units "4"))
              (quiz_arrived sample_quiz (Speech.synth_init true)))).
  vm_compute. reflexivity.
Defined.

(** A reply that the service passes on although it states no correct
    answer: submitted with nothing chosen, its one question counts. *)
Example unanswered_question_counts_without_correct_answer :
  let st := QuizGenerator.run 0 same_lexeme
              (quiz_arrived unkeyed_quiz (Speech.synth_init true)) [Submit] in
  quiz_shown (quiz_arrived unkeyed_quiz (Speech.synth_init true)) = true
  /\ submitted st = true
  /\ userAnswers st = ∅
  /\ score st = 1
  /\ GatewayProps.conforms Gateway.quizSchema unkeyed_quiz = false.
Proof.
  cbv zeta. repeat split; vm_compute; reflexivity.
Qed.

End QuizWitnesses.

(** ** [components/SkillTracker] *)

Section SkillTrackerFacts.

Import Js MoreProps SkillTracker.

Lemma code_units_inj (a b : string) : code_units a = code_units b -> a = b.
Proof.
  revert b. induction a as [|x a IH]; intros [|y b] H; try discriminate; [reflexivity|].
  cbn in H. injection H as Hxy Hab.
  f_equal; [|now apply IH].
  rewrite <- (ascii_N_embedding x), <- (ascii_N_embedding y). now rewrite Hxy.
Qed.

Lemma reminder_title_inj g1 g2 :
  reminder_title g1 = reminder_title g2 -> SkillGoal.title g1 = SkillGoal.title g2.
Proof.
  unfold reminder_title. intros H. apply code_units_inj in H.
  now apply append_cancel_l in H.
Qed.

Lemma titled_after_add goal st :
  existsb (fun r => bool_decide (Reminder.title r = reminder_title goal))
          (reminders (handleAddReminder goal st)) = true.
Proof.
  unfold handleAddReminder.
  destruct (existsb _ (reminders st)) eqn:E; [exact E|].
  cbn [reminders showNotification setReminders].
  rewrite existsb_app. cbn. rewrite bool_decide_eq_true_2 by reflexivity.
  now rewrite orb_true_r.
Qed.

(** X25.  A goal gets one reminder per title.  Asking for the reminder of
    a goal a second time, or for the reminder of another goal with the
    same title, adds nothing: the check is made on the title of the
    reminder, which is made from the title of the goal. *)
Theorem one_reminder_per_goal_title (g1 g2 : SkillGoal.t) (st : State) :
  SkillGoal.title g1 = SkillGoal.title g2 ->
  reminders (handleAddReminder g2 (handleAddReminder g1 st))
  = reminders (handleAddReminder g1 st).
Proof.
  intros Ht. pose proof (titled_after_add g1 st) as H.
  unfold handleAddReminder at 1.
  assert (E : reminder_title g2 = reminder_title g1)
    by (unfold reminder_title; now rewrite Ht).
  rewrite E, H. reflexivity.
Qed.

Lemma one_reminder_per_goal_title_witness :
  let g := SkillGoal.mk "goal-1" "Rust" "Learn it" "2025-06-01" SkillGoal.InProgress in
  let g' := SkillGoal.mk "goal-2" "Rust" "Again" "2025-07-01" SkillGoal.InProgress in
  let st := {| goals := [g'; g]; reminders := []; selectedGoalId := None;
               notification := EmptyString |} in
  reminders (handleAddReminder g' (handleAddReminder g st))
  = reminders (handleAddReminder g st).
Proof.
  cbv zeta.
  apply (one_reminder_per_goal_title
           (SkillGoal.mk "goal-1" "Rust" "Learn it" "2025-06-01" SkillGoal.InProgress)
           (SkillGoal.mk "goal-2" "Rust" "Again" "2025-07-01" SkillGoal.InProgress)).
  reflexivity.
Defined.

(** X26.  A renamed goal gets a second reminder under the same id.  When
    no reminder bears the title of a goal, nor the title it is about to
    get: asking for its reminder, renaming the goal, and asking again adds
    two reminders, one per title, and both carry the id made from the id
    of the goal. *)
Theorem renamed_goal_reminder_shares_id (goal : SkillGoal.t) (title' : string) (st : State) :
  let renamed := edit_goal (goal_title title') goal in
  title' <> SkillGoal.title goal ->
  (forall r, r ∈ reminders st ->
             Reminder.title r <> reminder_title goal
             /\ Reminder.title r <> reminder_title renamed) ->
  exists r1 r2,
    reminders (handleAddReminder renamed (handleAddReminder goal st))
    = reminders st ++ [r1; r2]
    /\ Reminder.id r1 = "rem-skill-" +:+ SkillGoal.id goal
    /\ Reminder.id r2 = "rem-skill-" +:+ SkillGoal.id goal
    /\ Reminder.title r1 = reminder_title goal
    /\ Reminder.title r2 = reminder_title renamed.
Proof.
  cbv zeta. intros Hne Hfree.
  assert (Hno : forall g, (forall r, r ∈ reminders st -> Reminder.title r <> reminder_title g) ->
                  existsb (fun r => bool_decide (Reminder.title r = reminder_title g))
                          (reminders st) = false).
  { intros g Hg. apply not_true_is_false. intros Hex.
    apply existsb_exists in Hex as (r & Hin & Hd).
    apply bool_decide_eq_true_1 in Hd. apply list_elem_of_In in Hin.
    now apply (Hg r Hin). }
  assert (E1 : reminders (handleAddReminder goal st)
               = reminders st ++ [Reminder.mk ("rem-skill-" +:+ SkillGoal.id goal)
                                              (reminder_title goal)
                                              (SkillGoal.targetDate goal) false]).
  { unfold handleAddReminder. rewrite Hno; [reflexivity|].
    intros r Hr. now apply Hfree. }
  remember (handleAddReminder goal st) as s1 eqn:Es1. clear Es1.
  eexists _, _. split.
  - unfold handleAddReminder. rewrite E1, existsb_app.
    rewrite Hno by (intros r Hr; now apply Hfree).
    cbn [existsb orb Reminder.title].
    rewrite bool_decide_eq_false_2.
    + cbn [orb reminders showNotification setReminders]. rewrite E1.
      rewrite <- app_assoc. reflexivity.
    + intros E. apply reminder_title_inj in E. cbn in E. congruence.
  - repeat split; reflexivity.
Qed.

Lemma renamed_goal_reminder_shares_id_witness :
  let goal := SkillGoal.mk "goal-1" "Rust" "Learn it" "2025-06-01" SkillGoal.InProgress in
  let st := {| goals := [goal]; reminders := []; selectedGoalId := None;
               notification := EmptyString |} in
  exists r1 r2,
    reminders (handleAddReminder (edit_goal (goal_title "Rust basics") goal)
                                 (handleAddReminder goal st))
    = [r1; r2]
    /\ Reminder.id r1 = "rem-skill-goal-1"
    /\ Reminder.id r2 = "rem-skill-goal-1".
Proof.
  cbv zeta.
  destruct (renamed_goal_reminder_shares_id
              (SkillGoal.mk "goal-1" "Rust" "Learn it" "2025-06-01" SkillGoal.InProgress)
              "Rust basics"
              {| goals := [SkillGoal.mk "goal-1" "Rust" "Learn it" "2025-06-01"
                                        SkillGoal.InProgress];
                 reminders := []; selectedGoalId := None; notification := EmptyString |})
    as (r1 & r2 & E & H1 & H2 & _).
  - discriminate.
  - intros r Hr. cbn in Hr. now apply elem_of_nil in Hr.
  - exists r1, r2. split; [exact E|]. split; [exact H1|exact H2].
Defined.

End SkillTrackerFacts.

(** ** The explainer and a file that cannot be read *)

Section ExplainerStuck.

Import Js Chat MoreProps Explainer.

Variable apiKey : option string.
Variable remote : Gateway.Remote.
Variable SpeechRecognition : bool.
Variable me : nat.
Variable readFileAsBase64 : File.t -> Thrown + string.

#[local] Abbreviation estep := (Explainer.step apiKey remote SpeechRecognition me readFileAsBase64).
#[local] Abbreviation erun := (Explainer.run apiKey remote SpeechRecognition me readFileAsBase64).

(** Loading with no call left to end it: nothing gets the panel out. *)
Lemma explainer_stuck_step st e :
  isLoading st = true -> running st = [] ->
  isLoading (estep st e) = true
  /\ running (estep st e) = []
  /\ messages (estep st e) = messages st.
Proof.
  intros Hl Hr. destruct e as [now1 now2|now1 now2|value|f| |e|e|k];
    cbn [Explainer.step].
  - unfold ChatInput.send_disabled. rewrite Hl. now cbn.
  - now rewrite Hl.
  - now rewrite Hl.
  - now cbn.
  - now cbn.
  - now cbn.
  - now cbn.
  - unfold resume. rewrite Hr. now cbn.
Qed.

Lemma explainer_stuck_run trace st :
  isLoading st = true -> running st = [] ->
  isLoading (erun st trace) = true
  /\ running (erun st trace) = []
  /\ messages (erun st trace) = messages st.
Proof.
  revert st. induction trace as [|e trace IH]; intros st Hl Hr; [now repeat split|].
  destruct (explainer_stuck_step st e Hl Hr) as (Hl' & Hr' & Hm').
  destruct (IH _ Hl' Hr') as (H1 & H2 & H3).
  unfold Explainer.run in *. cbn [fold_left]. repeat split; [exact H1|exact H2|].
  now rewrite H3.
Qed.

(** X27.  In the explainer a file that cannot be read blocks the panel for
    good.  From an idle panel with a file selected, a click on send and
    the failure of the read leave the panel loading with no call left to
    end the loading; and then, whatever the user, the recognition, the
    synthesis or a resumption does afterwards, the panel stays loading,
    sends nothing and gets no new message.  (The read is awaited before
    the [try] whose [finally] clears the loading.) *)
Theorem unreadable_file_blocks_the_explainer
        (st : State) (f : File.t) (err : Thrown) (now1 now2 : N) (later : list Event) :
  isLoading st = false ->
  running st = [] ->
  ChatInput.selectedFile (Speech.app (chatInput st)) = Some f ->
  readFileAsBase64 f = inl err ->
  let st' := erun st ([ClickSend now1 now2; Resume 0] ++ later) in
  isLoading st' = true /\ running st' = [] /\ messages st' = messages st.
Proof.
  intros Hl Hr Hf Hread. cbv zeta.
  unfold Explainer.run. rewrite fold_left_app.
  set (st2 := fold_left _ [ClickSend now1 now2; Resume 0] st).
  assert (H2 : isLoading st2 = true /\ running st2 = [] /\ messages st2 = messages st).
  { unfold st2. cbn [fold_left Explainer.step].
    unfold ChatInput.send_disabled, handleSend, ChatInput.may_send.
    rewrite Hl, Hf. cbn [orb andb negb].
    rewrite andb_false_r, orb_true_r. cbn [andb].
    unfold handleSendMessage. unfold resume.
    cbn [running set_chatInput set_running set_synth setIsLoading].
    rewrite Hr. cbn [app lookup list_lookup]. rewrite Hread.
    now cbn. }
  destruct H2 as (Hl2 & Hr2 & Hm2).
  destruct (explainer_stuck_run later st2 Hl2 Hr2) as (H1 & H3 & H4).
  unfold Explainer.run in *. repeat split; [exact H1|exact H3|].
  now rewrite H4.
Qed.

End ExplainerStuck.

Section ExplainerStuckWitness.

Import Js Chat GatewayProps MoreProps PanelProps Explainer.

Lemma unreadable_file_blocks_the_explainer_witness :
  let st :=
    Explainer.step (Some "key") (streams ["a"] None) true 0 unreadable
      (mount true [] (Speech.synth_init true))
      (SelectFile (File.mk "a.pdf" "application/pdf" 0)) in
  isLoading
    (Explainer.run (Some "key") (streams ["a"] None) true 0 unreadable st
       ([ClickSend 5 5; Resume 0] ++ [Change "again"; PressEnter 6 6; Resume 0]))
  = true.
Proof.
  cbv zeta.
  pose proof (unreadable_file_blocks_the_explainer
                (Some "key") (streams ["a"] None) true 0 unreadable
                (Explainer.step (Some "key") (streams ["a"] None) true 0 unreadable
                   (mount true [] (Speech.synth_init true))
                   (SelectFile (File.mk "a.pdf" "application/pdf" 0)))
                (File.mk "a.pdf" "application/pdf" 0) (Error "read failed") 5 5
                [Change "again"; PressEnter 6 6; Resume 0]
                eq_refl eq_refl eq_refl eq_refl) as H.
  exact (proj1 H).
Defined.

End ExplainerStuckWitness.

(** ** A request that never ends *)

Section UnreadableAttachment.

Import Js Chat GatewayProps MoreProps PanelProps.

(** C7.  A submitted request that reaches no terminal state.  In the
    explainer, after a first exchange that has ended as it should, a
    message is sent with an attached file whose read fails.  The panel is
    then loading with no call left that could end the loading: no turn
    was opened, no error message was written anywhere, the messages are
    those of the first exchange, and the typing indicator shows next to
    the earlier answer; whatever happens afterwards, all this stays.  The
    summarizer, given the same file, reports "Failed to read the uploaded
    file." and stops loading; and the same message with a file that can
    be read ends in the explainer too.  (The explainer awaits the read
    before the [try] whose [catch] writes the error and whose [finally]
    clears the loading.) *)
Theorem unreadable_attachment_leaves_request_stuck :
  let remote := streams ["Hello."] None in
  let file := File.mk "notes.pdf" "application/pdf" 0 in
  let first_exchange :=
    [Explainer.Change "Hi"; Explainer.ClickSend 1 2;
     Explainer.Resume 0; Explainer.Resume 0] in
  let request :=
    [Explainer.Change "Read this"; Explainer.SelectFile file;
     Explainer.ClickSend 5 6; Explainer.Resume 0] in
  let explainer read :=
    Explainer.run (Some "key") remote true 0 read
      (Explainer.mount true [] (Speech.synth_init true)) in
  let answered := explainer unreadable first_exchange in
  let stuck := explainer unreadable (first_exchange ++ request) in
  let answer := Message.mk "msg-2-model" model "Hello." None in
  (Explainer.isLoading answered = false
   /\ Explainer.messages answered = [Message.mk "msg-1" user "Hi" None; answer])
  /\ (forall later,
        let st := explainer unreadable ((first_exchange ++ request) ++ later) in
        Explainer.isLoading st = true
        /\ Explainer.running st = []
        /\ Explainer.messages st = Explainer.messages answered
        /\ typing_indicator (Explainer.isLoading st) (Explainer.messages st) answer = true)
  /\ (let st :=
        Summarizer.run (Some "key") (replying "A summary.") 0 unreadable
          (Summarizer.mount (Speech.synth_init true))
          [Summarizer.FileChange (Some file); Summarizer.ClickSummarize;
           Summarizer.Resume 0] in
      Summarizer.isLoading st = false
      /\ Summarizer.running st = []
      /\ Summarizer.error st = "Failed to read the uploaded file.")
  /\ (let st :=
        explainer (reads "AAAA")
          ((first_exchange ++ request) ++ [Explainer.Resume 0; Explainer.Resume 0]) in
      Explainer.isLoading st = false
      /\ Explainer.running st = []
      /\ last (Explainer.messages st)
         = Some (Message.mk "msg-6-model" model "Hello." None)).
Proof.
  cbv zeta. split; [split; reflexivity|]. split; [|split; repeat split; reflexivity].
  intros later. unfold Explainer.run. rewrite fold_left_app.
  set (stuck := fold_left _ (_ ++ _) _).
  assert (Hl : Explainer.isLoading stuck = true) by reflexivity.
  assert (Hr : Explainer.running stuck = []) by reflexivity.
  assert (Hm : Explainer.messages stuck
               = [Message.mk "msg-1" user "Hi" None;
                  Message.mk "msg-2-model" model "Hello." None]) by reflexivity.
  destruct (explainer_stuck_run (Some "key") (streams ["Hello."] None) true 0 unreadable
              later stuck Hl Hr) as (H1 & H2 & H3).
  unfold Explainer.run in *. rewrite H1, H2, H3, Hm. now repeat split.
Qed.

End UnreadableAttachment.

(** ** New projects *)

Section NewProject.

Import Js MoreProps ProjectPlanner.


End NewProject.

(** ** The restart of a recognition that ends *)

Section RestartOnEnd.

Import Speech SpeechProps MoreProps.

Context {App : Type}.
Variable onTranscript : string -> App -> App.

Lemma fresh_after_effect (s : Hook (App := App)) :
  started_unaware s -> started_unaware (useEffect true s) /\ ref_fresh (useEffect true s).
Proof.
  intros H1. split.
  - intros r o Hr Hc. cbn in Hr.
    apply lookup_app_Some in Hr as [Hr|[_ Hr]]; [now apply (H1 r o)|].
    destruct (r - length (objects s)) as [|n]; [|discriminate].
    injection Hr as <-. now cbn in Hc.
  - exists (length (objects s)). eexists. cbn. split; [reflexivity|].
    rewrite lookup_app_r by lia. rewrite Nat.sub_diag. now repeat split.
Qed.

Lemma react_step_inv (s : Hook (App := App)) e :
  started_unaware s -> ref_fresh s ->
  started_unaware (react_step onTranscript s e) /\ ref_fresh (react_step onTranscript s e).
Proof.
  intros H1 H2. pose proof H2 as (r & o & Href & Ho & Hidle & Hon).
  unfold react_step. destruct e as [| | |r' results|r']; cbn [step].
  - (* render *)
    rewrite Bool.eqb_reflx. now apply fresh_after_effect.
  - (* startListening *)
    unfold startListening. rewrite Href.
    destruct (isListening s) eqn:Hl; cbn [negb].
    + rewrite Hl. cbn. now split.
    + unfold start. rewrite Ho, Hidle. cbn [isListening Bool.eqb].
      apply fresh_after_effect.
      intros r1 o1 Hr1 Hc1. cbn in Hr1.
      destruct (decide (r = r1)) as [<-|Hne].
      * rewrite list_lookup_insert_eq in Hr1 by (now apply lookup_lt_Some in Ho).
        injection Hr1 as <-. cbn. exact Hon.
      * rewrite list_lookup_insert_ne in Hr1 by exact Hne. now apply (H1 r1 o1).
  - (* stopListening *)
    unfold stopListening. rewrite Href.
    destruct (isListening s) eqn:Hl.
    + cbn [isListening Bool.eqb]. apply fresh_after_effect.
      intros r1 o1 Hr1 Hc1. cbn in Hr1. unfold stop in Hr1.
      rewrite Ho, Hidle in Hr1. now apply (H1 r1 o1).
    + rewrite Hl. cbn. now split.
  - (* result *)
    unfold engine_result.
    destruct (objects s !! r') as [o'|]; [|rewrite Bool.eqb_reflx; now split].
    destruct (capture o'); cbn [isListening]; rewrite Bool.eqb_reflx; now split.
  - (* end *)
    unfold engine_stop.
    destruct (objects s !! r') as [o'|] eqn:Ho'; [|rewrite Bool.eqb_reflx; now split].
    assert (Hcases : capture o' = idle
                     \/ (capture o' <> idle /\ onend_isListening o' = false /\ r' <> r)).
    { destruct (capture o') eqn:Hc; [now left| |]; right.
      - assert (Hn : capture o' <> idle) by (rewrite Hc; discriminate).
        rewrite <- Hc. split; [exact Hn|]. split; [now apply (H1 r' o')|].
        intros ->. congruence.
      - assert (Hn : capture o' <> idle) by (rewrite Hc; discriminate).
        rewrite <- Hc. split; [exact Hn|]. split; [now apply (H1 r' o')|].
        intros ->. congruence. }
    destruct Hcases as [Hi|(Hni & Hoff & Hne)].
    { rewrite Hi, Bool.eqb_reflx. now split. }
    rewrite Hoff.
    assert (E : match capture o' with
                | idle => s
                | _ => {| app := app s; isListening := isListening s;
                          recognitionRef := recognitionRef s;
                          objects := <[r':=set_capture idle o']> (objects s) |}
                end
                = {| app := app s; isListening := isListening s;
                     recognitionRef := recognitionRef s;
                     objects := <[r':=set_capture idle o']> (objects s) |}).
    { destruct (capture o'); [congruence|reflexivity|reflexivity]. }
    rewrite E. cbn [isListening]. rewrite Bool.eqb_reflx. split.
    + intros r1 o1 Hr1 Hc1. cbn in Hr1.
      destruct (decide (r' = r1)) as [<-|Hne1].
      * rewrite list_lookup_insert_eq in Hr1 by (now apply lookup_lt_Some in Ho').
        injection Hr1 as <-. now cbn in Hc1.
      * rewrite list_lookup_insert_ne in Hr1 by exact Hne1. now apply (H1 r1 o1).
    + exists r, o. cbn. rewrite list_lookup_insert_ne by exact Hne. now repeat split.
Qed.

Lemma react_run_inv trace (s : Hook (App := App)) :
  started_unaware s -> ref_fresh s ->
  started_unaware (react_run onTranscript s trace)
  /\ ref_fresh (react_run onTranscript s trace).
Proof.
  revert s. induction trace as [|e trace IH]; intros s H1 H2; [now split|].
  destruct (react_step_inv s e H1 H2) as [H1' H2'].
  now apply (IH _ H1' H2').
Qed.

(** X29.  Under React a recognition that ends is never restarted.  The
    [onend] handler restarts the recognition when the [isListening] it
    holds is true; but it holds the value of the render that made its
    object, and an object is only ever started while the hook is not
    listening, after which React runs the effect again and puts a new
    object in [recognitionRef].  So in every state reached from the first
    render, an object that is capturing or stopping has a handler that
    saw [false]: when the engine ends it, the object is left idle, no
    object is started, and the hook goes on saying what it said, listening
    or not. *)
Theorem ended_recognition_is_not_restarted
        (a : App) (trace : list Event) (r : nat) (o : Recognition) :
  let s := react_run onTranscript (react_mount a) trace in
  objects s !! r = Some o ->
  capture o <> idle ->
  onend_isListening o = false
  /\ engine_stop r s
     = {| app := app s; isListening := isListening s;
          recognitionRef := recognitionRef s;
          objects := <[r := set_capture idle o]> (objects s) |}.
Proof.
  cbv zeta. intros Ho Hc.
  assert (Hinit : started_unaware (initial a)).
  { intros r1 o1 Hr1. cbn in Hr1. discriminate. }
  destruct (fresh_after_effect (initial a) Hinit) as [H1 H2].
  destruct (react_run_inv trace _ H1 H2) as [Hs _].
  fold (react_mount a) in Hs.
  pose proof (Hs r o Ho Hc) as Hoff. split; [exact Hoff|].
  unfold engine_stop. rewrite Ho, Hoff.
  destruct (capture o); [congruence|reflexivity|reflexivity].
Qed.

End RestartOnEnd.

Section RestartOnEndWitness.

Import Speech SpeechProps MoreProps.

Lemma ended_recognition_is_not_restarted_witness :
  let s := react_run (fun _ (a : unit) => a) (react_mount tt) [StartListening] in
  let o := {| continuous := true; interimResults := true;
              onend_isListening := false; capture := capturing |} in
  onend_isListening o = false
  /\ engine_stop 0 s
     = {| app := app s; isListening := isListening s;
          recognitionRef := recognitionRef s;
          objects := <[0 := set_capture idle o]> (objects s) |}.
Proof.
  apply (ended_recognition_is_not_restarted (fun _ (a : unit) => a) tt [StartListening] 0
           {| continuous := true; interimResults := true;
              onend_isListening := false; capture := capturing |}).
  - reflexivity.
  - discriminate.
Defined.

End RestartOnEndWitness.
